(** * Ensemble dynamics model: a shallow embedding of [dynamics_model.py]

    The development follows the source file class by class:
    - [Tensor]: the part of the torch tensor interface the model uses
      (shapes, broadcasting, slicing, [mm], [trace], [sum]);
    - [ProbLoss]: the variance-bounded negative log-likelihood;
    - [DataLoader], [KFold]: what the training code relies on from
      [torch.utils.data] and [sklearn.model_selection];
    - [Net]: the multilayer perceptron and its training loop;
    - [DynamicsModel]: construction, [predict] and [train].

    The earlier network, loss, ensemble and training function of
    [mbrl_resources.py] ([MbrlNet], [Prob_Loss], [Ensemble],
    [TrainNetwork]) are embedded over the same tensors, after the
    definitions for [dynamics_model.py].

    Objects.  A method is a computation in a state-and-error monad over
    the object it is called on; a member network is reached through its
    position in [self.nets], so a write to it shows in the model.  The
    optimizer's update and the sampler's order are library code and enter
    as section variables.

    Numbers.  Tensor entries are 32-bit floats in the source; here they are
    real numbers ([R]), so every statement about values is a statement about
    the exact arithmetic the code approximates.  Floats saturate where the
    real functions only come close ([log(1 + exp(x))] is exactly 0 for a
    very negative [x]): the bounds of the soft clamp are therefore stated
    with [<=], which rounding keeps.  Sizes are [nat], the integer
    hyperparameters [epochs] and [batch] are [Z], and the split fraction is
    a rational ([Q]) so that [int(split * len(dataset))] can be evaluated.
    The source rounds the product [split * len(dataset)] to a float before
    it truncates; the product here is exact.  The two agree when the
    product is itself a float.  Rounding is monotone and keeps integers: it
    can move a product onto an integer, not across one.  What is stated
    for a range of split fractions is stated for [split = 0],
    [split >= 1] and [split <= -1], where the cut is the same under every
    such rounding.

    Errors.  A Python exception is a value [Err e]; a computation that can
    raise returns a [result]. *)

From Stdlib Require Import List Arith ZArith QArith Reals Lra Lia Bool.
Import ListNotations.

Close Scope Q_scope.
Close Scope R_scope.

(** ** Exceptions and results *)

Inductive error : Type :=
| ValueError          (* sklearn / torch argument checks *)
| RuntimeError        (* torch shape mismatch *)
| IndexError          (* list or array index out of range *)
| ZeroDivisionError.  (* Python float division by zero *)

Inductive result (A : Type) : Type :=
| Ok (a : A)
| Err (e : error).

Arguments Ok {A} a.
Arguments Err {A} e.

Definition rbind {A B} (m : result A) (k : A -> result B) : result B :=
  match m with
  | Ok a => k a
  | Err e => Err e
  end.

Declare Scope result_scope.
Delimit Scope result_scope with res.
Notation "x <- m ;; k" := (rbind m (fun x => k))
  (at level 61, m at next level, right associativity) : result_scope.

(** ** Tensors

    A two-dimensional tensor carries its shape next to its entries, as
    torch does: a tensor of shape [(0, 5)] and one of shape [(0, 3)] differ.
    Every operation below builds its result by tabulation over the result
    shape, reading operands with [get]. *)

Module Tensor.

Record tensor : Type := T {
  nrows : nat;
  ncols : nat;
  data : list (list R)
}.

Definition get (A : tensor) (i j : nat) : R :=
  nth j (nth i (data A) []) 0%R.

Definition tab (r c : nat) (f : nat -> nat -> R) : tensor :=
  T r c (map (fun i => map (fun j => f i j) (seq 0 c)) (seq 0 r)).

(** The entries agree with the declared shape. *)
Definition wf (A : tensor) : Prop :=
  length (data A) = nrows A /\
  Forall (fun row => length row = ncols A) (data A).

Definition shape (A : tensor) : nat * nat := (nrows A, ncols A).

(** [torch.zeros((r, c))] *)
Definition zeros (r c : nat) : tensor := tab r c (fun _ _ => 0%R).

(** Elementwise application of a scalar function, e.g. [torch.exp]. *)
Definition tmap (f : R -> R) (A : tensor) : tensor :=
  tab (nrows A) (ncols A) (fun i j => f (get A i j)).

(** Broadcasting of one dimension: equal sizes, or one of them is 1. *)
Definition bdim (a b : nat) : result nat :=
  if a =? b then Ok a
  else if a =? 1 then Ok b
  else if b =? 1 then Ok a
  else Err RuntimeError.

Definition bidx (n i : nat) : nat := if n =? 1 then 0 else i.

(** A binary elementwise operator with torch's broadcasting. *)
Definition bcast (op : R -> R -> R) (A B : tensor) : result tensor :=
  (r <- bdim (nrows A) (nrows B) ;;
   c <- bdim (ncols A) (ncols B) ;;
   Ok (tab r c (fun i j =>
         op (get A (bidx (nrows A) i) (bidx (ncols A) j))
            (get B (bidx (nrows B) i) (bidx (ncols B) j)))))%res.

Definition sub := bcast Rminus.
Definition add := bcast Rplus.
Definition div := bcast Rdiv.

(** In-place [A += B]: the broadcast result must have the shape of [A]. *)
Definition iadd (A B : tensor) : result tensor :=
  (C <- add A B ;;
   if (nrows C =? nrows A) && (ncols C =? ncols A) then Ok C
   else Err RuntimeError)%res.

(** [A[:, :k]] and [A[:, k:]] *)
Definition cols_to (k : nat) (A : tensor) : tensor :=
  tab (nrows A) (Nat.min k (ncols A)) (fun i j => get A i j).

Definition cols_from (k : nat) (A : tensor) : tensor :=
  tab (nrows A) (ncols A - k) (fun i j => get A i (k + j)).

(** [A.t()] *)
Definition transpose (A : tensor) : tensor :=
  tab (ncols A) (nrows A) (fun i j => get A j i).

(** Sum of [f 0 + ... + f (n-1)]. *)
Definition sum_n (n : nat) (f : nat -> R) : R :=
  fold_right (fun k acc => (f k + acc)%R) 0%R (seq 0 n).

(** [torch.mm(A, B)] *)
Definition mm (A B : tensor) : result tensor :=
  if ncols A =? nrows B
  then Ok (tab (nrows A) (ncols B)
             (fun i j => sum_n (ncols A) (fun k => (get A i k * get B k j)%R)))
  else Err RuntimeError.

(** [torch.trace(A)] *)
Definition trace (A : tensor) : R :=
  sum_n (Nat.min (nrows A) (ncols A)) (fun i => get A i i).

(** [torch.sum(A)] *)
Definition sum (A : tensor) : R :=
  sum_n (nrows A) (fun i => sum_n (ncols A) (fun j => get A i j)).

(** Row [i] as a list, and the tensor made of the given rows
    (what stacking samples into a batch does). *)
Definition row (A : tensor) (i : nat) : list R :=
  map (fun j => get A i j) (seq 0 (ncols A)).

Definition of_rows (c : nat) (rows : list (list R)) : tensor :=
  T (length rows) c rows.

End Tensor.

Import Tensor.

(** ** ProbLoss: the probabilistic loss function *)

Module ProbLoss.

(** The module's state: [size] and the two learned [(1, size)] bounds. *)
Record t : Type := Build {
  size : nat;
  max_logvar : tensor;
  min_logvar : tensor
}.

(** [__init__]: bounds start at [+1] and [-1]. *)
Definition init (sz : nat) : t :=
  {| size := sz;
     max_logvar := tab 1 sz (fun _ _ => (1 * 1)%R);
     min_logvar := tab 1 sz (fun _ _ => (-1 * 1)%R) |}.

(** Gradient steps may move the bounds but not their shape. *)
Definition wf_loss (self : t) : Prop :=
  shape (max_logvar self) = (1, size self) /\
  shape (min_logvar self) = (1, size self).

(** [softplus_raw]: [log(1 + exp(B * x)) / B] with [B = 1], elementwise. *)
Definition B : R := 1%R.

Definition softplus_raw (input : tensor) : tensor :=
  tmap (fun x => (ln (1 + exp (x * B)) / B)%R) input.

(** First cap of [forward]:
    [logvar = max_logvar - softplus_raw(max_logvar - logvar)]. *)
Definition cap_above (self : t) (logvar : tensor) : result tensor :=
  (d <- sub (max_logvar self) logvar ;;
   sub (max_logvar self) (softplus_raw d))%res.

(** Second cap of [forward]:
    [logvar = min_logvar + softplus_raw(logvar - min_logvar)]. *)
Definition cap_below (self : t) (logvar : tensor) : result tensor :=
  (d <- sub logvar (min_logvar self) ;;
   add (min_logvar self) (softplus_raw d))%res.

(** The value of [logvar] after both caps, from the raw network output. *)
Definition capped_logvar (self : t) (inputs : tensor) : result tensor :=
  (let logvar := cols_from (size self) inputs in
   logvar <- cap_above self logvar ;;
   cap_below self logvar)%res.

Definition forward (self : t) (inputs targets : tensor) : result R :=
  (let mean := cols_to (size self) inputs in
   logvar <- capped_logvar self inputs ;;
   let var := tmap exp logvar in
   diff <- sub mean targets ;;
   mid <- div diff var ;;
   let lg := sum (tmap ln var) in
   p <- mm diff (transpose mid) ;;
   Ok (trace p + lg)%R)%res.

End ProbLoss.

(** *** The two caps in one coordinate

    [softplus], and what [cap_above] and [cap_below] compute entrywise. *)

Definition softplus (x : R) : R := ln (1 + exp x).

Definition soft_above (M r : R) : R := (M - softplus (M - r))%R.
Definition soft_below (m l : R) : R := (m + softplus (l - m))%R.
Definition soft_clamp (M m r : R) : R := soft_below m (soft_above M r).

(** ** Object state and exceptions: a state-and-error monad

    A method of an object with state [S] is a function from the state
    before the call to either an exception or a return value and the state
    after the call. *)

Definition M (S A : Type) : Type := S -> result (A * S).

Definition ret {S A} (a : A) : M S A := fun s => Ok (a, s).

Definition bind {S A B} (m : M S A) (k : A -> M S B) : M S B :=
  fun s => match m s with
           | Ok (a, s') => k a s'
           | Err e => Err e
           end.

Definition get_state {S} : M S S := fun s => Ok (s, s).
Definition put_state {S} (s : S) : M S unit := fun _ => Ok (tt, s).

(** A computation that does not touch the object. *)
Definition lift {S A} (r : result A) : M S A :=
  fun s => match r with
           | Ok a => Ok (a, s)
           | Err e => Err e
           end.

Declare Scope monad_scope.
Delimit Scope monad_scope with M.
Notation "x <- m ;; k" := (bind m (fun x => k))
  (at level 61, m at next level, right associativity) : monad_scope.
Notation "' pat <- m ;; k" := (bind m (fun x => match x with pat => k end))
  (at level 61, pat pattern, m at next level, right associativity) : monad_scope.
Notation "m ;;; k" := (bind m (fun _ => k))
  (at level 61, right associativity) : monad_scope.

(** [for a in l: acc = body(a, acc)] *)
Fixpoint for_each {S A B} (l : list A) (body : A -> B -> M S B) (acc : B)
  : M S B :=
  match l with
  | [] => ret acc
  | a :: l' => (acc' <- body a acc ;; for_each l' body acc')%M
  end.

(** ** Python helpers *)

(** [int(q)]: truncation toward zero. *)
Definition py_int (q : Q) : Z := Z.quot (Qnum q) (Zpos (Qden q)).

(** [l[:k]] and [l[k:]]; a negative [k] counts from the end, and bounds
    outside the list are clipped. *)
Definition slice_bound {A} (l : list A) (k : Z) : nat :=
  if (k <? 0)%Z then Z.to_nat (Z.of_nat (length l) + k) else Z.to_nat k.

Definition slice_to {A} (l : list A) (k : Z) : list A :=
  firstn (slice_bound l k) l.

Definition slice_from {A} (l : list A) (k : Z) : list A :=
  skipn (slice_bound l k) l.

(** [x / d] for a float [x] and an integer [d]. *)
Definition py_div (x : R) (d : Z) : result R :=
  if (d =? 0)%Z then Err ZeroDivisionError else Ok (x / IZR d)%R.

(** [range(n)] for an integer [n]; empty when [n <= 0]. *)
Definition range (n : Z) : list nat := seq 0 (Z.to_nat n).

(** ** Configuration: the fields of [cfg] the model reads *)

Record Config : Type := {
  (* cfg.model *)
  ensemble : bool;
  cfg_traj : bool;
  cfg_prob : bool;
  (* cfg.model.training *)
  cfg_E : nat;
  hid_width : nat;
  hid_depth : nat;
  (* cfg.model.optimizer *)
  lr : R;
  batch : Z;
  split : Q;
  epochs : Z;
  (* cfg.env *)
  state_size : nat;
  action_size : nat;
  param_size : nat
}.

(** ** torch.utils.data.DataLoader

    Library behaviour the training loop relies on.  With [shuffle=True] the
    loader builds a random sampler over the dataset, and the sampler's
    constructor rejects a dataset without samples; the batch sampler
    rejects a batch size that is not positive.  Both raise [ValueError].
    The length of a loader is the number of batches, the last batch may be
    short. *)

Module DataLoader.

Definition sample : Type := (list R * list R)%type.

Record t : Type := Build {
  dataset : list sample;
  batch_size : nat
}.

Definition new (ds : list sample) (bs : Z) : result t :=
  if length ds =? 0 then Err ValueError
  else if (bs <=? 0)%Z then Err ValueError
  else Ok {| dataset := ds; batch_size := Z.to_nat bs |}.

(** [len(loader)] *)
Definition len (l : t) : nat :=
  (length (dataset l) + batch_size l - 1) / batch_size l.

Fixpoint chunks {A} (fuel bs : nat) (l : list A) : list (list A) :=
  match fuel with
  | 0 => []
  | S fuel' =>
      match l with
      | [] => []
      | _ => firstn bs l :: chunks fuel' bs (skipn bs l)
      end
  end.

(** Stacking the rows of a batch into one tensor; rows of different
    lengths cannot be stacked. *)
Definition stack (rows : list (list R)) : result tensor :=
  let c := length (hd [] rows) in
  if forallb (fun r => length r =? c) rows
  then Ok (of_rows c rows)
  else Err RuntimeError.

Definition collate (b : list sample) : result (tensor * tensor) :=
  (inputs <- stack (map fst b) ;;
   targets <- stack (map snd b) ;;
   Ok (inputs, targets))%res.

Fixpoint collate_all (bs : list (list sample)) : result (list (tensor * tensor)) :=
  match bs with
  | [] => Ok []
  | b :: bs' =>
      (x <- collate b ;; xs <- collate_all bs' ;; Ok (x :: xs))%res
  end.

(** The batches of one pass over the loader, given the order the sampler
    drew. *)
Definition batches (l : t) (order : list sample) : result (list (tensor * tensor)) :=
  collate_all (chunks (length order) (batch_size l) order).

End DataLoader.

(** ** Net: the general neural network *)

Module Net.

(** Keys of the [OrderedDict] of layers; they are pairwise distinct, so the
    dictionary keeps every layer, in insertion order. *)
Inductive layer_name : Type :=
| dynm_input_lin
| dynm_input_act
| dynm_lin_ (d : nat)
| dynm_act_ (d : nat)
| dynm_out_lin.

(** [nn.Linear(in, out)] holds a weight of shape [(out, in)] and a bias of
    [out] entries (kept as a [(1, out)] row); the activation is
    [nn.ReLU()]. *)
Inductive layer : Type :=
| Linear (weight bias : tensor)
| ReLU.

Definition Sequential : Type := list (layer_name * layer).

(** The loss function object handed to the net. *)
Inductive loss : Type :=
| MSELoss
| ProbLossFn (l : ProbLoss.t).

Record t : Type := Build {
  n_in : nat;
  n_out : nat;
  hidden_w : nat;
  loss_fn : loss;
  features : Sequential
}.

(** Initial weights are drawn at random by torch; [init_params] stands for
    the values drawn: [w name o i] and [b name o]. *)
Record init_params : Type := {
  init_w : layer_name -> nat -> nat -> R;
  init_b : layer_name -> nat -> R
}.

Definition new_Linear (p : init_params) (name : layer_name) (n_i n_o : nat)
  : layer_name * layer :=
  (name, Linear (tab n_o n_i (init_w p name))
                (tab 1 n_o (fun _ o => init_b p name o))).

(** [__init__] *)
Definition init (n_in n_out : nat) (cfg : Config) (loss_fn : loss)
                (p : init_params) : t :=
  let hidden_w := hid_width cfg in
  let layers :=
    [new_Linear p dynm_input_lin n_in hidden_w; (dynm_input_act, ReLU)]
    ++ flat_map (fun d => [new_Linear p (dynm_lin_ d) hidden_w hidden_w;
                           (dynm_act_ d, ReLU)])
                (seq 0 (hid_depth cfg))
    ++ [new_Linear p dynm_out_lin hidden_w n_out] in
  {| n_in := n_in; n_out := n_out; hidden_w := hidden_w;
     loss_fn := loss_fn; features := layers |}.

(** One layer applied to a batch: [x @ weight.t() + bias], or [max(0, x)]
    entrywise. *)
Definition apply_layer (l : layer) (x : tensor) : result tensor :=
  match l with
  | Linear weight bias =>
      (y <- mm x (transpose weight) ;; add y bias)%res
  | ReLU => Ok (tmap (Rmax 0) x)
  end.

Fixpoint apply_Sequential (f : Sequential) (x : tensor) : result tensor :=
  match f with
  | [] => Ok x
  | (_, l) :: f' => (y <- apply_layer l x ;; apply_Sequential f' y)%res
  end.

(** [nn.MSELoss()]: the mean of the squared differences. *)
Definition mse_loss (outputs targets : tensor) : result R :=
  (d <- sub outputs targets ;;
   Ok (sum (tmap (fun v => v * v) d) / INR (nrows d * ncols d))%R)%res.

Definition apply_loss (l : loss) (outputs targets : tensor) : result R :=
  match l with
  | MSELoss => mse_loss outputs targets
  | ProbLossFn pl => ProbLoss.forward pl outputs targets
  end.

(** The rows of a 2-D array, as iteration over it yields them. *)
Definition rows (A : tensor) : list (list R) :=
  map (row A) (seq 0 (nrows A)).

(** What a method of [Net] can reach: the object itself and torch's global
    random generator. *)
Record state : Type := St {
  self : t;
  rng : nat
}.

Section Methods.

(** The optimizer and the sampler are library code: [Adam params lr] is the
    optimizer state after construction, [step] stands for
    [zero_grad(); loss.backward(); optimizer.step()] on one batch and
    returns the updated parameters of [features]; [shuffle] is the order in
    which the random sampler visits a dataset, together with the next
    generator state. *)
Variable OptState : Type.
Variable Adam : Sequential -> R -> OptState.
Variable step : OptState -> loss -> Sequential -> tensor -> tensor ->
                OptState * Sequential.
Variable shuffle : nat -> list DataLoader.sample -> list DataLoader.sample * nat.

(** [forward]: a pass of [x] through [self.features]. *)
Definition forward (x : tensor) : M state tensor :=
  (s <- get_state ;;
   lift (apply_Sequential (features (self s)) x))%M.

(** One pass over a loader in shuffled order. *)
Definition enumerate (l : DataLoader.t) : M state (list (tensor * tensor)) :=
  (s <- get_state ;;
   let '(order, g) := shuffle (rng s) (DataLoader.dataset l) in
   put_state (St (self s) g) ;;;
   lift (DataLoader.batches l order))%M.

Definition set_features (f : Sequential) : M state unit :=
  (s <- get_state ;;
   let n := self s in
   put_state (St (Build (n_in n) (n_out n) (hidden_w n) (loss_fn n) f)
                 (rng s)))%M.

(** The body of the training loop over batches. *)
Definition train_batch (trainLoader : DataLoader.t) (bs : Z)
    (b : tensor * tensor) (acc : OptState * R) : M state (OptState * R) :=
  (let '(inputs, targets) := b in
   let '(optimizer, train_error) := acc in
   outputs <- forward inputs ;;
   s <- get_state ;;
   loss <- lift (apply_loss (loss_fn (self s)) outputs targets) ;;
   d <- lift (py_div loss (Z.of_nat (DataLoader.len trainLoader) * bs)) ;;
   let '(optimizer', f') :=
     step optimizer (loss_fn (self s)) (features (self s)) inputs targets in
   set_features f' ;;;
   ret (optimizer', train_error + d)%R)%M.

(** The body of the evaluation loop over batches. *)
Definition test_batch (testLoader : DataLoader.t) (bs : Z)
    (b : tensor * tensor) (test_error : R) : M state R :=
  (let '(inputs, targets) := b in
   outputs <- forward inputs ;;
   s <- get_state ;;
   loss <- lift (apply_loss (loss_fn (self s)) outputs targets) ;;
   d <- lift (py_div loss (Z.of_nat (DataLoader.len testLoader) * bs)) ;;
   ret (test_error + d)%R)%M.

(** The body of the loop over epochs.  [train_error] is a Python float and
    [test_error] a tensor with one entry; both are a real number here. *)
Definition epoch_body (trainLoader testLoader : DataLoader.t) (bs : Z)
    (epoch : nat) (acc : OptState * list R * list R)
  : M state (OptState * list R * list R) :=
  (let '(optimizer, train_errors, test_errors) := acc in
   bt <- enumerate trainLoader ;;
   '(optimizer', train_error) <-
       for_each bt (train_batch trainLoader bs) (optimizer, 0%R) ;;
   be <- enumerate testLoader ;;
   test_error <- for_each be (test_batch testLoader bs) 0%R ;;
   ret (optimizer', train_errors ++ [train_error],
        test_errors ++ [test_error]))%M.

(** [optimize]: train this net on [dataset]; returns the per-epoch train
    and test errors.  (The [StepLR] scheduler the source builds is never
    stepped and has no effect.) *)
Definition optimize (dataset : tensor * tensor) (cfg : Config)
  : M state (list R * list R) :=
  (let lr := lr cfg in
   let bs := batch cfg in
   let split := split cfg in
   let epochs := epochs cfg in
   s <- get_state ;;
   let optimizer := Adam (features (self s)) lr in
   let dataset := combine (rows (fst dataset)) (rows (snd dataset)) in
   let k := py_int (split * inject_Z (Z.of_nat (length dataset)))%Q in
   trainLoader <- lift (DataLoader.new (slice_to dataset k) bs) ;;
   testLoader <- lift (DataLoader.new (slice_from dataset k) bs) ;;
   '(_, train_errors, test_errors) <-
       for_each (range epochs) (epoch_body trainLoader testLoader bs)
                (optimizer, [], []) ;;
   ret (train_errors, test_errors))%M.

End Methods.

End Net.

(** ** sklearn.model_selection.KFold

    Library behaviour [train] relies on.  The constructor rejects
    [n_splits <= 1]; [split] rejects more splits than samples; both raise
    [ValueError].  Without shuffling (the default, which the source keeps)
    the first [n mod k] folds have [n / k + 1] samples and the others
    [n / k]; the test indices of a fold are consecutive, and its train
    indices are all the other indices in increasing order. *)

Module KFold.

Record t : Type := Build { n_splits : nat }.

Definition new (n : nat) : result t :=
  if n <=? 1 then Err ValueError else Ok {| n_splits := n |}.

Definition fold_sizes (k n : nat) : list nat :=
  map (fun i => n / k + (if i <? n mod k then 1 else 0)) (seq 0 k).

(** The folds from position [current] on: pairs [(train_index, test_index)]. *)
Fixpoint folds_from (n current : nat) (sizes : list nat)
  : list (list nat * list nat) :=
  match sizes with
  | [] => []
  | fold_size :: sizes' =>
      let test_index := seq current fold_size in
      let train_index :=
        filter (fun i => negb (existsb (Nat.eqb i) test_index)) (seq 0 n) in
      (train_index, test_index)
        :: folds_from n (current + fold_size) sizes'
  end.

Definition split (kf : t) (n_samples : nat)
  : result (list (list nat * list nat)) :=
  if n_samples <? n_splits kf then Err ValueError
  else Ok (folds_from n_samples 0 (fold_sizes (n_splits kf) n_samples)).

End KFold.

(** [A[idx]] for an array [A] and a list of row indices. *)
Definition take_rows (A : tensor) (idx : list nat) : result tensor :=
  if forallb (fun i => i <? nrows A) idx
  then Ok (T (length idx) (ncols A) (map (row A) idx))
  else Err IndexError.

(** [l[i] = v] on a list. *)
Fixpoint set_nth {A} (i : nat) (v : A) (l : list A) : list A :=
  match l, i with
  | [], _ => []
  | _ :: l', 0 => v :: l'
  | a :: l', S i' => a :: set_nth i' v l'
  end.

(** ** DynamicsModel: the ensemble wrapper *)

Module DynamicsModel.

Record t : Type := Build {
  ens : bool;
  traj : bool;
  prob : bool;
  E : nat;
  n_in : nat;
  n_out : nat;
  loss_fn : Net.loss;
  nets : list Net.t;
  (* set by [train] *)
  acctrain : option (list (list R));
  acctest : option (list (list R))
}.

(** [__init__].  [p i] stands for the random initial weights of member
    [i].  Every member receives the same loss object; its parameters are
    not among those handed to a member's optimizer, so it is never
    written and each member can hold it by value. *)
Definition init (cfg : Config) (p : nat -> Net.init_params) : t :=
  let ens := ensemble cfg in
  let traj := cfg_traj cfg in
  let prob := cfg_prob cfg in
  let E := if ens then cfg_E cfg else 1 in
  let n_in := if traj then state_size cfg + param_size cfg + 1
              else state_size cfg + action_size cfg in
  let n_out := state_size cfg in
  let '(loss_fn, n_out) :=
    if prob then (Net.ProbLossFn (ProbLoss.init n_out), n_out * 2)
    else (Net.MSELoss, n_out) in
  {| ens := ens; traj := traj; prob := prob; E := E;
     n_in := n_in; n_out := n_out; loss_fn := loss_fn;
     nets := map (fun i => Net.init n_in n_out cfg loss_fn (p i)) (seq 0 E);
     acctrain := None; acctest := None |}.

(** What a method of [DynamicsModel] can reach. *)
Record state : Type := St {
  self : t;
  rng : nat
}.

Definition set_net (i : nat) (n : Net.t) (m : t) : t :=
  Build (ens m) (traj m) (prob m) (E m) (n_in m) (n_out m) (loss_fn m)
        (set_nth i n (nets m)) (acctrain m) (acctest m).

(** A method call on [self.nets[i]]: the member is an object of the
    model's state, so what the call does to it is visible in [self.nets]. *)
Definition on_net {A} (i : nat) (m : M Net.state A) : M state A :=
  fun s =>
    match nth_error (nets (self s)) i with
    | None => Err IndexError
    | Some n =>
        match m (Net.St n (rng s)) with
        | Ok (a, s') =>
            Ok (a, St (set_net i (Net.self s') (self s)) (Net.rng s'))
        | Err e => Err e
        end
    end.

(** The body of the loop over members in [predict]. *)
Definition predict_member (x : tensor) (n : nat) (prediction : tensor)
  : M state tensor :=
  (y <- on_net n (Net.forward x) ;;
   s <- get_state ;;
   lift (iadd prediction
              (tmap (fun v => v / INR (length (nets (self s))))%R y)))%M.

(** [predict]: the members' average, cut to the first 21 columns, plus
    the first 21 columns of [x] unless in trajectory mode. *)
Definition predict (x : tensor) : M state tensor :=
  (s <- get_state ;;
   let prediction := zeros (nrows x) (n_out (self s)) in
   prediction <- for_each (seq 0 (length (nets (self s))))
                          (predict_member x) prediction ;;
   s <- get_state ;;
   if traj (self s) then ret (cols_to 21 prediction)
   else lift (add (cols_to 21 x) (cols_to 21 prediction)))%M.

(** The [(train_idx, test_idx)] pairs that [train] zips with the members.
    [kf.split] is a generator: it raises when the first pair is asked for,
    which [zip] does only after it has obtained a first member. *)
Definition folds (m : t) (dataset : tensor * tensor)
  : result (list (list nat * list nat)) :=
  (kf <- KFold.new (E m) ;;
   match nets m with
   | [] => Ok []
   | _ => KFold.split kf (nrows (fst dataset))
   end)%res.

Definition set_acc (acctrain_l acctest_l : list (list R)) : M state unit :=
  (s <- get_state ;;
   let m := self s in
   put_state (St (Build (ens m) (traj m) (prob m) (E m) (n_in m) (n_out m)
                        (loss_fn m) (nets m)
                        (Some acctrain_l) (Some acctest_l))
                 (rng s)))%M.

Section Train.

Variable OptState : Type.
Variable Adam : Net.Sequential -> R -> OptState.
Variable step : OptState -> Net.loss -> Net.Sequential -> tensor -> tensor ->
                OptState * Net.Sequential.
Variable shuffle : nat -> list DataLoader.sample -> list DataLoader.sample * nat.

Definition optimize := Net.optimize OptState Adam step shuffle.

(** The body of the loop over members and folds in [train]. *)
Definition train_member (dataset : tensor * tensor) (cfg : Config)
    (it : nat * (list nat * list nat))
    (acc : list (list R) * list (list R))
  : M state (list (list R) * list (list R)) :=
  (let '(i, (train_idx, test_idx)) := it in
   let '(acctrain_l, acctest_l) := acc in
   X <- lift (take_rows (fst dataset) train_idx) ;;
   Y <- lift (take_rows (snd dataset) train_idx) ;;
   let sub_data := (X, Y) in
   '(train_e, test_e) <- on_net i (optimize sub_data cfg) ;;
   ret (acctrain_l ++ [train_e], acctest_l ++ [test_e]))%M.

Definition train (dataset : tensor * tensor) (cfg : Config)
  : M state (list (list R) * list (list R)) :=
  (s <- get_state ;;
   '(acctrain_l, acctest_l) <-
     (if ens (self s) then
        fs <- lift (folds (self s) dataset) ;;
        for_each (combine (seq 0 (length (nets (self s)))) fs)
                 (train_member dataset cfg) ([], [])
      else
        '(train_e, test_e) <- on_net 0 (optimize dataset cfg) ;;
        ret ([train_e], [test_e])) ;;
   set_acc acctrain_l acctest_l ;;;
   ret (acctrain_l, acctest_l))%M.

End Train.

End DynamicsModel.

(** ** Well-formedness of a model

    Shapes that [__init__] establishes and that gradient steps keep. *)

(** A layer that takes [a] columns to [b] columns. *)
Definition layer_io (l : Net.layer) (a b : nat) : Prop :=
  match l with
  | Net.Linear weight bias =>
      ncols weight = a /\ nrows weight = b /\
      nrows bias = 1 /\ ncols bias = b
  | Net.ReLU => a = b
  end.

(** A stack of layers whose widths chain from [a] to [b]. *)
Fixpoint seq_io (f : Net.Sequential) (a b : nat) : Prop :=
  match f with
  | [] => a = b
  | (_, l) :: f' => exists c, layer_io l a c /\ seq_io f' c b
  end.

(** Every member's layers chain from the model's [n_in] to its [n_out]. *)
Definition wf_model (m : DynamicsModel.t) : Prop :=
  Forall (fun n => seq_io (Net.features n)
                          (DynamicsModel.n_in m) (DynamicsModel.n_out m))
         (DynamicsModel.nets m).

(** Every member's output on [x] is zero in every entry. *)
Definition members_output_zero (m : DynamicsModel.t) (g : nat) (x : tensor)
  : Prop :=
  forall i y s',
    DynamicsModel.on_net i (Net.forward x) (DynamicsModel.St m g) = Ok (y, s') ->
    forall a b, a < nrows x -> b < DynamicsModel.n_out m -> get y a b = 0%R.

(** ** Counting a sample over the folds *)

(** [s in idx] for an index list. *)
Definition mem (s : nat) (idx : list nat) : bool := existsb (Nat.eqb s) idx.

(** In how many folds sample [s] is held out, and in how many members'
    training sets it appears. *)
Definition held_out_count (s : nat) (fs : list (list nat * list nat)) : nat :=
  length (filter (fun f => mem s (snd f)) fs).

Definition train_count (s : nat) (fs : list (list nat * list nat)) : nat :=
  length (filter (fun f => mem s (fst f)) fs).

(** Where the held-out block of member [i] starts and how long it is, for
    [E] folds over [N] samples. *)
Definition fold_size (E N i : nat) : nat :=
  N / E + (if i <? N mod E then 1 else 0).

Definition fold_start (E N i : nat) : nat :=
  i * (N / E) + Nat.min i (N mod E).

(** ** Concrete inputs used in the examples below *)

(** A raw log-variance of 10 under the initial bounds [-1] and [+1]. *)
Definition raw_high : tensor := T 1 2 [[0; 10]%R].

(** The raw log-variance that the initial bounds map to a variance of 1. *)
Definition raw_unit : R := (1 - ln (exp 2 / (exp 1 - 1) - 1))%R.

Definition unit_var_batch : tensor :=
  T 2 2 [[0; raw_unit]%R; [5; raw_unit]%R].


(** A probabilistic trajectory model and a deterministic one-step model of
    a system with 3 state variables, 2 actions and 1 trajectory parameter. *)
Definition cfg_prob_traj : Config :=
  {| ensemble := false; cfg_traj := true; cfg_prob := true;
     cfg_E := 1; hid_width := 2; hid_depth := 1;
     lr := 0.001%R; batch := 2%Z; split := (4 # 5)%Q; epochs := 1%Z;
     state_size := 3; action_size := 2; param_size := 1 |}.

Definition cfg_onestep : Config :=
  {| ensemble := false; cfg_traj := false; cfg_prob := false;
     cfg_E := 1; hid_width := 2; hid_depth := 1;
     lr := 0.001%R; batch := 2%Z; split := (4 # 5)%Q; epochs := 1%Z;
     state_size := 3; action_size := 2; param_size := 1 |}.

(** A one-step ensemble for a system with 21 state variables and 2
    actions. *)
Definition cfg_state21 : Config :=
  {| ensemble := true; cfg_traj := false; cfg_prob := false;
     cfg_E := 3; hid_width := 4; hid_depth := 2;
     lr := 0.001%R; batch := 2%Z; split := (4 # 5)%Q; epochs := 1%Z;
     state_size := 21; action_size := 2; param_size := 1 |}.

(** A batch of 4 inputs with 5 features each. *)
Definition x45 : tensor :=
  tab 4 5 (fun i j => (INR i + INR j)%R).

(** All weights and biases zero: every member outputs zeros. *)
Definition zero_params : Net.init_params :=
  {| Net.init_w := fun _ _ _ => 0%R; Net.init_b := fun _ _ => 0%R |}.

(** Stand-ins for the optimizer and the sampler in closed examples: an
    optimizer without state whose step leaves the weights alone, and a
    sampler that visits the dataset in order. *)
Definition adam0 (_ : Net.Sequential) (_ : R) : unit := tt.

Definition step0 (o : unit) (_ : Net.loss) (f : Net.Sequential)
                 (_ _ : tensor) : unit * Net.Sequential := (o, f).

Definition shuffle0 (g : nat) (l : list DataLoader.sample)
  : list DataLoader.sample * nat := (l, S g).

(** Five samples of a system with 3 state variables and 2 actions. *)
Definition data5 : tensor * tensor :=
  (tab 5 5 (fun i j => (INR i + INR j)%R), tab 5 3 (fun i j => INR (i * j))).

Definition cfg_split_one : Config :=
  {| ensemble := false; cfg_traj := false; cfg_prob := false;
     cfg_E := 1; hid_width := 2; hid_depth := 1;
     lr := 0.001%R; batch := 2%Z; split := 1%Q; epochs := 3%Z;
     state_size := 3; action_size := 2; param_size := 1 |}.

Definition cfg_split_one' : Config :=
  {| ensemble := false; cfg_traj := false; cfg_prob := false;
     cfg_E := 1; hid_width := 2; hid_depth := 1;
     lr := 0.001%R; batch := 5%Z; split := (2 # 2)%Q; epochs := 1%Z;
     state_size := 3; action_size := 2; param_size := 1 |}.


Definition cfg_negative_epochs : Config :=
  {| ensemble := false; cfg_traj := false; cfg_prob := false;
     cfg_E := 1; hid_width := 2; hid_depth := 1;
     lr := 0.001%R; batch := 100%Z; split := (4 # 5)%Q; epochs := (-3)%Z;
     state_size := 3; action_size := 2; param_size := 1 |}.

(** An ensemble of one member, and one of three. *)
Definition cfg_ensemble_of_one : Config :=
  {| ensemble := true; cfg_traj := false; cfg_prob := false;
     cfg_E := 1; hid_width := 2; hid_depth := 1;
     lr := 0.001%R; batch := 2%Z; split := (4 # 5)%Q; epochs := 1%Z;
     state_size := 3; action_size := 2; param_size := 1 |}.

Definition cfg_ensemble_of_three : Config :=
  {| ensemble := true; cfg_traj := false; cfg_prob := false;
     cfg_E := 3; hid_width := 2; hid_depth := 1;
     lr := 0.001%R; batch := 2%Z; split := (4 # 5)%Q; epochs := 1%Z;
     state_size := 3; action_size := 2; param_size := 1 |}.

(** One member of a one-step model, with zero weights. *)
Definition net0 : Net.t := Net.init 5 3 cfg_split_one Net.MSELoss zero_params.

(** ** Notions used to state what the methods compute *)

(** Whether a layer is an [nn.Linear]. *)
Definition is_linear (l : Net.layer) : bool :=
  match l with
  | Net.Linear _ _ => true
  | Net.ReLU => false
  end.

(** Sum of [f i] over the indices [i] of a list, as [sum_n] over a range. *)
Definition sum_over (l : list nat) (f : nat -> R) : R :=
  fold_right (fun k acc => (f k + acc)%R) 0%R l.

(** What member [i] of the model returns on [x]. *)
Definition member_output (m : DynamicsModel.t) (x : tensor) (i : nat) : tensor :=
  match nth_error (DynamicsModel.nets m) i with
  | Some n =>
      match Net.apply_Sequential (Net.features n) x with
      | Ok y => y
      | Err _ => zeros 0 0
      end
  | None => zeros 0 0
  end.

(** The mean of the members' outputs on [x], entry by entry. *)
Definition members_average (m : DynamicsModel.t) (x : tensor) : tensor :=
  let L := length (DynamicsModel.nets m) in
  tab (nrows x) (DynamicsModel.n_out m)
      (fun a b => sum_n L (fun i => (get (member_output m x i) a b / INR L)%R)).

(** The Gaussian negative log-likelihood that [ProbLoss.forward] sums over
    the batch and the coordinates: squared error over variance, plus the
    log-variance, with the log-variance soft-clamped. *)
Definition nll_term (self : ProbLoss.t) (inputs targets : tensor) (i j : nat) : R :=
  let logvar := soft_clamp (get (ProbLoss.max_logvar self) 0 j)
                           (get (ProbLoss.min_logvar self) 0 j)
                           (get inputs i (ProbLoss.size self + j)) in
  ((get inputs i j - get targets i j) * (get inputs i j - get targets i j)
   / exp logvar + logvar)%R.

Definition nll (self : ProbLoss.t) (inputs targets : tensor) : R :=
  sum_n (nrows inputs)
        (fun i => sum_n (ProbLoss.size self) (nll_term self inputs targets i)).

(** ** Outcomes of a computation

    [rpost r Q P]: the result [r] satisfies [Q] when it is a value and [P]
    when it is an exception; [post] is the same for a method call, with
    the state after the call. *)

Definition rpost {A} (r : result A) (Q : A -> Prop) (P : error -> Prop) : Prop :=
  match r with
  | Ok a => Q a
  | Err e => P e
  end.

Definition post {S A} (r : result (A * S)) (Q : A -> S -> Prop)
    (P : error -> Prop) : Prop :=
  match r with
  | Ok (a, s) => Q a s
  | Err e => P e
  end.

Definition is_runtime (e : error) : Prop := e = RuntimeError.

(** What [optimize] never writes on a net: everything but [features]. *)
Definition signature (n : Net.t) : nat * nat * nat * Net.loss :=
  (Net.n_in n, Net.n_out n, Net.hidden_w n, Net.loss_fn n).

(** What [train] never writes on a model: the flags and sizes, the loss
    function, and for each member everything but its [features]. *)
Definition same_frame (m m' : DynamicsModel.t) : Prop :=
  DynamicsModel.ens m' = DynamicsModel.ens m /\
  DynamicsModel.traj m' = DynamicsModel.traj m /\
  DynamicsModel.prob m' = DynamicsModel.prob m /\
  DynamicsModel.E m' = DynamicsModel.E m /\
  DynamicsModel.n_in m' = DynamicsModel.n_in m /\
  DynamicsModel.n_out m' = DynamicsModel.n_out m /\
  DynamicsModel.loss_fn m' = DynamicsModel.loss_fn m /\
  Forall2 (fun n n' => signature n' = signature n)
          (DynamicsModel.nets m) (DynamicsModel.nets m').


Definition data5_short : tensor * tensor :=
  (tab 5 5 (fun i j => (INR i + INR j)%R), tab 3 3 (fun i j => INR (i * j))).

(** An ensemble of six members: more than the five samples of [data5]. *)
Definition cfg_ensemble_of_six : Config :=
  {| ensemble := true; cfg_traj := false; cfg_prob := false;
     cfg_E := 6; hid_width := 2; hid_depth := 1;
     lr := 0.001%R; batch := 2%Z; split := (4 # 5)%Q; epochs := 1%Z;
     state_size := 3; action_size := 2; param_size := 1 |}.

(** * The earlier network, loss and ensemble: [mbrl_resources.py] *)

(** [l[k]] for a Python list (or an [nn.ModuleList]) and an integer [k]: a
    negative index counts from the end, and an index outside the list
    raises [IndexError]. *)
Definition py_index {A} (l : list A) (k : Z) : result A :=
  let n := Z.of_nat (length l) in
  let i := if (k <? 0)%Z then (n + k)%Z else k in
  if ((0 <=? i)%Z && (i <? n)%Z)%bool
  then match nth_error l (Z.to_nat i) with
       | Some a => Ok a
       | None => Err IndexError
       end
  else Err IndexError.

(** A loop over a list whose body can raise and touches no object. *)
Fixpoint rfor_each {A B} (l : list A) (body : A -> B -> result B) (acc : B)
  : result B :=
  match l with
  | [] => Ok acc
  | a :: l' => (acc' <- body a acc ;; rfor_each l' body acc')%res
  end.

(** [Net] of [mbrl_resources.py]: the deterministic network given by the
    list of its layer sizes. *)
Module MbrlNet.

(** The values torch draws for layer [i]: [init_w i o k], [init_b i o]. *)
Record init_params : Type := {
  init_w : nat -> nat -> nat -> R;
  init_b : nat -> nat -> R
}.

(** [linears]: the [nn.ModuleList] of [nn.Linear] layers, each a weight of
    shape [(out, in)] and a bias row.  [tf] is the nonlinearity, applied
    to every entry.  ([_onGPU] is set to [False] by [__init__] and never
    written again in this file.) *)
Record t : Type := Build {
  linears : list (tensor * tensor);
  n_layers : Z;
  tf : R -> R
}.

(** [F.relu], the default for [tf]. *)
Definition relu : R -> R := Rmax 0.

Definition new_Linear (p : init_params) (i n_i n_o : nat) : tensor * tensor :=
  (tab n_o n_i (init_w p i), tab 1 n_o (fun _ o => init_b p i o)).

(** [__init__]: [n_layers = len(structure) - 1] linear layers, layer [i]
    from [structure[i]] to [structure[i+1]]; both indices are inside
    [structure] for every [i] in [range(n_layers)]. *)
Definition init (structure : list nat) (tf : R -> R) (p : init_params) : t :=
  let n_layers := (Z.of_nat (length structure) - 1)%Z in
  let fc := map (fun i => new_Linear p i (nth i structure 0)
                                     (nth (i + 1) structure 0))
                (range n_layers) in
  {| linears := fc; n_layers := n_layers; tf := tf |}.

(** A call of one [nn.Linear]. *)
Definition Linear_call (l : tensor * tensor) (x : tensor) : result tensor :=
  Net.apply_layer (Net.Linear (fst l) (snd l)) x.

(** The body of the loop of [forward]: [x = self.tf(self.linears[i](x))]. *)
Definition hidden_step (self : t) (i : nat) (x : tensor) : result tensor :=
  (l <- py_index (linears self) (Z.of_nat i) ;;
   y <- Linear_call l x ;;
   Ok (tmap (tf self) y))%res.

(** [forward]: all layers but the last with the nonlinearity, then
    [self.linears[self.n_layers-1]] without. *)
Definition forward (self : t) (x : tensor) : result tensor :=
  (x <- rfor_each (range (n_layers self - 1)) (hidden_step self) x ;;
   l <- py_index (linears self) (n_layers self - 1) ;;
   Linear_call l x)%res.

(** [predict]: [forward] on the input as a 2-D float array, the result
    handed back as an array (the branch for [_onGPU] is never taken). *)
Definition predict (self : t) (x : tensor) : result tensor := forward self x.

End MbrlNet.

(** [Prob_Loss] of [mbrl_resources.py]: the second half of the network
    output is the variance itself.  [torch.log] of a number that is not
    positive is [nan] or [-inf], which real numbers do not have: what is
    stated below about values is stated for positive variances. *)
Module Prob_Loss.

Definition forward (inputs targets : tensor) : result R :=
  (let size := ncols targets in
   let mean := cols_to size inputs in
   let var := cols_from size inputs in
   diff <- sub mean targets ;;
   mid <- div diff var ;;
   let lg := sum (tmap ln var) in
   p <- mm diff (transpose mid) ;;
   Ok (trace p + lg)%R)%res.

End Prob_Loss.

(** [np.average(np.array(preds), axis=1)] for a list of 2-D arrays: the
    list becomes a 3-D array [(len(preds), rows, columns)] and the mean is
    taken over the rows of each member.  An empty list gives a 1-D array,
    which has no axis 1, and arrays of different shapes cannot be stacked:
    both raise a [ValueError] (numpy's [AxisError] is one).  The mean over
    no rows at all is [nan] in numpy; nothing is stated for it below. *)
Definition np_average_axis1 (preds : list tensor) : result tensor :=
  match preds with
  | [] => Err ValueError
  | p0 :: _ =>
      if forallb (fun p => (nrows p =? nrows p0) && (ncols p =? ncols p0)) preds
      then Ok (tab (length preds) (ncols p0)
                 (fun m j =>
                    (sum_n (nrows p0) (fun i => get (nth m preds p0) i j)
                     / INR (nrows p0))%R))
      else Err ValueError
  end.

(** [[f(a) for a in l]] for an [f] that can raise. *)
Fixpoint map_result {A B} (f : A -> result B) (l : list A) : result (list B) :=
  match l with
  | [] => Ok []
  | a :: l' => (b <- f a ;; bs <- map_result f l' ;; Ok (b :: bs))%res
  end.

Module Ensemble.

Record t : Type := Build {
  models : list MbrlNet.t;
  n : Z;
  structure : list nat
}.

(** [__init__]: [n] networks of the same structure, each with weights of
    its own ([p k] for model [k]) and the default nonlinearity. *)
Definition init (structure : list nat) (n : Z)
    (p : nat -> MbrlNet.init_params) : t :=
  {| models := map (fun k => MbrlNet.init structure MbrlNet.relu (p k))
                   (range n);
     n := n;
     structure := structure |}.

(** [predict] *)
Definition predict (self : t) (x : tensor) : result tensor :=
  (predictions <- map_result (fun model => MbrlNet.predict model x)
                             (models self) ;;
   np_average_axis1 predictions)%res.

End Ensemble.

(** [torch.cat((A, B), dim=1)] for two tensors with the same number of
    rows: used to state how the two losses relate. *)
Definition hcat (A B : tensor) : tensor :=
  tab (nrows A) (ncols A + ncols B)
      (fun i j => if j <? ncols A then get A i j else get B i (j - ncols A)).

(** A chain of layer sizes, and the weights of three models over it. *)
Definition structure_5_4_3 : list nat := [5; 4; 3].

Definition mbrl_params (k : nat) : MbrlNet.init_params :=
  {| MbrlNet.init_w := fun i o j => (INR k + INR i + INR o - INR j)%R;
     MbrlNet.init_b := fun i o => INR (k + o) |}.

(** *** The network of [dynamics_model.py] as one of [mbrl_resources.py]

    The list of layer sizes and the weights that make the earlier [Net]
    the same network as [Net(n_in, n_out, cfg, loss_fn)]: layer 0 is
    [dynm_input_lin], layers [1 .. hid_depth] are [dynm_lin_0 ..], the last
    is [dynm_out_lin]. *)
Definition as_structure (n_in n_out : nat) (cfg : Config) : list nat :=
  n_in :: repeat (hid_width cfg) (S (hid_depth cfg)) ++ [n_out].

Definition layer_of (depth i : nat) : Net.layer_name :=
  match i with
  | 0 => Net.dynm_input_lin
  | S j => if j <? depth then Net.dynm_lin_ j else Net.dynm_out_lin
  end.

Definition as_mbrl_params (depth : nat) (p : Net.init_params)
  : MbrlNet.init_params :=
  {| MbrlNet.init_w := fun i => Net.init_w p (layer_of depth i);
     MbrlNet.init_b := fun i => Net.init_b p (layer_of depth i) |}.

(** ** [train_network] of [mbrl_resources.py] *)

Module TrainNetwork.

(** A loss function object: [p.criterion(outputs, targets)]. *)
Definition criterion : Type := tensor -> tensor -> result R.

(** The [logs] object: two lists of errors, and [time], which is [None]
    until the first call fills it in. *)
Record Logs : Type := {
  training_error : list R;
  training_error_epoch : list R;
  time : option (list R)
}.

(** The entries of [parameters] that the function reads; an entry that is
    absent takes the default given to [get].  ([useGPU] only moves the
    model between devices and [verbosity] is not used.) *)
Record Parameters : Type := {
  n_epochs : option Z;          (* parameters.opt.n_epochs *)
  batch_size : option Z;        (* parameters.opt.batch_size *)
  par_criterion : option criterion;
  learning_rate : option R;
  logs : option Logs
}.

(** [d.get(key, default)] *)
Definition get {A} (entry : option A) (default : A) : A :=
  match entry with
  | Some v => v
  | None => default
  end.

(** What the loop can reach: the model, the fields of [logs], torch's
    random generator and the clock read by [timer()]. *)
Record state : Type := St {
  model : MbrlNet.t;
  log_training_error : list R;
  log_training_error_epoch : list R;
  log_time : list R;
  rng : nat;
  clock : nat
}.

(** [PytorchDataset.__getitem__]: row [index] of the inputs and of the
    outputs; an index outside either of them raises [IndexError]. *)
Definition getitem (dataset : tensor * tensor) (index : nat)
  : result DataLoader.sample :=
  if (index <? nrows (fst dataset)) && (index <? nrows (snd dataset))
  then Ok (row (fst dataset) index, row (snd dataset) index)
  else Err IndexError.

Section Loop.

(** Library code: the optimizer ([Adam params lr] after construction,
    [step] for [zero_grad(); loss.backward(); optimizer.step()], which
    returns the updated layers), the order in which the random sampler
    visits [range(n)], and [timer()] as a function of the number of times
    it was read before. *)
Variable OptState : Type.
Variable Adam : list (tensor * tensor) -> R -> OptState.
Variable step : OptState -> criterion -> MbrlNet.t -> tensor -> tensor ->
                OptState * list (tensor * tensor).
Variable shuffle : nat -> nat -> list nat * nat.
Variable timer_at : nat -> R.

(** [timer()] *)
Definition timer : M state R :=
  fun s => Ok (timer_at (clock s),
               St (model s) (log_training_error s)
                  (log_training_error_epoch s) (log_time s)
                  (rng s) (S (clock s))).

Definition set_linears (ls : list (tensor * tensor)) : M state unit :=
  fun s => Ok (tt,
               St (MbrlNet.Build ls (MbrlNet.n_layers (model s))
                                 (MbrlNet.tf (model s)))
                  (log_training_error s) (log_training_error_epoch s)
                  (log_time s) (rng s) (clock s)).

(** [logs.training_error.append(e)] *)
Definition append_training_error (e : R) : M state unit :=
  fun s => Ok (tt,
               St (model s) (log_training_error s ++ [e])
                  (log_training_error_epoch s) (log_time s)
                  (rng s) (clock s)).

(** [logs.training_error_epoch.append(e)] *)
Definition append_training_error_epoch (e : R) : M state unit :=
  fun s => Ok (tt,
               St (model s) (log_training_error s)
                  (log_training_error_epoch s ++ [e]) (log_time s)
                  (rng s) (clock s)).

(** [logs.time.append(t)] *)
Definition append_time (t : R) : M state unit :=
  fun s => Ok (tt,
               St (model s) (log_training_error s)
                  (log_training_error_epoch s) (log_time s ++ [t])
                  (rng s) (clock s)).

Definition set_rng (g : nat) : M state unit :=
  fun s => Ok (tt,
               St (model s) (log_training_error s)
                  (log_training_error_epoch s) (log_time s) g (clock s)).

(** The body of the loop over the batches of the loader; the loader
    fetches the samples of a batch when the loop asks for it. *)
Definition batch_body (dataset : tensor * tensor) (crit : criterion)
    (indices : list nat) (acc : OptState * R) : M state (OptState * R) :=
  (let '(optimizer, epoch_error) := acc in
   samples <- lift (map_result (getitem dataset) indices) ;;
   '(inputs, targets) <- lift (DataLoader.collate samples) ;;
   s <- get_state ;;
   outputs <- lift (MbrlNet.forward (model s) inputs) ;;
   loss <- lift (crit outputs targets) ;;
   let e := loss in
   append_training_error e ;;;
   let epoch_error := (epoch_error + e)%R in
   let '(optimizer', ls) := step optimizer crit (model s) inputs targets in
   set_linears ls ;;;
   t <- timer ;;
   s <- get_state ;;
   last <- lift (py_index (log_time s) (-1)) ;;
   append_time (t - last)%R ;;;
   ret (optimizer', epoch_error))%M.

(** The body of the loop over epochs. *)
Definition epoch_body (dataset : tensor * tensor) (crit : criterion)
    (bs : nat) (epoch : nat) (optimizer : OptState) : M state OptState :=
  (let epoch_error := 0%R in
   s <- get_state ;;
   let '(order, g) := shuffle (rng s) (nrows (fst dataset)) in
   set_rng g ;;;
   '(optimizer', epoch_error) <-
       for_each (DataLoader.chunks (length order) bs order)
                (batch_body dataset crit) (optimizer, epoch_error) ;;
   append_training_error_epoch epoch_error ;;;
   ret optimizer')%M.

(** [train_network(dataset, model, parameters)], from the generator state
    [g] and a clock read [c] times: the model and the logs it returns. *)
Definition train_network (dataset : tensor * tensor) (model : MbrlNet.t)
    (parameters : Parameters) (g c : nat) : result (MbrlNet.t * Logs) :=
  let n_epochs := get (n_epochs parameters) 10%Z in
  let batch_size := get (batch_size parameters) 100%Z in
  let crit := get (par_criterion parameters) Net.mse_loss in
  let learning_rate := get (learning_rate parameters) (1 / 10000)%R in
  let logs :=
    match logs parameters with
    | None => {| training_error := []; training_error_epoch := [];
                 time := None |}
    | Some logs => logs
    end in
  (* torch's optimizers reject an empty list of parameters *)
  if length (MbrlNet.linears model) =? 0 then Err ValueError else
  let optimizer := Adam (MbrlNet.linears model) learning_rate in
  (* loader = DataLoader(dataset, batch_size=..., shuffle=True) *)
  if nrows (fst dataset) =? 0 then Err ValueError
  else if (batch_size <=? 0)%Z then Err ValueError
  else
    let time := match time logs with
                | None => [0%R]
                | Some t => t
                end in
    (* startTime = timer() *)
    let s := St model (training_error logs) (training_error_epoch logs)
                time g (S c) in
    match (_ <- for_each (range n_epochs)
                  (epoch_body dataset crit (Z.to_nat batch_size)) optimizer ;;
           (* endTime = timer() *)
           timer)%M s with
    | Ok (_, s') =>
        Ok (TrainNetwork.model s',
            {| training_error := log_training_error s';
               training_error_epoch := log_training_error_epoch s';
               time := Some (log_time s') |})
    | Err e => Err e
    end.

End Loop.

End TrainNetwork.

(** The sum of a list of numbers. *)
Definition Rsum (l : list R) : R := fold_right Rplus 0%R l.

(** From state [s0] to state [s] the logs have grown by the batch errors
    [bes], the epoch errors [ees] and the times [ts], and the model has
    kept its number of layers and its nonlinearity. *)
Definition grows (s0 s : TrainNetwork.state) (bes ees ts : list R) : Prop :=
  TrainNetwork.log_training_error s
    = TrainNetwork.log_training_error s0 ++ bes /\
  TrainNetwork.log_training_error_epoch s
    = TrainNetwork.log_training_error_epoch s0 ++ ees /\
  TrainNetwork.log_time s = TrainNetwork.log_time s0 ++ ts /\
  MbrlNet.n_layers (TrainNetwork.model s)
    = MbrlNet.n_layers (TrainNetwork.model s0) /\
  MbrlNet.tf (TrainNetwork.model s) = MbrlNet.tf (TrainNetwork.model s0).

(** No entry of [parameters] given; a clock that counts, a sampler that
    visits the samples in order and an optimizer that leaves the weights
    alone. *)
Definition no_parameters : TrainNetwork.Parameters :=
  {| TrainNetwork.n_epochs := None; TrainNetwork.batch_size := None;
     TrainNetwork.par_criterion := None; TrainNetwork.learning_rate := None;
     TrainNetwork.logs := None |}.

Definition mbrl_adam0 (_ : list (tensor * tensor)) (_ : R) : unit := tt.

Definition mbrl_step0 (o : unit) (_ : TrainNetwork.criterion)
    (m : MbrlNet.t) (_ _ : tensor) : unit * list (tensor * tensor) :=
  (o, MbrlNet.linears m).

Definition shuffle_idx0 (g n : nat) : list nat * nat := (seq 0 n, S g).

Definition timer0 (c : nat) : R := INR c.

(** ** Ensemble training, member by member

    What the folds of [train] are compared with: members [0 .. E-1]
    trained one after the other, member [i] by a call of its [optimize] on
    the rows [rows_of i] of the inputs and of the targets. *)

(** The rows held out from member [i] of [E] over [N] samples: the [i]-th
    block of consecutive indices.  The rows member [i] is trained on: all
    the others, in increasing order. *)
Definition held_out_rows (E N i : nat) : list nat :=
  seq (fold_start E N i) (fold_size E N i).

Definition train_rows (E N i : nat) : list nat :=
  filter (fun s => negb (mem s (held_out_rows E N i))) (seq 0 N).

(** The same rows, written as the block before the held-out one followed
    by the block after it. *)
Definition rows_around (E N i : nat) : list nat :=
  seq 0 (fold_start E N i)
  ++ seq (fold_start E N i + fold_size E N i)
         (N - (fold_start E N i + fold_size E N i)).

Section TrainOnRows.

Variable OptState : Type.
Variable Adam : Net.Sequential -> R -> OptState.
Variable step : OptState -> Net.loss -> Net.Sequential -> tensor -> tensor ->
                OptState * Net.Sequential.
Variable shuffle : nat -> list DataLoader.sample -> list DataLoader.sample * nat.

(** Member [i] trained on the rows [rows_of i]; the errors it returns are
    appended to those of the members before it. *)
Definition train_on_rows (dataset : tensor * tensor) (cfg : Config)
    (rows_of : nat -> list nat) (i : nat)
    (acc : list (list R) * list (list R))
  : M DynamicsModel.state (list (list R) * list (list R)) :=
  (let '(acctrain_l, acctest_l) := acc in
   X <- lift (take_rows (fst dataset) (rows_of i)) ;;
   Y <- lift (take_rows (snd dataset) (rows_of i)) ;;
   '(train_e, test_e) <-
       DynamicsModel.on_net i
         (Net.optimize OptState Adam step shuffle (X, Y) cfg) ;;
   ret (acctrain_l ++ [train_e], acctest_l ++ [test_e]))%M.

(** Members [0 .. E-1] in turn, and the errors recorded in the model. *)
Definition train_members_on (dataset : tensor * tensor) (cfg : Config)
    (E : nat) (rows_of : nat -> list nat)
  : M DynamicsModel.state (list (list R) * list (list R)) :=
  ('(acctrain_l, acctest_l) <-
       for_each (seq 0 E) (train_on_rows dataset cfg rows_of) ([], []) ;;
   DynamicsModel.set_acc acctrain_l acctest_l ;;;
   ret (acctrain_l, acctest_l))%M.

End TrainOnRows.

(** *** Configurations with hyperparameters outside their range *)





(** An ensemble of two members, and two samples for it. *)
Definition cfg_ensemble_of_two : Config :=
  {| ensemble := true; cfg_traj := false; cfg_prob := false;
     cfg_E := 2; hid_width := 2; hid_depth := 1;
     lr := 0.001%R; batch := 2%Z; split := (4 # 5)%Q; epochs := 1%Z;
     state_size := 3; action_size := 2; param_size := 1 |}.

Definition data2 : tensor * tensor :=
  (tab 2 5 (fun i j => (INR i + INR j)%R), tab 2 3 (fun i j => INR (i * j))).

(** *** Basic facts about tabulation *)

Section TensorFacts.

Lemma nth_map_seq {A} (f : nat -> A) (d : A) (n i : nat) :
  i < n -> nth i (map f (seq 0 n)) d = f i.
Proof.
  intros Hi.
  rewrite (nth_indep _ d (f 0)) by (rewrite length_map, length_seq; exact Hi).
  rewrite (map_nth f (seq 0 n) 0 i), seq_nth by exact Hi.
  reflexivity.
Qed.

Lemma get_tab (r c : nat) (f : nat -> nat -> R) (i j : nat) :
  i < r -> j < c -> get (tab r c f) i j = f i j.
Proof.
  intros Hi Hj. unfold get, tab; simpl.
  rewrite (nth_map_seq (fun i => map (fun j => f i j) (seq 0 c)) [] r i Hi).
  apply (nth_map_seq (fun j => f i j) 0%R c j Hj).
Qed.

Lemma wf_tab (r c : nat) (f : nat -> nat -> R) : wf (tab r c f).
Proof.
  unfold wf, tab; simpl. split.
  - now rewrite length_map, length_seq.
  - apply Forall_forall. intros row Hin.
    apply in_map_iff in Hin. destruct Hin as [i [<- _]].
    now rewrite length_map, length_seq.
Qed.

Lemma tab_ext (r c : nat) (f g : nat -> nat -> R) :
  (forall i j, i < r -> j < c -> f i j = g i j) -> tab r c f = tab r c g.
Proof.
  intros H. unfold tab. f_equal.
  apply map_ext_in. intros i Hi. apply in_seq in Hi.
  apply map_ext_in. intros j Hj. apply in_seq in Hj.
  apply H; lia.
Qed.

(** A well-formed tensor is the tabulation of its own entries. *)
Lemma tab_get (A : tensor) :
  wf A -> tab (nrows A) (ncols A) (get A) = A.
Proof.
  destruct A as [r c d]. unfold wf, tab, get; simpl. intros [Hr Hc].
  f_equal. subst r.
  apply nth_ext with (d := []) (d' := []).
  - now rewrite length_map, length_seq.
  - intros i Hi. rewrite length_map, length_seq in Hi.
    rewrite (nth_map_seq (fun i => map (fun j => nth j (nth i d []) 0%R) (seq 0 c)) [] _ i Hi).
    assert (Hlen : length (nth i d []) = c).
    { rewrite Forall_forall in Hc. apply Hc. now apply nth_In. }
    apply nth_ext with (d := 0%R) (d' := 0%R).
    + now rewrite length_map, length_seq.
    + intros j Hj. rewrite length_map, length_seq in Hj.
      apply (nth_map_seq (fun j => nth j (nth i d []) 0%R) 0%R c j Hj).
Qed.

Lemma sum_n_ext (n : nat) (f g : nat -> R) :
  (forall k, k < n -> f k = g k) -> sum_n n f = sum_n n g.
Proof.
  unfold sum_n. intros H.
  assert (Hin : forall k, In k (seq 0 n) -> f k = g k)
    by (intros k Hk; apply in_seq in Hk; apply H; lia).
  induction (seq 0 n) as [|k l IH]; simpl; [reflexivity|].
  rewrite IH by (intros; apply Hin; now right).
  rewrite Hin by now left. reflexivity.
Qed.

Lemma sum_n_zero (n : nat) : sum_n n (fun _ => 0%R) = 0%R.
Proof.
  unfold sum_n. induction (seq 0 n) as [|k l IH]; simpl; [reflexivity|].
  rewrite IH. lra.
Qed.

End TensorFacts.

(** *** Broadcasting at the shapes the model uses *)

Section BroadcastFacts.

Lemma bidx_lt (n i : nat) : i < n -> bidx n i = i.
Proof.
  unfold bidx. intros Hi.
  destruct (Nat.eqb_spec n 1) as [->|_]; [lia | reflexivity].
Qed.

Lemma bdim_same (n : nat) : bdim n n = Ok n.
Proof. unfold bdim. now rewrite Nat.eqb_refl. Qed.

Lemma bdim_one_l (n : nat) : bdim 1 n = Ok n.
Proof.
  unfold bdim. destruct (Nat.eqb_spec 1 n) as [<-|_]; reflexivity.
Qed.

Lemma bdim_one_r (n : nat) : bdim n 1 = Ok n.
Proof.
  unfold bdim. destruct (Nat.eqb_spec n 1) as [->|_]; reflexivity.
Qed.

(** Same shape on both sides: plain elementwise operation. *)
Lemma bcast_same (op : R -> R -> R) (A B : tensor) :
  nrows A = nrows B -> ncols A = ncols B ->
  bcast op A B =
  Ok (tab (nrows A) (ncols A) (fun i j => op (get A i j) (get B i j))).
Proof.
  intros Hr Hc. unfold bcast. rewrite <- Hr, <- Hc, !bdim_same. simpl.
  f_equal. apply tab_ext. intros i j Hi Hj.
  now rewrite !bidx_lt.
Qed.

(** A [(1, c)] row on the left is repeated over the rows of the right. *)
Lemma bcast_row_l (op : R -> R -> R) (A B : tensor) :
  nrows A = 1 -> ncols A = ncols B ->
  bcast op A B =
  Ok (tab (nrows B) (ncols B) (fun i j => op (get A 0 j) (get B i j))).
Proof.
  intros Hr Hc. unfold bcast. rewrite Hr, Hc, bdim_one_l, bdim_same. simpl.
  f_equal. apply tab_ext. intros i j Hi Hj.
  now rewrite !(bidx_lt _ i Hi), !(bidx_lt _ j Hj).
Qed.

(** A [(1, c)] row on the right is repeated over the rows of the left. *)
Lemma bcast_row_r (op : R -> R -> R) (A B : tensor) :
  nrows B = 1 -> ncols A = ncols B ->
  bcast op A B =
  Ok (tab (nrows A) (ncols A) (fun i j => op (get A i j) (get B 0 j))).
Proof.
  intros Hr Hc. unfold bcast. rewrite Hr, <- Hc, bdim_one_r, bdim_same. simpl.
  f_equal. apply tab_ext. intros i j Hi Hj.
  now rewrite !(bidx_lt _ i Hi), !(bidx_lt _ j Hj).
Qed.

Lemma tmap_tab (f : R -> R) (r c : nat) (g : nat -> nat -> R) :
  tmap f (tab r c g) = tab r c (fun i j => f (g i j)).
Proof.
  unfold tmap. simpl. apply tab_ext. intros i j Hi Hj.
  now rewrite get_tab.
Qed.

End BroadcastFacts.

(** ** Facts about the scalar soft clamp *)

Section SoftClamp.

Local Open Scope R_scope.

Lemma softplus_raw_elem (x : R) :
  ln (1 + exp (x * ProbLoss.B)) / ProbLoss.B = softplus x.
Proof.
  unfold ProbLoss.B, softplus. rewrite Rmult_1_r. field.
Qed.

Lemma softplus_pos (x : R) : 0 < softplus x.
Proof.
  unfold softplus. rewrite <- ln_1.
  apply ln_increasing; [lra|]. pose proof (exp_pos x). lra.
Qed.

Lemma softplus_increasing (x y : R) : x < y -> softplus x < softplus y.
Proof.
  intros H. unfold softplus.
  pose proof (exp_pos x). pose proof (exp_increasing x y H).
  apply ln_increasing; lra.
Qed.

(** [m + softplus (M - m) = M + softplus (m - M) = log (exp m + exp M)] *)
Lemma softplus_swap (M m : R) : m + softplus (M - m) = M + softplus (m - M).
Proof.
  unfold softplus.
  assert (H : 1 + exp (M - m) = exp (M - m) * (1 + exp (m - M))).
  { rewrite Rmult_plus_distr_l, Rmult_1_r, <- exp_plus.
    replace (M - m + (m - M)) with 0 by lra. rewrite exp_0. lra. }
  rewrite H, ln_mult, ln_exp.
  - lra.
  - apply exp_pos.
  - pose proof (exp_pos (m - M)). lra.
Qed.

Lemma soft_above_lt (M r : R) : soft_above M r < M.
Proof. unfold soft_above. pose proof (softplus_pos (M - r)). lra. Qed.

Lemma soft_below_gt (m l : R) : m < soft_below m l.
Proof. unfold soft_below. pose proof (softplus_pos (l - m)). lra. Qed.

Lemma soft_clamp_upper (M m r : R) :
  soft_clamp M m r < M + softplus (m - M).
Proof.
  unfold soft_clamp, soft_below. rewrite <- (softplus_swap M m).
  apply Rplus_lt_compat_l, softplus_increasing.
  pose proof (soft_above_lt M r). lra.
Qed.

(** The bounds that hold with equality in the limit, and so also for the
    rounded values of the source. *)
Lemma softplus_nonneg (x : R) : 0 <= softplus x.
Proof. apply Rlt_le, softplus_pos. Qed.

Lemma softplus_ge (x : R) : x <= softplus x.
Proof.
  unfold softplus. rewrite <- (ln_exp x) at 1.
  pose proof (exp_pos x). apply Rlt_le, ln_increasing; lra.
Qed.

Lemma softplus_monotone (x y : R) : x <= y -> softplus x <= softplus y.
Proof.
  intros [H | ->]; [apply Rlt_le, softplus_increasing, H | apply Rle_refl].
Qed.

Lemma soft_clamp_lower_le (M m r : R) : m <= soft_clamp M m r.
Proof. apply Rlt_le, soft_below_gt. Qed.

Lemma soft_clamp_upper_le (M m r : R) :
  soft_clamp M m r <= M + softplus (m - M).
Proof. apply Rlt_le, soft_clamp_upper. Qed.

Lemma soft_clamp_monotone (M m r r' : R) :
  r <= r' -> soft_clamp M m r <= soft_clamp M m r'.
Proof.
  intros H. unfold soft_clamp, soft_below, soft_above.
  apply Rplus_le_compat_l, softplus_monotone.
  pose proof (softplus_monotone (M - r') (M - r) ltac:(lra)). lra.
Qed.

(** The second cap pushes the value above [M] as soon as the raw value is
    large enough. *)
Lemma soft_clamp_exceeds (M m r : R) :
  exp (M - r) * (exp (M - m) - 1) < 1 -> M < soft_clamp M m r.
Proof.
  intros H. unfold soft_clamp, soft_below, soft_above, softplus.
  set (a := exp (M - r)) in *. set (D := exp (M - m)) in *.
  assert (Ha : 0 < a) by apply exp_pos.
  assert (HD : 0 < D) by apply exp_pos.
  assert (He : exp (M - ln (1 + a) - m) = D / (1 + a)).
  { replace (M - ln (1 + a) - m) with ((M - m) + - ln (1 + a)) by lra.
    rewrite exp_plus, exp_Ropp, exp_ln by lra. reflexivity. }
  rewrite He.
  assert (Hq : D < 1 + D / (1 + a)).
  { assert (Hm : D * (1 + a) < (1 + D / (1 + a)) * (1 + a)).
    { replace ((1 + D / (1 + a)) * (1 + a)) with (1 + a + D) by (field; lra).
      nra. }
    apply Rmult_lt_reg_r in Hm; lra. }
  assert (Hl : M - m < ln (1 + D / (1 + a))).
  { rewrite <- (ln_exp (M - m)). fold D. apply ln_increasing; lra. }
  lra.
Qed.

End SoftClamp.
(** ** ProbLoss.forward *)

Section ProbLossFacts.

Import ProbLoss.

Lemma bcast_row_l_tab (op : R -> R -> R) (A : tensor) (r c : nat)
      (g : nat -> nat -> R) :
  nrows A = 1 -> ncols A = c ->
  bcast op A (tab r c g) = Ok (tab r c (fun i j => op (get A 0 j) (g i j))).
Proof.
  intros Hr Hc. rewrite bcast_row_l by (simpl; assumption). simpl.
  f_equal. apply tab_ext. intros i j Hi Hj. now rewrite get_tab.
Qed.

Lemma bcast_row_r_tab (op : R -> R -> R) (B : tensor) (r c : nat)
      (g : nat -> nat -> R) :
  nrows B = 1 -> ncols B = c ->
  bcast op (tab r c g) B = Ok (tab r c (fun i j => op (g i j) (get B 0 j))).
Proof.
  intros Hr Hc. rewrite bcast_row_r by (simpl; congruence). simpl.
  f_equal. apply tab_ext. intros i j Hi Hj. now rewrite get_tab.
Qed.

Lemma bcast_same_tab (op : R -> R -> R) (r c : nat) (f g : nat -> nat -> R) :
  bcast op (tab r c f) (tab r c g) = Ok (tab r c (fun i j => op (f i j) (g i j))).
Proof.
  rewrite bcast_same by reflexivity. simpl.
  f_equal. apply tab_ext. intros i j Hi Hj. now rewrite !get_tab.
Qed.

Lemma softplus_raw_tab (r c : nat) (g : nat -> nat -> R) :
  softplus_raw (tab r c g) = tab r c (fun i j => softplus (g i j)).
Proof.
  unfold softplus_raw. rewrite tmap_tab.
  apply tab_ext. intros. apply softplus_raw_elem.
Qed.

Lemma wf_loss_shapes (self : t) :
  wf_loss self ->
  nrows (max_logvar self) = 1 /\ ncols (max_logvar self) = size self /\
  nrows (min_logvar self) = 1 /\ ncols (min_logvar self) = size self.
Proof.
  unfold wf_loss, shape. intros [H1 H2].
  injection H1 as A1 A2. injection H2 as B1 B2.
  repeat split; assumption.
Qed.

(** The first cap, entry by entry. *)
Lemma cap_above_eq (self : t) (r : nat) (g : nat -> nat -> R) :
  wf_loss self ->
  cap_above self (tab r (size self) g) =
  Ok (tab r (size self)
        (fun i j => soft_above (get (max_logvar self) 0 j) (g i j))).
Proof.
  intros Hwf. destruct (wf_loss_shapes self Hwf) as (HMr & HMc & _ & _).
  unfold cap_above, sub.
  rewrite bcast_row_l_tab by assumption. simpl.
  rewrite softplus_raw_tab.
  now rewrite bcast_row_l_tab by assumption.
Qed.

(** The second cap, entry by entry. *)
Lemma cap_below_eq (self : t) (r : nat) (g : nat -> nat -> R) :
  wf_loss self ->
  cap_below self (tab r (size self) g) =
  Ok (tab r (size self)
        (fun i j => soft_below (get (min_logvar self) 0 j) (g i j))).
Proof.
  intros Hwf. destruct (wf_loss_shapes self Hwf) as (_ & _ & Hmr & Hmc).
  unfold cap_below, sub, add.
  rewrite bcast_row_r_tab by assumption. simpl.
  rewrite softplus_raw_tab.
  now rewrite bcast_row_l_tab by assumption.
Qed.

Lemma cols_from_size (self : t) (inputs : tensor) :
  ncols inputs = 2 * size self ->
  cols_from (size self) inputs =
  tab (nrows inputs) (size self) (fun i j => get inputs i (size self + j)).
Proof.
  intros Hc. unfold cols_from. rewrite Hc.
  replace (2 * size self - size self) with (size self) by lia.
  reflexivity.
Qed.

(** Both caps, entry by entry: on a network output with [2 * size]
    columns no shape error arises and entry [(i, j)] of [logvar] is the
    soft clamp of the raw entry [(i, size + j)]. *)
Lemma capped_logvar_eq (self : t) (inputs : tensor) :
  wf_loss self -> ncols inputs = 2 * size self ->
  capped_logvar self inputs =
  Ok (tab (nrows inputs) (size self)
        (fun i j => soft_clamp (get (max_logvar self) 0 j)
                               (get (min_logvar self) 0 j)
                               (get inputs i (size self + j)))).
Proof.
  intros Hwf Hc. unfold capped_logvar.
  rewrite (cols_from_size _ _ Hc), (cap_above_eq _ _ _ Hwf). simpl.
  now rewrite (cap_below_eq _ _ _ Hwf).
Qed.

Lemma wf_loss_init (sz : nat) : wf_loss (init sz).
Proof. split; reflexivity. Qed.

Lemma sum_n_all_zero (n : nat) (f : nat -> R) :
  (forall k, k < n -> f k = 0%R) -> sum_n n f = 0%R.
Proof.
  intros H. rewrite (sum_n_ext n f (fun _ => 0%R) H). apply sum_n_zero.
Qed.

(** [C1] (as the code has it).  On every network output with [2 * size]
    columns the two caps succeed and give one log-variance per row and
    state coordinate, with
    [min_logvar <= logvar <= max_logvar + softplus (min_logvar - max_logvar)]
    coordinate by coordinate: the lower bound of the claim stands, and the
    upper bound is [max_logvar] plus what the second cap adds back. *)
Theorem capped_logvar_bounds (self : t) (inputs : tensor) :
  wf_loss self -> ncols inputs = 2 * size self ->
  exists logvar,
    capped_logvar self inputs = Ok logvar /\
    shape logvar = (nrows inputs, size self) /\
    forall i j, i < nrows inputs -> j < size self ->
      (get (min_logvar self) 0 j <= get logvar i j <=
         get (max_logvar self) 0 j
         + softplus (get (min_logvar self) 0 j - get (max_logvar self) 0 j))%R.
Proof.
  intros Hwf Hc.
  eexists. split; [|split].
  - apply (capped_logvar_eq _ _ Hwf Hc).
  - reflexivity.
  - intros i j Hi Hj. rewrite !get_tab by assumption.
    split; [apply soft_clamp_lower_le | apply soft_clamp_upper_le].
Qed.

Lemma capped_logvar_bounds_witness :
  exists logvar,
    capped_logvar (init 1) raw_high = Ok logvar /\
    shape logvar = (1, 1) /\
    forall i j, i < 1 -> j < 1 ->
      (get (min_logvar (init 1)) 0 j <= get logvar i j <=
         get (max_logvar (init 1)) 0 j
         + softplus (get (min_logvar (init 1)) 0 j
                     - get (max_logvar (init 1)) 0 j))%R.
Proof.
  apply (capped_logvar_bounds (init 1) raw_high).
  - apply wf_loss_init.
  - reflexivity.
Defined.

(** [C1] fails as stated: with the initial bounds, a raw log-variance of
    10 ends above [max_logvar = 1] after the second cap. *)
Lemma capped_logvar_exceeds_max :
  exists logvar,
    capped_logvar (init 1) raw_high = Ok logvar /\
    ~ (get (min_logvar (init 1)) 0 0 <= get logvar 0 0
       <= get (max_logvar (init 1)) 0 0)%R.
Proof.
  eexists. split.
  - apply (capped_logvar_eq _ raw_high (wf_loss_init 1)). reflexivity.
  - rewrite get_tab by (simpl; lia).
    intros [_ Hle]. revert Hle. apply Rlt_not_le.
    unfold init, max_logvar, min_logvar, size. rewrite !get_tab by lia.
    replace (get raw_high 0 (1 + 0)) with 10%R by reflexivity.
    replace (1 * 1)%R with 1%R by lra.
    replace (-1 * 1)%R with (-1)%R by lra.
    apply soft_clamp_exceeds.
    replace (1 - 10)%R with (-9)%R by lra.
    replace (1 - -1)%R with 2%R by lra.
    assert (H7 : (exp (-9) * exp 2 < 1)%R).
    { rewrite <- exp_plus, <- exp_0. apply exp_increasing. lra. }
    pose proof (exp_pos (-9)). nra.
Qed.

(** [C6].  When the target equals the predicted mean and the capped
    variance is 1 in every coordinate, the loss is exactly 0: the [trace]
    term and the sum of the logarithms both vanish. *)
Theorem forward_zero_loss (self : t) (inputs targets logvar : tensor) :
  wf_loss self -> ncols inputs = 2 * size self ->
  capped_logvar self inputs = Ok logvar ->
  (forall i j, i < nrows inputs -> j < size self ->
               exp (get logvar i j) = 1%R) ->
  targets = cols_to (size self) inputs ->
  forward self inputs targets = Ok 0%R.
Proof.
  intros Hwf Hc Hlv Hvar ->.
  unfold forward. rewrite Hlv. simpl.
  rewrite (capped_logvar_eq _ _ Hwf Hc) in Hlv. injection Hlv as <-.
  unfold sub, div, cols_to. rewrite Hc.
  replace (Nat.min (size self) (2 * size self)) with (size self) by lia.
  rewrite bcast_same_tab. simpl.
  rewrite tmap_tab, bcast_same_tab. simpl.
  unfold mm, transpose. simpl. rewrite Nat.eqb_refl. simpl.
  f_equal. rewrite tmap_tab.
  match goal with
  | |- (?a + ?b)%R = _ =>
      assert (Ha : a = 0%R); [| assert (Hb : b = 0%R); [| rewrite Ha, Hb; lra]]
  end.
  - (* the trace term: every product has a zero factor *)
    unfold trace. simpl. rewrite Nat.min_id.
    apply sum_n_all_zero. intros i Hi. rewrite get_tab by assumption.
    apply sum_n_all_zero. intros k Hk. rewrite get_tab by assumption. lra.
  - (* the normalisation term: log 1 = 0 in every coordinate *)
    unfold sum. simpl.
    apply sum_n_all_zero. intros i Hi.
    apply sum_n_all_zero. intros j Hj. rewrite get_tab by assumption.
    specialize (Hvar i j Hi Hj). rewrite get_tab in Hvar by assumption.
    rewrite Hvar. apply ln_1.
Qed.

Lemma soft_clamp_raw_unit : soft_clamp 1 (-1) raw_unit = 0%R.
Proof.
  unfold soft_clamp, soft_below, soft_above, softplus, raw_unit.
  assert (He : (1 < exp 1)%R).
  { rewrite <- exp_0 at 1. apply exp_increasing. lra. }
  assert (H2 : exp 2 = (exp 1 * exp 1)%R).
  { rewrite <- exp_plus. f_equal; lra. }
  assert (Hq : (0 < exp 2 / (exp 1 - 1) - 1)%R).
  { replace (exp 2 / (exp 1 - 1) - 1)%R
      with ((exp 2 - exp 1 + 1) / (exp 1 - 1))%R by (field; lra).
    apply Rdiv_lt_0_compat; nra. }
  replace (1 - (1 - ln (exp 2 / (exp 1 - 1) - 1)))%R
    with (ln (exp 2 / (exp 1 - 1) - 1)) by lra.
  rewrite (exp_ln _ Hq).
  replace (1 + (exp 2 / (exp 1 - 1) - 1))%R
    with (exp 2 * / (exp 1 - 1))%R by (unfold Rdiv; lra).
  rewrite ln_mult, ln_Rinv, ln_exp;
    [| lra | apply exp_pos | apply Rinv_0_lt_compat; lra].
  replace (1 - (2 + - ln (exp 1 - 1)) - -1)%R with (ln (exp 1 - 1)) by lra.
  rewrite exp_ln by lra.
  replace (1 + (exp 1 - 1))%R with (exp 1) by lra.
  rewrite ln_exp. lra.
Qed.

Lemma forward_zero_loss_witness :
  forward (init 1) unit_var_batch (cols_to 1 unit_var_batch) = Ok 0%R.
Proof.
  apply (forward_zero_loss (init 1) unit_var_batch (cols_to 1 unit_var_batch)
           (tab 2 1 (fun i j =>
              soft_clamp (get (max_logvar (init 1)) 0 j)
                         (get (min_logvar (init 1)) 0 j)
                         (get unit_var_batch i (1 + j))))).
  - apply wf_loss_init.
  - reflexivity.
  - apply (capped_logvar_eq (init 1) unit_var_batch (wf_loss_init 1)).
    reflexivity.
  - intros i j Hi Hj. rewrite get_tab by assumption.
    simpl in Hi, Hj. assert (j = 0) as -> by lia.
    assert (Hraw : get unit_var_batch i (1 + 0) = raw_unit).
    { destruct i as [|[|i]]; [reflexivity | reflexivity | lia]. }
    rewrite Hraw. unfold init, max_logvar, min_logvar.
    rewrite !get_tab by lia.
    replace (1 * 1)%R with 1%R by lra.
    replace (-1 * 1)%R with (-1)%R by lra.
    rewrite soft_clamp_raw_unit. apply exp_0.
  - reflexivity.
Defined.

End ProbLossFacts.
(** ** Shapes through the network *)

Section NetShapes.

Lemma seq_io_app (f g : Net.Sequential) (a b c : nat) :
  seq_io f a b -> seq_io g b c -> seq_io (f ++ g) a c.
Proof.
  revert a. induction f as [|[name l] f IH]; simpl; intros a Hf Hg.
  - now subst.
  - destruct Hf as [d [Hl Hf]]. exists d. split; [exact Hl | now apply IH].
Qed.

Lemma new_Linear_io (p : Net.init_params) (name : Net.layer_name) (a b : nat) :
  layer_io (snd (Net.new_Linear p name a b)) a b.
Proof. simpl. repeat split. Qed.

Lemma hidden_io (p : Net.init_params) (w : nat) (ds : list nat) :
  seq_io (flat_map (fun d => [Net.new_Linear p (Net.dynm_lin_ d) w w;
                              (Net.dynm_act_ d, Net.ReLU)]) ds) w w.
Proof.
  induction ds as [|d ds IH]; simpl; [reflexivity|].
  exists w. split; [repeat split|].
  exists w. split; [reflexivity | exact IH].
Qed.

(** The layers [__init__] builds chain from [n_in] to [n_out]. *)
Lemma init_io (n_in n_out : nat) (cfg : Config) (l : Net.loss)
      (p : Net.init_params) :
  seq_io (Net.features (Net.init n_in n_out cfg l p)) n_in n_out.
Proof.
  unfold Net.init. cbn [Net.features].
  apply seq_io_app with (b := hid_width cfg).
  - exists (hid_width cfg). split; [repeat split|].
    exists (hid_width cfg). split; reflexivity.
  - apply seq_io_app with (b := hid_width cfg).
    + apply hidden_io.
    + exists n_out. split; [repeat split | reflexivity].
Qed.

Lemma apply_layer_shape (l : Net.layer) (a b : nat) (x : tensor) :
  layer_io l a b -> ncols x = a ->
  exists y, Net.apply_layer l x = Ok y /\ nrows y = nrows x /\ ncols y = b.
Proof.
  destruct l as [weight bias|]; simpl.
  - intros (Hwc & Hwr & Hbr & Hbc) Hx.
    unfold mm, transpose. cbn [nrows ncols].
    rewrite Hx, Hwc, Nat.eqb_refl. simpl.
    unfold add, bcast. cbn [nrows ncols].
    rewrite Hbr, Hbc, Hwr, bdim_one_r, bdim_same. simpl.
    eexists. split; [reflexivity|]. split; reflexivity.
  - intros <- Hx. eexists. split; [reflexivity|]. split; [reflexivity|].
    exact Hx.
Qed.

(** A pass through a well-chained stack succeeds and keeps the number of
    rows. *)
Lemma apply_Sequential_shape (f : Net.Sequential) (a b : nat) (x : tensor) :
  seq_io f a b -> ncols x = a ->
  exists y, Net.apply_Sequential f x = Ok y /\
            nrows y = nrows x /\ ncols y = b.
Proof.
  revert a x. induction f as [|[name l] f IH]; simpl; intros a x Hf Hx.
  - exists x. subst. auto.
  - destruct Hf as [c [Hl Hf]].
    destruct (apply_layer_shape l a c x Hl Hx) as (y & -> & Hr & Hc).
    simpl. destruct (IH c y Hf Hc) as (z & -> & Hzr & Hzc).
    exists z. split; [reflexivity|]. split; congruence.
Qed.

End NetShapes.

(** ** DynamicsModel.__init__ *)

Section Construction.

(** [C4].  At construction, [n_in] is [state_size + action_size] in
    one-step mode and [state_size + param_size + 1] in trajectory mode;
    [n_out] is [state_size] when deterministic and [2 * state_size] when
    probabilistic, whatever the ensemble flag; [E] members are built, each
    with these sizes and with layers chaining from [n_in] to [n_out]. *)
Theorem init_dimensions (cfg : Config) (p : nat -> Net.init_params) :
  let m := DynamicsModel.init cfg p in
  DynamicsModel.n_in m =
    (if cfg_traj cfg then state_size cfg + param_size cfg + 1
     else state_size cfg + action_size cfg) /\
  DynamicsModel.n_out m =
    (if cfg_prob cfg then 2 * state_size cfg else state_size cfg) /\
  DynamicsModel.E m = (if ensemble cfg then cfg_E cfg else 1) /\
  length (DynamicsModel.nets m) = DynamicsModel.E m /\
  Forall (fun n => Net.n_in n = DynamicsModel.n_in m /\
                   Net.n_out n = DynamicsModel.n_out m /\
                   seq_io (Net.features n)
                          (DynamicsModel.n_in m) (DynamicsModel.n_out m))
         (DynamicsModel.nets m).
Proof.
  unfold DynamicsModel.init.
  destruct (cfg_prob cfg); cbn zeta; cbn [DynamicsModel.n_in
    DynamicsModel.n_out DynamicsModel.E DynamicsModel.nets];
    (split; [reflexivity|]); (split; [lia|]); (split; [reflexivity|]);
    (split; [now rewrite length_map, length_seq|]);
    apply Forall_forall; intros n Hn; apply in_map_iff in Hn;
    destruct Hn as [i [<- _]];
    (split; [reflexivity|]); (split; [reflexivity|]); apply init_io.
Qed.

End Construction.

(** ** DynamicsModel.predict leaves the model as it was *)

Section PredictState.

Lemma set_nth_same {A} (l : list A) (i : nat) (v : A) :
  nth_error l i = Some v -> set_nth i v l = l.
Proof.
  revert i. induction l as [|a l IH]; intros [|i]; simpl; intros H;
    try discriminate.
  - now injection H as ->.
  - now rewrite IH.
Qed.

Lemma forward_state (x y : tensor) (s s' : Net.state) :
  Net.forward x s = Ok (y, s') -> s' = s.
Proof.
  unfold Net.forward, bind, get_state, lift.
  destruct (Net.apply_Sequential (Net.features (Net.self s)) x);
    intros H; [now injection H as _ <- | discriminate].
Qed.

Lemma on_net_forward_state (i : nat) (x y : tensor)
      (s s' : DynamicsModel.state) :
  DynamicsModel.on_net i (Net.forward x) s = Ok (y, s') -> s' = s.
Proof.
  unfold DynamicsModel.on_net.
  destruct (nth_error _ i) as [n|] eqn:Hn; [|discriminate].
  destruct (Net.forward x _) as [[y0 ns]|e] eqn:Hf; [|discriminate].
  apply forward_state in Hf. subst ns. cbn [Net.self Net.rng].
  intros H. injection H as _ <-.
  unfold DynamicsModel.set_net. rewrite (set_nth_same _ _ _ Hn).
  destruct s as [[] g]. reflexivity.
Qed.

Lemma predict_member_state (x p p' : tensor) (n : nat)
      (s s' : DynamicsModel.state) :
  DynamicsModel.predict_member x n p s = Ok (p', s') -> s' = s.
Proof.
  unfold DynamicsModel.predict_member, bind, get_state, lift.
  destruct (DynamicsModel.on_net n (Net.forward x) s) as [[y s1]|e] eqn:Hy;
    [|discriminate].
  apply on_net_forward_state in Hy. subst s1.
  destruct (iadd p _); intros H; [now injection H as _ <- | discriminate].
Qed.

Lemma for_each_state {S A B} (body : A -> B -> M S B) :
  (forall a b s r s', body a b s = Ok (r, s') -> s' = s) ->
  forall l acc s r s', for_each l body acc s = Ok (r, s') -> s' = s.
Proof.
  intros Hbody. induction l as [|a l IH]; simpl; intros acc s r s'.
  - unfold ret. intros H. now injection H as _ <-.
  - unfold bind. destruct (body a acc s) as [[b s1]|e] eqn:Hb; [|discriminate].
    apply Hbody in Hb. subst s1. apply IH.
Qed.

Lemma predict_state (x y : tensor) (s s' : DynamicsModel.state) :
  DynamicsModel.predict x s = Ok (y, s') -> s' = s.
Proof.
  unfold DynamicsModel.predict, bind at 1, get_state at 1. unfold bind at 1.
  destruct (for_each _ _ _ s) as [[p s1]|e] eqn:Hloop; [|discriminate].
  apply (for_each_state (DynamicsModel.predict_member x)) in Hloop.
  - subst s1. unfold bind, get_state.
    destruct (DynamicsModel.traj (DynamicsModel.self s)).
    + unfold ret. intros H. now injection H as _ <-.
    + unfold lift. destruct (add _ _); intros H;
        [now injection H as _ <- | discriminate].
  - intros a b s0 r s0'. apply predict_member_state.
Qed.

(** [C9].  A forward pass returns the net as it found it, and so does
    [predict] with the whole model (weights, loss bounds, generator
    state); a second call with the same input then returns the same
    output, and two calls in a row return the same output twice. *)
Theorem predict_idempotent (x y : tensor) (s s' : DynamicsModel.state) :
  DynamicsModel.predict x s = Ok (y, s') ->
  s' = s /\
  DynamicsModel.predict x s' = Ok (y, s') /\
  (y1 <- DynamicsModel.predict x ;;
   y2 <- DynamicsModel.predict x ;; ret (y1, y2))%M s = Ok ((y, y), s) /\
  (forall i yi si,
     DynamicsModel.on_net i (Net.forward x) s = Ok (yi, si) ->
     si = s /\ DynamicsModel.on_net i (Net.forward x) si = Ok (yi, si)).
Proof.
  intros H. pose proof (predict_state x y s s' H) as ->.
  split; [reflexivity|]. split; [exact H|]. split.
  - unfold bind. rewrite H, H. reflexivity.
  - intros i yi si Hi. pose proof (on_net_forward_state i x yi s si Hi) as ->.
    split; [reflexivity | exact Hi].
Qed.

End PredictState.
(** ** DynamicsModel.predict: what is returned *)

Section PredictValue.

Lemma wf_model_init (cfg : Config) (p : nat -> Net.init_params) :
  wf_model (DynamicsModel.init cfg p).
Proof.
  unfold wf_model, DynamicsModel.init.
  destruct (cfg_prob cfg); cbn zeta;
    cbn [DynamicsModel.n_in DynamicsModel.n_out DynamicsModel.nets];
    apply Forall_forall; intros n Hn; apply in_map_iff in Hn;
    destruct Hn as [i [<- _]]; apply init_io.
Qed.

Lemma iadd_same_shape (A B : tensor) :
  nrows A = nrows B -> ncols A = ncols B ->
  iadd A B =
  Ok (tab (nrows A) (ncols A) (fun i j => (get A i j + get B i j)%R)).
Proof.
  intros Hr Hc. unfold iadd, add. rewrite (bcast_same _ _ _ Hr Hc). simpl.
  now rewrite !Nat.eqb_refl.
Qed.

(** A member's forward pass on a well-formed model. *)
Lemma on_net_forward_ok (m : DynamicsModel.t) (g i : nat) (x : tensor) :
  wf_model m -> ncols x = DynamicsModel.n_in m ->
  i < length (DynamicsModel.nets m) ->
  exists y,
    DynamicsModel.on_net i (Net.forward x) (DynamicsModel.St m g)
      = Ok (y, DynamicsModel.St m g) /\
    nrows y = nrows x /\ ncols y = DynamicsModel.n_out m.
Proof.
  intros Hwf Hx Hi.
  destruct (nth_error (DynamicsModel.nets m) i) as [n|] eqn:Hn;
    [| apply nth_error_None in Hn; lia].
  assert (Hio : seq_io (Net.features n)
                  (DynamicsModel.n_in m) (DynamicsModel.n_out m)).
  { unfold wf_model in Hwf. rewrite Forall_forall in Hwf.
    apply Hwf. eapply nth_error_In. exact Hn. }
  destruct (apply_Sequential_shape _ _ _ x Hio Hx) as (y & Hy & Hr & Hc).
  exists y. split; [| split; assumption].
  assert (H : exists s', DynamicsModel.on_net i (Net.forward x)
                           (DynamicsModel.St m g) = Ok (y, s')).
  { unfold DynamicsModel.on_net. cbn [DynamicsModel.self DynamicsModel.rng].
    rewrite Hn. unfold Net.forward, bind, get_state, lift.
    cbn [Net.self]. rewrite Hy. eexists. reflexivity. }
  destruct H as [s' H]. rewrite H.
  now rewrite (on_net_forward_state _ _ _ _ _ H).
Qed.

(** The loop over members keeps the shape of [prediction]. *)
Lemma predict_loop_ok (m : DynamicsModel.t) (g : nat) (x : tensor)
      (l : list nat) (p : tensor) :
  wf_model m -> ncols x = DynamicsModel.n_in m ->
  Forall (fun i => i < length (DynamicsModel.nets m)) l ->
  shape p = (nrows x, DynamicsModel.n_out m) ->
  exists p',
    for_each l (DynamicsModel.predict_member x) p (DynamicsModel.St m g)
      = Ok (p', DynamicsModel.St m g) /\
    shape p' = (nrows x, DynamicsModel.n_out m).
Proof.
  intros Hwf Hx. revert p.
  induction l as [|i l IH]; intros p Hl Hp; simpl.
  - exists p. split; [reflexivity | exact Hp].
  - inversion Hl as [|? ? Hi Hl']; subst.
    destruct (on_net_forward_ok m g i x Hwf Hx Hi) as (y & Hy & Hr & Hc).
    unfold shape in Hp. injection Hp as Hpr Hpc.
    unfold bind at 1. unfold DynamicsModel.predict_member at 1.
    unfold bind at 1. rewrite Hy. unfold bind, get_state, lift.
    rewrite iadd_same_shape by (cbn [nrows ncols tmap tab]; congruence).
    apply IH; [exact Hl'|]. unfold shape. cbn [nrows ncols tab].
    congruence.
Qed.

(** [predict] on a well-formed model: the members' average [p] has shape
    [(rows of x, n_out)]; trajectory mode returns [p[:, :21]], one-step
    mode returns [x[:, :21] + p[:, :21]]; the model is left as it was. *)
Lemma predict_ok (m : DynamicsModel.t) (g : nat) (x : tensor) :
  wf_model m -> ncols x = DynamicsModel.n_in m ->
  exists p,
    shape p = (nrows x, DynamicsModel.n_out m) /\
    DynamicsModel.predict x (DynamicsModel.St m g) =
    if DynamicsModel.traj m
    then Ok (cols_to 21 p, DynamicsModel.St m g)
    else lift (add (cols_to 21 x) (cols_to 21 p)) (DynamicsModel.St m g).
Proof.
  intros Hwf Hx.
  destruct (predict_loop_ok m g x
              (seq 0 (length (DynamicsModel.nets m)))
              (zeros (nrows x) (DynamicsModel.n_out m)) Hwf Hx)
    as (p & Hloop & Hp).
  { apply Forall_forall. intros i Hi. apply in_seq in Hi. lia. }
  { reflexivity. }
  exists p. split; [exact Hp|].
  unfold DynamicsModel.predict, bind at 1, get_state at 1.
  cbn [DynamicsModel.self]. unfold bind at 1. rewrite Hloop.
  unfold bind, get_state. cbn [DynamicsModel.self].
  destruct (DynamicsModel.traj m); reflexivity.
Qed.

(** In trajectory mode the result has as many columns as the network
    output, up to 21. *)
Lemma predict_traj_shape (m : DynamicsModel.t) (g : nat) (x : tensor) :
  wf_model m -> ncols x = DynamicsModel.n_in m ->
  DynamicsModel.traj m = true ->
  exists y,
    DynamicsModel.predict x (DynamicsModel.St m g)
      = Ok (y, DynamicsModel.St m g) /\
    shape y = (nrows x, Nat.min 21 (DynamicsModel.n_out m)).
Proof.
  intros Hwf Hx Ht.
  destruct (predict_ok m g x Hwf Hx) as (p & Hp & H).
  rewrite Ht in H. exists (cols_to 21 p). split; [exact H|].
  unfold shape in *. injection Hp as Hr Hc.
  cbn [cols_to tab nrows ncols]. congruence.
Qed.

(** [C2] at a failing input.  A probabilistic trajectory model with
    [state_size = 3] has [n_out = 6]; on a batch of 4 inputs [predict]
    returns a [(4, 6)] matrix, not a [(4, state_size)] one: the slice
    keeps 21 columns, whatever [state_size] is. *)
Theorem predict_shape_not_state_size (p : nat -> Net.init_params) (g : nat) :
  exists y s',
    DynamicsModel.predict x45
      (DynamicsModel.St (DynamicsModel.init cfg_prob_traj p) g) = Ok (y, s') /\
    shape y = (4, 6) /\
    shape y <> (nrows x45, state_size cfg_prob_traj).
Proof.
  destruct (predict_traj_shape (DynamicsModel.init cfg_prob_traj p) g x45)
    as (y & Hy & Hs).
  - apply wf_model_init.
  - reflexivity.
  - reflexivity.
  - exists y. eexists. split; [exact Hy|]. rewrite Hs.
    split; [reflexivity | discriminate].
Qed.

(** [C3] at failing inputs.  In trajectory mode with [state_size = 3]
    and a probabilistic network the result is the averaged prediction cut
    to 21 columns, that is all 6 of them and not the first [state_size].
    In one-step mode with [state_size = 3] and [action_size = 2] -- for any
    weights, so also when every member outputs zeros -- [predict] adds the
    5 columns of [x] to the 3 columns of the prediction and raises a shape
    error instead of returning [x[:, :state_size]]. *)
Theorem predict_slices_21_columns (p : nat -> Net.init_params) (g : nat) :
  (exists avg,
     shape avg = (4, 6) /\
     DynamicsModel.predict x45
       (DynamicsModel.St (DynamicsModel.init cfg_prob_traj p) g)
     = Ok (cols_to 21 avg,
           DynamicsModel.St (DynamicsModel.init cfg_prob_traj p) g) /\
     shape (cols_to 21 avg) = (4, 6) /\
     shape (cols_to (state_size cfg_prob_traj) avg) = (4, 3)) /\
  DynamicsModel.predict x45
    (DynamicsModel.St (DynamicsModel.init cfg_onestep p) g)
  = Err RuntimeError.
Proof.
  split.
  - destruct (predict_ok (DynamicsModel.init cfg_prob_traj p) g x45)
      as (avg & Hs & H); [apply wf_model_init | reflexivity |].
    exists avg. split; [exact Hs|]. split; [exact H|].
    unfold shape in *. injection Hs as Hr Hc.
    cbn [cols_to tab nrows ncols]. rewrite Hr, Hc. split; reflexivity.
  - destruct (predict_ok (DynamicsModel.init cfg_onestep p) g x45)
      as (avg & Hs & H); [apply wf_model_init | reflexivity |].
    rewrite H. cbn [DynamicsModel.traj DynamicsModel.init cfg_onestep cfg_traj
                    cfg_prob].
    unfold shape in Hs. injection Hs as Hr Hc.
    unfold add, bcast, lift. cbn [cols_to tab nrows ncols].
    rewrite Hr, Hc. reflexivity.
Qed.

Lemma predict_idempotent_witness :
  exists y,
    let s := DynamicsModel.St (DynamicsModel.init cfg_prob_traj
                                 (fun _ => zero_params)) 0 in
    DynamicsModel.predict x45 s = Ok (y, s) /\
    (y1 <- DynamicsModel.predict x45 ;;
     y2 <- DynamicsModel.predict x45 ;; ret (y1, y2))%M s = Ok ((y, y), s).
Proof.
  destruct (predict_traj_shape
              (DynamicsModel.init cfg_prob_traj (fun _ => zero_params)) 0 x45
              (wf_model_init _ _) eq_refl eq_refl) as (y & Hy & _).
  exists y. cbv zeta.
  destruct (predict_idempotent x45 y _ _ Hy) as (_ & H1 & H2 & _).
  split; assumption.
Defined.

End PredictValue.
(** ** One-step mode when the members output zeros *)

Section OneStepZero.

Lemma predict_loop_zero (m : DynamicsModel.t) (g : nat) (x : tensor)
      (l : list nat) (p : tensor) :
  wf_model m -> ncols x = DynamicsModel.n_in m ->
  members_output_zero m g x ->
  Forall (fun i => i < length (DynamicsModel.nets m)) l ->
  shape p = (nrows x, DynamicsModel.n_out m) ->
  (forall a b, a < nrows x -> b < DynamicsModel.n_out m -> get p a b = 0%R) ->
  exists p',
    for_each l (DynamicsModel.predict_member x) p (DynamicsModel.St m g)
      = Ok (p', DynamicsModel.St m g) /\
    shape p' = (nrows x, DynamicsModel.n_out m) /\
    (forall a b, a < nrows x -> b < DynamicsModel.n_out m ->
                 get p' a b = 0%R).
Proof.
  intros Hwf Hx Hzero. revert p.
  induction l as [|i l IH]; intros p Hl Hp Hp0; simpl.
  - exists p. split; [reflexivity|]. split; assumption.
  - inversion Hl as [|? ? Hi Hl']; subst.
    destruct (on_net_forward_ok m g i x Hwf Hx Hi) as (y & Hy & Hr & Hc).
    pose proof (Hzero i y _ Hy) as Hy0.
    unfold shape in Hp. injection Hp as Hpr Hpc.
    unfold bind at 1. unfold DynamicsModel.predict_member at 1.
    unfold bind at 1. rewrite Hy. unfold bind, get_state, lift.
    rewrite iadd_same_shape by (cbn [nrows ncols tmap tab]; congruence).
    apply IH; [exact Hl' | |].
    + unfold shape. cbn [nrows ncols tab]. congruence.
    + intros a b Ha Hb. rewrite Hpr, Hpc, get_tab by assumption.
      unfold tmap. rewrite get_tab by congruence.
      rewrite (Hp0 a b Ha Hb), (Hy0 a b Ha Hb). unfold Rdiv. lra.
Qed.

(** In one-step mode, when every member outputs zeros and the 21-column
    cuts of [x] and of the prediction are equally wide (as they are for a
    state of 21 variables), [predict] returns [x[:, :21]]. *)
Lemma predict_onestep_zero_output (m : DynamicsModel.t) (g : nat) (x : tensor) :
  wf_model m -> ncols x = DynamicsModel.n_in m ->
  DynamicsModel.traj m = false ->
  Nat.min 21 (ncols x) = Nat.min 21 (DynamicsModel.n_out m) ->
  members_output_zero m g x ->
  DynamicsModel.predict x (DynamicsModel.St m g)
  = Ok (cols_to 21 x, DynamicsModel.St m g).
Proof.
  intros Hwf Hx Ht Hw Hzero.
  destruct (predict_loop_zero m g x
              (seq 0 (length (DynamicsModel.nets m)))
              (zeros (nrows x) (DynamicsModel.n_out m)) Hwf Hx Hzero)
    as (p & Hloop & Hp & Hp0).
  { apply Forall_forall. intros i Hi. apply in_seq in Hi. lia. }
  { reflexivity. }
  { intros a b Ha Hb. unfold zeros. now rewrite get_tab. }
  unfold DynamicsModel.predict, bind at 1, get_state at 1.
  cbn [DynamicsModel.self]. unfold bind at 1. rewrite Hloop.
  unfold bind, get_state. cbn [DynamicsModel.self]. rewrite Ht.
  unfold shape in Hp. injection Hp as Hpr Hpc.
  unfold add, cols_to. rewrite Hpr, Hpc, <- Hw, bcast_same_tab.
  unfold lift. do 2 f_equal. apply tab_ext. intros i j Hi Hj.
  rewrite (Hp0 i j) by lia. lra.
Qed.

Lemma apply_Sequential_app (f g : Net.Sequential) (x : tensor) :
  Net.apply_Sequential (f ++ g) x
  = rbind (Net.apply_Sequential f x) (Net.apply_Sequential g).
Proof.
  revert x. induction f as [|[name l] f IH]; intros x; simpl;
    [reflexivity|].
  destruct (Net.apply_layer l x) as [y|e]; simpl; [apply IH | reflexivity].
Qed.

(** A linear layer with zero weight and zero bias outputs zeros. *)
Lemma linear_zero_output (n_i n_o : nat) (z : tensor) :
  ncols z = n_i ->
  exists y,
    Net.apply_layer (Net.Linear (tab n_o n_i (fun _ _ => 0%R))
                                (tab 1 n_o (fun _ _ => 0%R))) z = Ok y /\
    forall a b, a < nrows z -> b < n_o -> get y a b = 0%R.
Proof.
  intros Hz. unfold Net.apply_layer, mm, transpose. cbn [nrows ncols tab].
  rewrite Hz, Nat.eqb_refl. simpl rbind. unfold add.
  rewrite bcast_row_r by reflexivity. cbn [nrows ncols tab].
  eexists. split; [reflexivity|].
  intros a b Ha Hb. rewrite !get_tab by lia.
  rewrite sum_n_all_zero; [lra|].
  intros k Hk. rewrite !get_tab by lia. lra.
Qed.

(** With all weights zero, every member of a constructed model outputs
    zeros. *)
Lemma zero_params_output_zero (cfg : Config) (g : nat) (x : tensor) :
  ncols x = DynamicsModel.n_in (DynamicsModel.init cfg (fun _ => zero_params)) ->
  members_output_zero (DynamicsModel.init cfg (fun _ => zero_params)) g x.
Proof.
  intros Hx i y s'. unfold DynamicsModel.on_net.
  cbn [DynamicsModel.self DynamicsModel.rng].
  destruct (nth_error _ i) as [n|] eqn:Hn; [|discriminate].
  apply nth_error_In in Hn.
  assert (Hf : exists pre,
            Net.features n
            = pre ++ [(Net.dynm_out_lin,
                       Net.Linear
                         (tab (DynamicsModel.n_out
                                 (DynamicsModel.init cfg (fun _ => zero_params)))
                              (hid_width cfg) (fun _ _ => 0%R))
                         (tab 1 (DynamicsModel.n_out
                                   (DynamicsModel.init cfg (fun _ => zero_params)))
                              (fun _ _ => 0%R)))] /\
            seq_io pre
              (DynamicsModel.n_in (DynamicsModel.init cfg (fun _ => zero_params)))
              (hid_width cfg)).
  { unfold DynamicsModel.init in *.
    destruct (cfg_prob cfg); cbn zeta in *;
      cbn [DynamicsModel.n_in DynamicsModel.n_out DynamicsModel.nets] in *;
      apply in_map_iff in Hn; destruct Hn as [j [<- _]];
      unfold Net.init; cbn [Net.features];
      (eexists; split;
       [rewrite app_assoc; reflexivity
       | apply seq_io_app with (b := hid_width cfg);
         [ exists (hid_width cfg); split; [repeat split|];
           exists (hid_width cfg); split; reflexivity
         | apply hidden_io ]]). }
  destruct Hf as (pre & Hf & Hpre).
  unfold Net.forward, bind, get_state, lift. cbn [Net.self].
  rewrite Hf, apply_Sequential_app.
  destruct (apply_Sequential_shape pre _ _ x Hpre Hx) as (z & -> & Hzr & Hzc).
  cbn [rbind Net.apply_Sequential].
  destruct (linear_zero_output (hid_width cfg)
              (DynamicsModel.n_out (DynamicsModel.init cfg (fun _ => zero_params)))
              z Hzc) as (y0 & -> & Hy0).
  cbn [rbind]. intros H. injection H as <- _.
  intros a b Ha Hb. apply Hy0; [congruence | exact Hb].
Qed.

(** A one-step model of a system with 21 state variables, as the slice
    width assumes: with zero weights [predict] is the identity on the
    state columns of [x]. *)
Lemma predict_onestep_zero_state21 (g : nat) (x : tensor) :
  ncols x = 23 ->
  DynamicsModel.predict x
    (DynamicsModel.St (DynamicsModel.init cfg_state21 (fun _ => zero_params)) g)
  = Ok (cols_to 21 x,
        DynamicsModel.St (DynamicsModel.init cfg_state21 (fun _ => zero_params)) g).
Proof.
  intros Hx. apply predict_onestep_zero_output.
  - apply wf_model_init.
  - exact Hx.
  - reflexivity.
  - rewrite Hx. reflexivity.
  - apply zero_params_output_zero. exact Hx.
Qed.

End OneStepZero.
(** ** The folds of DynamicsModel.train *)

Section KFoldFacts.

Lemma mem_true_iff (s : nat) (l : list nat) : mem s l = true <-> In s l.
Proof.
  unfold mem. rewrite existsb_exists. split.
  - intros [x [Hx He]]. apply Nat.eqb_eq in He. now subst.
  - intros H. exists s. split; [exact H | apply Nat.eqb_refl].
Qed.

Lemma mem_seq (s a len : nat) :
  mem s (seq a len) = (a <=? s) && (s <? a + len).
Proof.
  apply Bool.eq_iff_eq_true.
  rewrite mem_true_iff, in_seq, andb_true_iff, Nat.leb_le, Nat.ltb_lt.
  reflexivity.
Qed.

Lemma mem_filter (s : nat) (f : nat -> bool) (l : list nat) :
  mem s (filter f l) = mem s l && f s.
Proof.
  apply Bool.eq_iff_eq_true.
  rewrite mem_true_iff, filter_In, andb_true_iff, mem_true_iff.
  reflexivity.
Qed.

Lemma held_out_count_cons (s : nat) (f : list nat * list nat)
      (fs : list (list nat * list nat)) :
  held_out_count s (f :: fs)
  = (if mem s (snd f) then 1 else 0) + held_out_count s fs.
Proof. unfold held_out_count. simpl. now destruct (mem s (snd f)). Qed.

Lemma train_count_cons (s : nat) (f : list nat * list nat)
      (fs : list (list nat * list nat)) :
  train_count s (f :: fs)
  = (if mem s (fst f) then 1 else 0) + train_count s fs.
Proof. unfold train_count. simpl. now destruct (mem s (fst f)). Qed.

Lemma folds_from_length (n cur : nat) (sizes : list nat) :
  length (KFold.folds_from n cur sizes) = length sizes.
Proof.
  revert cur. induction sizes as [|fs rest IH]; intros cur; simpl;
    [reflexivity | now rewrite IH].
Qed.

(** A sample at or after [cur] is held out by exactly one of the folds
    that start at [cur] and cover the rest of the indices, and it is in
    the training indices of all the other folds. *)
Lemma folds_from_counts (sizes : list nat) :
  forall n cur s,
    cur + list_sum sizes = n -> s < n ->
    held_out_count s (KFold.folds_from n cur sizes)
      = (if cur <=? s then 1 else 0) /\
    train_count s (KFold.folds_from n cur sizes)
      + held_out_count s (KFold.folds_from n cur sizes) = length sizes.
Proof.
  induction sizes as [|fs rest IH]; intros n cur s Hsum Hs.
  - simpl in *. split; [|reflexivity].
    destruct (Nat.leb_spec cur s); [lia | reflexivity].
  - change (list_sum (fs :: rest)) with (fs + list_sum rest) in Hsum.
    cbn [KFold.folds_from length].
    rewrite held_out_count_cons, train_count_cons. cbn [fst snd].
    change (filter (fun i => negb (existsb (Nat.eqb i) (seq cur fs))) (seq 0 n))
      with (filter (fun i => negb (mem i (seq cur fs))) (seq 0 n)).
    rewrite mem_filter, !mem_seq.
    destruct (IH n (cur + fs) s) as [H1 H2]; [lia | exact Hs |].
    rewrite H1 in H2. rewrite H1.
    destruct (Nat.leb_spec cur s), (Nat.ltb_spec s (cur + fs)),
      (Nat.leb_spec (cur + fs) s), (Nat.leb_spec 0 s),
      (Nat.ltb_spec s (0 + n)); simpl in *; split; lia.
Qed.

Lemma list_sum_indicator (r k : nat) :
  list_sum (map (fun i => if i <? r then 1 else 0) (seq 0 k)) = Nat.min k r.
Proof.
  induction k as [|k IH]; [reflexivity|].
  rewrite seq_S, map_app, list_sum_app, IH.
  cbn [map list_sum fold_right Nat.add].
  destruct (Nat.ltb_spec k r); lia.
Qed.

Lemma list_sum_shift (q : nat) (f : nat -> nat) (l : list nat) :
  list_sum (map (fun i => q + f i) l) = length l * q + list_sum (map f l).
Proof.
  induction l as [|a l IH]; simpl; [reflexivity | rewrite IH; lia].
Qed.

Lemma firstn_seq_min (i a k : nat) :
  firstn i (seq a k) = seq a (Nat.min i k).
Proof.
  revert a k. induction i as [|i IH]; intros a [|k]; simpl;
    try reflexivity.
  now rewrite IH.
Qed.

(** The folds before fold [i] hold [fold_start] samples. *)
Lemma fold_sizes_prefix_sum (k n i : nat) :
  i <= k -> list_sum (firstn i (KFold.fold_sizes k n)) = fold_start k n i.
Proof.
  intros Hi. unfold KFold.fold_sizes, fold_start.
  rewrite firstn_map, firstn_seq_min, (Nat.min_l i k Hi).
  now rewrite list_sum_shift, length_seq, list_sum_indicator.
Qed.

Lemma fold_sizes_length (k n : nat) : length (KFold.fold_sizes k n) = k.
Proof. unfold KFold.fold_sizes. now rewrite length_map, length_seq. Qed.

(** The fold sizes add up to the number of samples. *)
Lemma fold_sizes_sum (k n : nat) :
  0 < k -> list_sum (KFold.fold_sizes k n) = n.
Proof.
  intros Hk.
  rewrite <- (firstn_all (KFold.fold_sizes k n)), fold_sizes_length.
  rewrite fold_sizes_prefix_sum by lia. unfold fold_start.
  pose proof (Nat.div_mod_eq n k). pose proof (Nat.mod_upper_bound n k).
  lia.
Qed.

Lemma fold_sizes_nth (k n i : nat) :
  i < k -> nth_error (KFold.fold_sizes k n) i = Some (fold_size k n i).
Proof.
  intros Hi. unfold KFold.fold_sizes, fold_size.
  apply (@map_nth_error nat nat
           (fun j => n / k + (if j <? n mod k then 1 else 0)) i (seq 0 k) i).
  rewrite (nth_error_nth' (seq 0 k) 0) by (now rewrite length_seq).
  now rewrite seq_nth.
Qed.

(** Every fold is smaller than the dataset when [2 <= k <= n]. *)
Lemma fold_sizes_small (k n : nat) :
  2 <= k -> k <= n -> Forall (fun fs => fs < n) (KFold.fold_sizes k n).
Proof.
  intros Hk Hn. apply Forall_forall. intros fs Hin.
  unfold KFold.fold_sizes in Hin. apply in_map_iff in Hin.
  destruct Hin as [i [<- _]].
  pose proof (Nat.div_mod_eq n k). pose proof (Nat.mod_upper_bound n k).
  destruct (Nat.ltb_spec i (n mod k)); nia.
Qed.

(** A block of a fold lies inside the dataset. *)
Lemma fold_block_inside (k n i : nat) :
  i < k -> fold_start k n i + fold_size k n i <= n.
Proof.
  intros Hi. unfold fold_start, fold_size.
  pose proof (Nat.div_mod_eq n k). pose proof (Nat.mod_upper_bound n k).
  destruct (Nat.ltb_spec i (n mod k)); nia.
Qed.

Lemma filter_all {A} (f : A -> bool) (l : list A) :
  (forall x, In x l -> f x = true) -> filter f l = l.
Proof.
  induction l as [|a l IH]; simpl; intros H; [reflexivity|].
  rewrite (H a) by now left. f_equal. apply IH. intros x Hx. apply H.
  now right.
Qed.

Lemma filter_none {A} (f : A -> bool) (l : list A) :
  (forall x, In x l -> f x = false) -> filter f l = [].
Proof.
  induction l as [|a l IH]; simpl; intros H; [reflexivity|].
  rewrite (H a) by now left. apply IH. intros x Hx. apply H. now right.
Qed.

(** The training indices of a fold: everything before the held-out block,
    then everything after it. *)
Lemma train_index_blocks (n cur fs : nat) :
  cur + fs <= n ->
  filter (fun i => negb (mem i (seq cur fs))) (seq 0 n)
  = seq 0 cur ++ seq (cur + fs) (n - (cur + fs)).
Proof.
  intros H.
  replace n with (cur + (fs + (n - (cur + fs)))) at 1 by lia.
  rewrite !seq_app, !filter_app. simpl.
  rewrite (filter_all _ (seq 0 cur)), (filter_none _ (seq cur fs)),
    (filter_all _ (seq (cur + fs) _)); [reflexivity | | |];
    intros x Hx; apply in_seq in Hx; rewrite mem_seq;
    destruct (Nat.leb_spec cur x), (Nat.ltb_spec x (cur + fs));
    simpl; try reflexivity; lia.
Qed.

Lemma folds_from_nth (sizes : list nat) :
  forall n cur i fs,
    nth_error sizes i = Some fs ->
    nth_error (KFold.folds_from n cur sizes) i
    = Some (filter (fun j => negb (mem j (seq (cur + list_sum (firstn i sizes)) fs)))
                   (seq 0 n),
            seq (cur + list_sum (firstn i sizes)) fs).
Proof.
  induction sizes as [|a rest IH]; intros n cur [|i] fs H; simpl in *;
    try discriminate.
  - injection H as ->. now rewrite Nat.add_0_r.
  - rewrite (IH n (cur + a) i fs H). now rewrite Nat.add_assoc.
Qed.

(** What [train] zips with the members, when the split succeeds. *)
Lemma folds_eq (m : DynamicsModel.t) (dataset : tensor * tensor) :
  length (DynamicsModel.nets m) = DynamicsModel.E m ->
  2 <= DynamicsModel.E m -> DynamicsModel.E m <= nrows (fst dataset) ->
  DynamicsModel.folds m dataset
  = Ok (KFold.folds_from (nrows (fst dataset)) 0
          (KFold.fold_sizes (DynamicsModel.E m) (nrows (fst dataset)))).
Proof.
  intros Hl HE HN. unfold DynamicsModel.folds, KFold.new.
  destruct (Nat.leb_spec (DynamicsModel.E m) 1) as [H|_]; [lia|]. simpl.
  destruct (DynamicsModel.nets m) as [|n0 ns]; [simpl in Hl; lia|].
  unfold KFold.split. cbn [KFold.n_splits].
  destruct (Nat.ltb_spec (nrows (fst dataset)) (DynamicsModel.E m));
    [lia | reflexivity].
Qed.

End KFoldFacts.

Section KFoldExamples.

(** [C5] fails as stated: with ensembling enabled, [train] raises
    [ValueError] and partitions nothing when [E = 1], and when there are
    fewer samples than members (five samples, [E = 6]). *)
Lemma train_partition_raises :
  DynamicsModel.train unit adam0 step0 shuffle0 data5 cfg_ensemble_of_one
    (DynamicsModel.St
       (DynamicsModel.init cfg_ensemble_of_one (fun _ => zero_params)) 0)
  = Err ValueError /\
  DynamicsModel.train unit adam0 step0 shuffle0 data5 cfg_ensemble_of_six
    (DynamicsModel.St
       (DynamicsModel.init cfg_ensemble_of_six (fun _ => zero_params)) 0)
  = Err ValueError.
Proof. split; vm_compute; reflexivity. Qed.

End KFoldExamples.
(** ** Net.optimize: degenerate hyperparameters *)

Section Optimize.

Variable OptState : Type.
Variable Adam : Net.Sequential -> R -> OptState.
Variable step : OptState -> Net.loss -> Net.Sequential -> tensor -> tensor ->
                OptState * Net.Sequential.
Variable shuffle : nat -> list DataLoader.sample -> list DataLoader.sample * nat.

(** [int(split * n) = n] when [split] is 1. *)
Lemma py_int_split_one (q : Q) (z : Z) :
  (q == 1)%Q -> py_int (q * inject_Z z) = z.
Proof.
  destruct q as [a d]. unfold Qeq, py_int. simpl. intros H.
  rewrite Z.mul_1_r in H. rewrite Pos.mul_1_r.
  replace a with (Z.pos d) by lia.
  rewrite Z.mul_comm. apply Z.quot_mul. discriminate.
Qed.

Lemma slice_from_len {A} (l : list A) :
  slice_from l (Z.of_nat (length l)) = [].
Proof.
  unfold slice_from, slice_bound.
  destruct (Z.ltb_spec (Z.of_nat (length l)) 0) as [H|_]; [lia|].
  rewrite Nat2Z.id. apply skipn_all.
Qed.

(** The loader's constructor raises nothing but [ValueError]. *)
Lemma DataLoader_new_error (ds : list DataLoader.sample) (bs : Z) (e : error) :
  DataLoader.new ds bs = Err e -> e = ValueError.
Proof.
  unfold DataLoader.new.
  destruct (length ds =? 0); [intros H; now injection H|].
  destruct (bs <=? 0)%Z; [intros H; now injection H | discriminate].
Qed.

Lemma DataLoader_new_empty (bs : Z) : DataLoader.new [] bs = Err ValueError.
Proof. reflexivity. Qed.

(** [C7] (as the code has it).  With a split fraction of 1 the test
    partition is empty and [optimize] raises [ValueError] while building
    its loaders, before the first epoch: no test error is returned, and no
    division is reached. *)
Theorem optimize_split_one (dataset : tensor * tensor) (cfg : Config)
        (s : Net.state) :
  (split cfg == 1)%Q ->
  Net.optimize OptState Adam step shuffle dataset cfg s = Err ValueError.
Proof.
  intros Hs. unfold Net.optimize, bind at 1, get_state at 1.
  rewrite (py_int_split_one _ _ Hs), slice_from_len, DataLoader_new_empty.
  unfold bind at 1, lift at 1.
  destruct (DataLoader.new _ (batch cfg)) as [tl|e] eqn:Htl.
  - reflexivity.
  - now rewrite (DataLoader_new_error _ _ _ Htl).
Qed.

(** The evaluation loop over a loader without batches divides nothing and
    leaves the epoch's test error at its initial 0: the failure above
    comes from the loader's constructor alone. *)
Lemma test_loop_no_batches (testLoader : DataLoader.t) (bs : Z)
      (s : Net.state) :
  for_each [] (Net.test_batch testLoader bs) 0%R s = Ok (0%R, s).
Proof. reflexivity. Qed.

Lemma range_nonpositive (n : Z) : (n <= 0)%Z -> range n = [].
Proof.
  intros H. unfold range.
  replace (Z.to_nat n) with 0 by lia. reflexivity.
Qed.

(** With [epochs <= 0] and loaders that can be built, [optimize] runs no
    epoch and returns two empty error sequences, the net untouched. *)
Lemma optimize_no_epochs (dataset : tensor * tensor)
      (cfg : Config) (s : Net.state) (trainLoader testLoader : DataLoader.t) :
  let ds := combine (Net.rows (fst dataset)) (Net.rows (snd dataset)) in
  let k := py_int (split cfg * inject_Z (Z.of_nat (length ds))) in
  (epochs cfg <= 0)%Z ->
  DataLoader.new (slice_to ds k) (batch cfg) = Ok trainLoader ->
  DataLoader.new (slice_from ds k) (batch cfg) = Ok testLoader ->
  Net.optimize OptState Adam step shuffle dataset cfg s = Ok (([], []), s).
Proof.
  intros ds k He Htl Hte.
  unfold Net.optimize, bind at 1, get_state at 1.
  fold ds. fold k. rewrite Htl, Hte.
  unfold bind, lift. rewrite (range_nonpositive _ He). reflexivity.
Qed.

End Optimize.

Section OptimizeExamples.

Lemma optimize_split_one_witness :
  Net.optimize unit adam0 step0 shuffle0 data5 cfg_split_one' (Net.St net0 0)
  = Err ValueError.
Proof.
  apply (optimize_split_one unit adam0 step0 shuffle0 data5 cfg_split_one'
           (Net.St net0 0)).
  reflexivity.
Defined.

(** [C7] fails as stated: five samples, batches of two, three epochs and
    a split fraction of 1.0 end in [ValueError], not in three test errors. *)
Lemma optimize_split_one_raises :
  Net.optimize unit adam0 step0 shuffle0 data5 cfg_split_one (Net.St net0 0)
  = Err ValueError /\
  ~ exists train_errors test_errors s',
      Net.optimize unit adam0 step0 shuffle0 data5 cfg_split_one
        (Net.St net0 0) = Ok ((train_errors, test_errors), s').
Proof.
  assert (H : Net.optimize unit adam0 step0 shuffle0 data5 cfg_split_one
                (Net.St net0 0) = Err ValueError)
    by (vm_compute; reflexivity).
  split; [exact H|].
  intros (tr & te & s' & H'). rewrite H in H'. discriminate.
Qed.

End OptimizeExamples.
(** ** Net.__init__ and Net.forward *)

Section NetStructure.

Lemma hidden_length (p : Net.init_params) (w : nat) (ds : list nat) :
  length (flat_map (fun d => [Net.new_Linear p (Net.dynm_lin_ d) w w;
                              (Net.dynm_act_ d, Net.ReLU)]) ds)
  = 2 * length ds.
Proof. induction ds as [|d ds IH]; simpl; [reflexivity | rewrite IH; lia]. Qed.

Lemma hidden_kinds (p : Net.init_params) (w : nat) (ds : list nat) :
  map (fun nl => is_linear (snd nl))
      (flat_map (fun d => [Net.new_Linear p (Net.dynm_lin_ d) w w;
                           (Net.dynm_act_ d, Net.ReLU)]) ds)
  = flat_map (fun _ => [true; false]) ds.
Proof. induction ds as [|d ds IH]; simpl; [reflexivity | now rewrite IH]. Qed.

Lemma hidden_names (p : Net.init_params) (w : nat) (ds : list nat)
      (name : Net.layer_name) :
  In name (map fst (flat_map
             (fun d => [Net.new_Linear p (Net.dynm_lin_ d) w w;
                        (Net.dynm_act_ d, Net.ReLU)]) ds)) ->
  exists d, In d ds /\ (name = Net.dynm_lin_ d \/ name = Net.dynm_act_ d).
Proof.
  induction ds as [|d ds IH]; simpl; [contradiction|].
  intros [H | [H | H]].
  - exists d. auto.
  - exists d. auto.
  - destruct (IH H) as (d' & Hd & Hn). exists d'. auto.
Qed.

Lemma hidden_NoDup (p : Net.init_params) (w : nat) (ds : list nat) :
  NoDup ds ->
  NoDup (map fst (flat_map
           (fun d => [Net.new_Linear p (Net.dynm_lin_ d) w w;
                      (Net.dynm_act_ d, Net.ReLU)]) ds)).
Proof.
  induction ds as [|d ds IH]; simpl; intros Hnd; [constructor|].
  inversion Hnd as [|? ? Hd Hds]; subst.
  constructor; [|constructor; [|now apply IH]].
  - simpl. intros [H | H]; [discriminate|].
    apply hidden_names in H. destruct H as (d' & Hd' & [H | H]);
      [injection H as -> | discriminate]. contradiction.
  - intros H. apply hidden_names in H.
    destruct H as (d' & Hd' & [H | H]);
      [discriminate | injection H as ->]. contradiction.
Qed.

(** [X1].  The stack of layers that [Net.__init__] builds has
    [2 * hid_depth + 3] entries; their names are pairwise distinct, so the
    [OrderedDict] keeps every one of them; a linear layer and an activation
    alternate [hid_depth + 1] times and a linear layer comes last, with no
    activation after it. *)
Theorem net_init_layers (n_in n_out : nat) (cfg : Config) (l : Net.loss)
        (p : Net.init_params) :
  let f := Net.features (Net.init n_in n_out cfg l p) in
  length f = 2 * hid_depth cfg + 3 /\
  NoDup (map fst f) /\
  map (fun nl => is_linear (snd nl)) f
  = flat_map (fun _ => [true; false]) (seq 0 (S (hid_depth cfg))) ++ [true].
Proof.
  cbv zeta. unfold Net.init. cbn [Net.features]. split; [|split].
  - rewrite !length_app, hidden_length, length_seq. simpl. lia.
  - rewrite !map_app. cbn [map fst Net.new_Linear app].
    constructor; [|constructor].
    + simpl. intros [H | H]; [discriminate|].
      apply in_app_or in H. destruct H as [H | [H | []]]; [|discriminate].
      apply hidden_names in H. destruct H as (d & _ & [H | H]); discriminate.
    + intros H. apply in_app_or in H. destruct H as [H | [H | []]];
        [|discriminate].
      apply hidden_names in H. destruct H as (d & _ & [H | H]); discriminate.
    + apply NoDup_app.
      * apply hidden_NoDup, seq_NoDup.
      * repeat constructor. intros [].
      * intros name H [H' | []]. subst name.
        apply hidden_names in H. destruct H as (d & _ & [H | H]); discriminate.
  - rewrite !map_app, hidden_kinds.
    cbn [map snd Net.new_Linear is_linear app seq flat_map].
    do 2 f_equal. f_equal.
    generalize 0 1. intros a b. revert a b.
    induction (hid_depth cfg) as [|n IH]; intros a b; simpl;
      [reflexivity | now rewrite (IH (S a) (S b))].
Qed.

End NetStructure.

Section NetForward.

(** The first layer rejects a batch that does not have [n_in] columns. *)
Lemma forward_init_wrong_width (n_in n_out : nat) (cfg : Config)
      (l : Net.loss) (p : Net.init_params) (x : tensor) :
  ncols x <> n_in ->
  Net.apply_Sequential (Net.features (Net.init n_in n_out cfg l p)) x
  = Err RuntimeError.
Proof.
  intros Hx. unfold Net.init, Net.new_Linear. cbn [Net.features app].
  cbn [Net.apply_Sequential Net.apply_layer].
  unfold mm, transpose. cbn [nrows ncols tab].
  destruct (Nat.eqb_spec (ncols x) n_in) as [H|_]; [contradiction|].
  reflexivity.
Qed.

Lemma forward_init_ok (n_in n_out : nat) (cfg : Config)
      (l : Net.loss) (p : Net.init_params) (x : tensor) :
  ncols x = n_in ->
  exists y,
    Net.apply_Sequential (Net.features (Net.init n_in n_out cfg l p)) x = Ok y /\
    nrows y = nrows x /\ ncols y = n_out.
Proof.
  intros Hx. apply (apply_Sequential_shape _ n_in n_out x); [|exact Hx].
  apply init_io.
Qed.

(** [X2].  [forward] on a net as [__init__] builds it: a batch with
    [n_in] columns passes, the result has one row per input row and
    [n_out] columns, and the net is as it was; a batch of any other width
    raises a shape error. *)
Theorem net_forward_width (n_in n_out : nat) (cfg : Config) (l : Net.loss)
        (p : Net.init_params) (g : nat) (x : tensor) :
  let s := Net.St (Net.init n_in n_out cfg l p) g in
  (ncols x = n_in /\
   exists y, Net.forward x s = Ok (y, s) /\ shape y = (nrows x, n_out))
  \/
  (ncols x <> n_in /\ Net.forward x s = Err RuntimeError).
Proof.
  cbv zeta. unfold Net.forward, bind, get_state, lift. cbn [Net.self].
  destruct (Nat.eq_dec (ncols x) n_in) as [Hx | Hx].
  - left. split; [exact Hx|].
    destruct (forward_init_ok n_in n_out cfg l p x Hx) as (y & -> & Hr & Hc).
    exists y. split; [reflexivity|]. unfold shape. congruence.
  - right. split; [exact Hx|].
    now rewrite forward_init_wrong_width.
Qed.

End NetForward.
(** ** DynamicsModel.predict: the members' average *)

Section PredictAverage.

Lemma init_model_fields (cfg : Config) (p : nat -> Net.init_params) :
  let m := DynamicsModel.init cfg p in
  DynamicsModel.traj m = cfg_traj cfg /\
  DynamicsModel.n_in m =
    (if cfg_traj cfg then state_size cfg + param_size cfg + 1
     else state_size cfg + action_size cfg) /\
  DynamicsModel.n_out m =
    (if cfg_prob cfg then state_size cfg * 2 else state_size cfg) /\
  DynamicsModel.nets m =
    map (fun i => Net.init (DynamicsModel.n_in m) (DynamicsModel.n_out m) cfg
                           (DynamicsModel.loss_fn m) (p i))
        (seq 0 (DynamicsModel.E m)) /\
  DynamicsModel.E m = (if ensemble cfg then cfg_E cfg else 1).
Proof.
  unfold DynamicsModel.init. destruct (cfg_prob cfg); cbn; repeat split.
Qed.

Lemma sum_over_div (l : list nat) (f : nat -> R) (c : R) :
  sum_over l (fun i => (f i / c)%R) = (sum_over l f / c)%R.
Proof.
  unfold sum_over. induction l as [|k l IH]; simpl.
  - unfold Rdiv. lra.
  - rewrite IH. unfold Rdiv. lra.
Qed.

(** A member's forward pass returns [member_output] and leaves the model
    as it was. *)
Lemma on_net_forward_member (m : DynamicsModel.t) (g i : nat) (x : tensor) :
  wf_model m -> ncols x = DynamicsModel.n_in m ->
  i < length (DynamicsModel.nets m) ->
  DynamicsModel.on_net i (Net.forward x) (DynamicsModel.St m g)
    = Ok (member_output m x i, DynamicsModel.St m g) /\
  nrows (member_output m x i) = nrows x /\
  ncols (member_output m x i) = DynamicsModel.n_out m.
Proof.
  intros Hwf Hx Hi.
  destruct (on_net_forward_ok m g i x Hwf Hx Hi) as (y & Hy & Hr & Hc).
  assert (Hm : member_output m x i = y).
  { revert Hy. unfold DynamicsModel.on_net, member_output.
    cbn [DynamicsModel.self DynamicsModel.rng].
    destruct (nth_error (DynamicsModel.nets m) i) as [n|]; [|discriminate].
    unfold Net.forward, bind, get_state, lift. cbn [Net.self].
    destruct (Net.apply_Sequential (Net.features n) x) as [y0|e];
      [|discriminate].
    intros H. now injection H as ->. }
  rewrite Hm. auto.
Qed.

(** The loop over members adds, entry by entry, each member's output
    divided by the number of members. *)
Lemma predict_loop_sum (m : DynamicsModel.t) (g : nat) (x : tensor)
      (l : list nat) (f : nat -> nat -> R) :
  wf_model m -> ncols x = DynamicsModel.n_in m ->
  Forall (fun i => i < length (DynamicsModel.nets m)) l ->
  for_each l (DynamicsModel.predict_member x)
           (tab (nrows x) (DynamicsModel.n_out m) f) (DynamicsModel.St m g)
  = Ok (tab (nrows x) (DynamicsModel.n_out m)
          (fun a b =>
             (f a b
              + sum_over l (fun i => get (member_output m x i) a b
                                     / INR (length (DynamicsModel.nets m))))%R),
        DynamicsModel.St m g).
Proof.
  intros Hwf Hx. revert f.
  induction l as [|i l IH]; intros f Hl; cbn [for_each sum_over fold_right].
  - unfold ret. do 2 f_equal. apply tab_ext. intros a b _ _. lra.
  - inversion Hl as [|? ? Hi Hl']; subst.
    destruct (on_net_forward_member m g i x Hwf Hx Hi) as (Hy & Hr & Hc).
    unfold bind at 1. unfold DynamicsModel.predict_member at 1.
    unfold bind at 1. rewrite Hy. unfold bind at 1, get_state at 1, lift at 1.
    cbn [DynamicsModel.self].
    rewrite iadd_same_shape by (cbn [nrows ncols tmap tab]; congruence).
    cbn [nrows ncols tab].
    rewrite (tab_ext _ _ _
               (fun a b => (f a b + get (member_output m x i) a b
                                    / INR (length (DynamicsModel.nets m)))%R)).
    + rewrite (IH _ Hl'). do 2 f_equal. apply tab_ext. intros a b _ _.
      fold (sum_over l (fun i0 => (get (member_output m x i0) a b
                                   / INR (length (DynamicsModel.nets m)))%R)).
      lra.
    + intros a b Ha Hb. rewrite get_tab by assumption.
      unfold tmap. rewrite get_tab by congruence. reflexivity.
Qed.

Lemma predict_loop_average (m : DynamicsModel.t) (g : nat) (x : tensor) :
  wf_model m -> ncols x = DynamicsModel.n_in m ->
  for_each (seq 0 (length (DynamicsModel.nets m)))
           (DynamicsModel.predict_member x)
           (zeros (nrows x) (DynamicsModel.n_out m)) (DynamicsModel.St m g)
  = Ok (members_average m x, DynamicsModel.St m g).
Proof.
  intros Hwf Hx. unfold zeros. rewrite predict_loop_sum; try assumption.
  - do 2 f_equal. unfold members_average. cbv zeta.
    apply tab_ext. intros a b _ _. unfold sum_over, sum_n. lra.
  - apply Forall_forall. intros i Hi. apply in_seq in Hi. lia.
Qed.

Lemma predict_members_average (m : DynamicsModel.t) (g : nat) (x : tensor) :
  wf_model m -> ncols x = DynamicsModel.n_in m ->
  DynamicsModel.predict x (DynamicsModel.St m g) =
  if DynamicsModel.traj m
  then Ok (cols_to 21 (members_average m x), DynamicsModel.St m g)
  else lift (add (cols_to 21 x) (cols_to 21 (members_average m x)))
            (DynamicsModel.St m g).
Proof.
  intros Hwf Hx.
  unfold DynamicsModel.predict, bind at 1, get_state at 1.
  cbn [DynamicsModel.self]. unfold bind at 1.
  rewrite (predict_loop_average m g x Hwf Hx).
  unfold bind, get_state. cbn [DynamicsModel.self].
  destruct (DynamicsModel.traj m); reflexivity.
Qed.

(** [X3].  On a model whose members take [n_in] columns to [n_out], and a
    batch [x] with [n_in] columns: every member's forward pass succeeds,
    and the prediction accumulated by the loop is the mean of the members'
    outputs, entry by entry (all zeros when the model has no member).
    [predict] returns its first 21 columns in trajectory mode, and adds
    them to the first 21 columns of [x] otherwise; the model is left as it
    was. *)
Theorem predict_average (m : DynamicsModel.t) (g : nat) (x : tensor) :
  wf_model m -> ncols x = DynamicsModel.n_in m ->
  (forall i, i < length (DynamicsModel.nets m) ->
     DynamicsModel.on_net i (Net.forward x) (DynamicsModel.St m g)
     = Ok (member_output m x i, DynamicsModel.St m g)) /\
  (forall a b, a < nrows x -> b < DynamicsModel.n_out m ->
     get (members_average m x) a b
     = (sum_n (length (DynamicsModel.nets m))
              (fun i => get (member_output m x i) a b)
        / INR (length (DynamicsModel.nets m)))%R) /\
  DynamicsModel.predict x (DynamicsModel.St m g) =
  (if DynamicsModel.traj m
   then Ok (cols_to 21 (members_average m x), DynamicsModel.St m g)
   else match add (cols_to 21 x) (cols_to 21 (members_average m x)) with
        | Ok y => Ok (y, DynamicsModel.St m g)
        | Err e => Err e
        end).
Proof.
  intros Hwf Hx. split; [|split].
  - intros i Hi. apply (on_net_forward_member m g i x Hwf Hx Hi).
  - intros a b Ha Hb. unfold members_average. cbv zeta.
    rewrite get_tab by assumption.
    apply (sum_over_div (seq 0 (length (DynamicsModel.nets m)))).
  - apply (predict_members_average m g x Hwf Hx).
Qed.

Lemma predict_average_witness :
  let m := DynamicsModel.init cfg_state21 (fun _ => zero_params) in
  let x := tab 2 23 (fun i j => (INR i + INR j)%R) in
  DynamicsModel.predict x (DynamicsModel.St m 0)
  = match add (cols_to 21 x) (cols_to 21 (members_average m x)) with
    | Ok y => Ok (y, DynamicsModel.St m 0)
    | Err e => Err e
    end.
Proof.
  exact (proj2 (proj2 (predict_average
                  (DynamicsModel.init cfg_state21 (fun _ => zero_params)) 0
                  (tab 2 23 (fun i j => (INR i + INR j)%R))
                  (wf_model_init _ _) eq_refl))).
Defined.

(** A model whose first member rejects [x] rejects it too. *)
Lemma predict_first_member_error (m : DynamicsModel.t) (g : nat) (x : tensor)
      (n : Net.t) (rest : list Net.t) (e : error) :
  DynamicsModel.nets m = n :: rest ->
  Net.apply_Sequential (Net.features n) x = Err e ->
  DynamicsModel.predict x (DynamicsModel.St m g) = Err e.
Proof.
  intros Hn He.
  unfold DynamicsModel.predict, bind at 1, get_state at 1.
  cbn [DynamicsModel.self]. rewrite Hn. cbn [length seq for_each].
  unfold bind at 1. unfold bind at 1.
  unfold DynamicsModel.predict_member at 1. unfold bind at 1.
  unfold DynamicsModel.on_net. cbn [DynamicsModel.self DynamicsModel.rng].
  rewrite Hn. cbn [nth_error].
  unfold Net.forward, bind, get_state, lift. cbn [Net.self].
  now rewrite He.
Qed.

(** [X4].  [predict] on a constructed model with at least one member
    raises a shape error for every batch whose width is not [n_in]. *)
Theorem predict_wrong_width (cfg : Config) (p : nat -> Net.init_params)
        (g : nat) (x : tensor) :
  0 < DynamicsModel.E (DynamicsModel.init cfg p) ->
  ncols x <> DynamicsModel.n_in (DynamicsModel.init cfg p) ->
  DynamicsModel.predict x (DynamicsModel.St (DynamicsModel.init cfg p) g)
  = Err RuntimeError.
Proof.
  intros HE Hx.
  destruct (init_model_fields cfg p) as (_ & _ & _ & Hnets & _).
  cbv zeta in Hnets.
  destruct (DynamicsModel.E (DynamicsModel.init cfg p)) as [|k]; [lia|].
  cbn [seq map] in Hnets.
  apply (predict_first_member_error _ g x _ _ RuntimeError Hnets).
  now apply forward_init_wrong_width.
Qed.

Lemma predict_wrong_width_witness :
  DynamicsModel.predict (tab 4 6 (fun _ _ => 1%R))
    (DynamicsModel.St (DynamicsModel.init cfg_onestep (fun _ => zero_params)) 0)
  = Err RuntimeError.
Proof.
  apply (predict_wrong_width cfg_onestep (fun _ => zero_params) 0
           (tab 4 6 (fun _ _ => 1%R))).
  - simpl. lia.
  - simpl. lia.
Defined.

(** [X5].  One-step mode with at least 21 state variables: for a batch
    with [n_in] columns [predict] returns a matrix with one row per input
    row and 21 columns, whose entries are those of [x] plus the members'
    average. *)
Theorem predict_onestep_wide_state (cfg : Config) (p : nat -> Net.init_params)
        (g : nat) (x : tensor) :
  let m := DynamicsModel.init cfg p in
  cfg_traj cfg = false -> 21 <= state_size cfg ->
  ncols x = DynamicsModel.n_in m ->
  exists y,
    DynamicsModel.predict x (DynamicsModel.St m g)
      = Ok (y, DynamicsModel.St m g) /\
    shape y = (nrows x, 21) /\
    forall a b, a < nrows x -> b < 21 ->
      get y a b = (get x a b + get (members_average m x) a b)%R.
Proof.
  cbv zeta. intros Ht Hs Hx.
  destruct (init_model_fields cfg p) as (Htr & Hin & Hout & _ & _).
  cbv zeta in Htr, Hin, Hout.
  rewrite (predict_members_average _ g x (wf_model_init cfg p) Hx).
  rewrite Htr, Ht. rewrite Ht in Hin.
  unfold add, cols_to, members_average. cbv zeta. cbn [nrows ncols tab].
  replace (Nat.min 21 (ncols x)) with 21 by lia.
  replace (Nat.min 21 (DynamicsModel.n_out (DynamicsModel.init cfg p)))
    with 21 by (destruct (cfg_prob cfg); lia).
  rewrite bcast_same_tab. unfold lift.
  eexists. split; [reflexivity|]. split; [reflexivity|].
  intros a b Ha Hb. rewrite !get_tab by assumption.
  rewrite get_tab; [reflexivity | assumption |].
  destruct (cfg_prob cfg); lia.
Qed.

Lemma predict_onestep_wide_state_witness :
  let m := DynamicsModel.init cfg_state21 (fun _ => zero_params) in
  let x := tab 2 23 (fun i j => (INR i + INR j)%R) in
  exists y,
    DynamicsModel.predict x (DynamicsModel.St m 0)
      = Ok (y, DynamicsModel.St m 0) /\
    shape y = (2, 21) /\
    forall a b, a < 2 -> b < 21 ->
      get y a b = (get x a b + get (members_average m x) a b)%R.
Proof.
  apply (predict_onestep_wide_state cfg_state21 (fun _ => zero_params) 0
           (tab 2 23 (fun i j => (INR i + INR j)%R))).
  - reflexivity.
  - simpl. lia.
  - reflexivity.
Defined.

(** [X6].  One-step deterministic mode with fewer than 21 state
    variables (but at least 2) and at least one action: [x[:, :21]] is
    wider than [prediction[:, :21]], and [predict] raises a shape error on
    every batch with [n_in] columns, whatever the weights. *)
Theorem predict_onestep_narrow_state_raises (cfg : Config)
        (p : nat -> Net.init_params) (g : nat) (x : tensor) :
  cfg_traj cfg = false -> cfg_prob cfg = false ->
  2 <= state_size cfg < 21 -> 1 <= action_size cfg ->
  ncols x = DynamicsModel.n_in (DynamicsModel.init cfg p) ->
  DynamicsModel.predict x (DynamicsModel.St (DynamicsModel.init cfg p) g)
  = Err RuntimeError.
Proof.
  intros Ht Hp Hs Ha Hx.
  destruct (init_model_fields cfg p) as (Htr & Hin & Hout & _ & _).
  cbv zeta in Htr, Hin, Hout.
  rewrite (predict_members_average _ g x (wf_model_init cfg p) Hx).
  rewrite Htr, Ht. rewrite Ht in Hin. rewrite Hp in Hout.
  unfold add, bcast, cols_to, members_average, lift. cbv zeta.
  cbn [nrows ncols tab]. rewrite bdim_same. cbn [rbind].
  rewrite Hx, Hin, Hout. unfold bdim.
  destruct (Nat.eqb_spec (Nat.min 21 (state_size cfg + action_size cfg))
                         (Nat.min 21 (state_size cfg))); [lia|].
  destruct (Nat.eqb_spec (Nat.min 21 (state_size cfg + action_size cfg)) 1);
    [lia|].
  destruct (Nat.eqb_spec (Nat.min 21 (state_size cfg)) 1); [lia|].
  reflexivity.
Qed.

Lemma predict_onestep_narrow_state_raises_witness :
  DynamicsModel.predict x45
    (DynamicsModel.St (DynamicsModel.init cfg_onestep (fun _ => zero_params)) 0)
  = Err RuntimeError.
Proof.
  apply (predict_onestep_narrow_state_raises cfg_onestep
           (fun _ => zero_params) 0 x45).
  - reflexivity.
  - reflexivity.
  - simpl. lia.
  - simpl. lia.
  - reflexivity.
Defined.

End PredictAverage.
(** ** ProbLoss.forward: the value of the loss *)

Section ProbLossValue.

Import ProbLoss.

Lemma sum_n_plus (n : nat) (f g : nat -> R) :
  (sum_n n f + sum_n n g)%R = sum_n n (fun k => (f k + g k)%R).
Proof.
  unfold sum_n. induction (seq 0 n) as [|k l IH]; simpl; [lra|].
  rewrite <- IH. lra.
Qed.

Lemma sum_n_le (n : nat) (f g : nat -> R) :
  (forall k, k < n -> (f k <= g k)%R) -> (sum_n n f <= sum_n n g)%R.
Proof.
  unfold sum_n. intros H.
  assert (Hin : forall k, In k (seq 0 n) -> (f k <= g k)%R)
    by (intros k Hk; apply in_seq in Hk; apply H; lia).
  induction (seq 0 n) as [|k l IH]; simpl; [lra|].
  pose proof (Hin k (or_introl eq_refl)).
  assert ((fold_right (fun k acc => f k + acc) 0 l
           <= fold_right (fun k acc => g k + acc) 0 l)%R)
    by (apply IH; intros; apply Hin; now right).
  lra.
Qed.

Lemma sum_n_const (n : nat) (c : R) :
  sum_n n (fun _ => c) = (INR n * c)%R.
Proof.
  unfold sum_n. rewrite <- (length_seq n 0) at 2.
  induction (seq 0 n) as [|k l IH]; [simpl; lra|].
  cbn [fold_right]. rewrite IH.
  change (length (k :: l)) with (S (length l)). rewrite S_INR. lra.
Qed.

Lemma bdim_error (a b : nat) (e : error) :
  bdim a b = Err e -> e = RuntimeError.
Proof.
  unfold bdim. destruct (a =? b); [discriminate|].
  destruct (a =? 1); [discriminate|].
  destruct (b =? 1); [discriminate|]. intros H. now injection H.
Qed.

(** An operator between a tabulated tensor and one of the same shape. *)
Lemma bcast_tab_l (op : R -> R -> R) (r c : nat) (f : nat -> nat -> R)
      (B : tensor) :
  nrows B = r -> ncols B = c ->
  bcast op (tab r c f) B = Ok (tab r c (fun i j => op (f i j) (get B i j))).
Proof.
  intros Hr Hc. rewrite bcast_same by (simpl; congruence). simpl.
  f_equal. apply tab_ext. intros i j Hi Hj. now rewrite get_tab.
Qed.

(** The value of [forward] on shapes that fit: the sum over the batch and
    the coordinates of squared error over variance plus log-variance. *)
Lemma forward_eq_nll (self : t) (inputs targets : tensor) :
  wf_loss self -> ncols inputs = 2 * size self ->
  shape targets = (nrows inputs, size self) ->
  forward self inputs targets = Ok (nll self inputs targets).
Proof.
  intros Hwf Hc Ht. unfold shape in Ht. injection Ht as Htr Htc.
  unfold forward. rewrite (capped_logvar_eq _ _ Hwf Hc). cbn [rbind].
  unfold sub, div, cols_to. rewrite Hc.
  replace (Nat.min (size self) (2 * size self)) with (size self) by lia.
  rewrite (bcast_tab_l _ _ _ _ targets Htr Htc). cbn [rbind].
  rewrite tmap_tab, bcast_same_tab. cbn [rbind].
  unfold mm, transpose. cbn [nrows ncols tab]. rewrite Nat.eqb_refl.
  cbn [rbind]. f_equal. rewrite tmap_tab.
  unfold trace, sum, nll. cbn [nrows ncols tab]. rewrite Nat.min_id.
  rewrite sum_n_plus. apply sum_n_ext. intros i Hi.
  rewrite get_tab by assumption. rewrite sum_n_plus.
  apply sum_n_ext. intros j Hj.
  rewrite !get_tab by assumption. rewrite ln_exp.
  unfold nll_term. cbv zeta. unfold Rdiv. ring.
Qed.

(** [X7].  For a network output with [2 * size] columns and targets with
    [size] columns and as many rows, [forward] returns the Gaussian
    negative log-likelihood summed (not averaged) over the batch and the
    coordinates: [(mean - target)^2 / exp logvar + logvar], where [logvar]
    is the soft-clamped second half of the output. *)
Theorem probloss_forward_nll (self : t) (inputs targets : tensor) :
  wf_loss self -> ncols inputs = 2 * size self ->
  shape targets = (nrows inputs, size self) ->
  forward self inputs targets =
  Ok (sum_n (nrows inputs) (fun i =>
        sum_n (size self) (fun j =>
          let logvar := soft_clamp (get (max_logvar self) 0 j)
                                   (get (min_logvar self) 0 j)
                                   (get inputs i (size self + j)) in
          ((get inputs i j - get targets i j)
           * (get inputs i j - get targets i j) / exp logvar + logvar)%R))).
Proof. apply forward_eq_nll. Qed.

Lemma probloss_forward_nll_witness :
  forward (init 1) unit_var_batch (tab 2 1 (fun i _ => INR i)) =
  Ok (sum_n 2 (fun i =>
        sum_n 1 (fun j =>
          let logvar := soft_clamp (get (max_logvar (init 1)) 0 j)
                                   (get (min_logvar (init 1)) 0 j)
                                   (get unit_var_batch i (1 + j)) in
          ((get unit_var_batch i j - get (tab 2 1 (fun i _ => INR i)) i j)
           * (get unit_var_batch i j - get (tab 2 1 (fun i _ => INR i)) i j)
           / exp logvar + logvar)%R))).
Proof.
  apply (probloss_forward_nll (init 1) unit_var_batch
           (tab 2 1 (fun i _ => INR i))).
  - apply wf_loss_init.
  - reflexivity.
  - reflexivity.
Defined.

Lemma nll_term_lower (self : t) (inputs targets : tensor) (i j : nat) :
  (get (min_logvar self) 0 j < nll_term self inputs targets i j)%R.
Proof.
  unfold nll_term. cbv zeta.
  set (M := get (max_logvar self) 0 j). set (m := get (min_logvar self) 0 j).
  set (r := get inputs i (size self + j)).
  set (d := (get inputs i j - get targets i j)%R).
  pose proof (soft_below_gt m (soft_above M r)) as Hlow.
  fold (soft_clamp M m r) in Hlow.
  assert (Hq : (0 <= d * d / exp (soft_clamp M m r))%R).
  { unfold Rdiv. apply Rmult_le_pos; [nra|].
    left. apply Rinv_0_lt_compat, exp_pos. }
  lra.
Qed.

(** [X8].  The loss is bounded below by the lower bounds alone: on
    shapes that fit, [forward] returns a value of at least
    [batch * sum(min_logvar)], whatever the network output and the
    targets. *)
Theorem probloss_forward_lower_bound (self : t) (inputs targets : tensor) :
  wf_loss self -> ncols inputs = 2 * size self ->
  shape targets = (nrows inputs, size self) ->
  exists v,
    forward self inputs targets = Ok v /\
    (INR (nrows inputs) * sum_n (size self) (fun j => get (min_logvar self) 0 j)
     <= v)%R.
Proof.
  intros Hwf Hc Ht. exists (nll self inputs targets).
  split; [now apply forward_eq_nll|].
  rewrite <- sum_n_const. unfold nll.
  apply sum_n_le. intros i Hi. apply sum_n_le. intros j Hj.
  left. apply nll_term_lower.
Qed.

Lemma probloss_forward_lower_bound_witness :
  exists v,
    forward (init 1) unit_var_batch (tab 2 1 (fun i _ => INR i)) = Ok v /\
    (INR 2 * sum_n 1 (fun j => get (min_logvar (init 1)) 0 j) <= v)%R.
Proof.
  apply (probloss_forward_lower_bound (init 1) unit_var_batch
           (tab 2 1 (fun i _ => INR i))).
  - apply wf_loss_init.
  - reflexivity.
  - reflexivity.
Defined.

(** [X9].  Shapes that do not fit raise a shape error (for [size <> 1],
    where nothing can be broadcast over the coordinates): a network output
    whose log-variance part has neither [size] columns nor one; or, the
    output fitting, targets with neither [size] columns nor one, or, when
    the output does not have exactly one row, targets with a number of
    rows that is neither that of the output nor one.  (An output of
    exactly one row is broadcast over the rows of the targets, whatever
    their number.) *)
Theorem probloss_forward_shape_error (self : t) (inputs targets : tensor) :
  wf_loss self -> size self <> 1 ->
  (ncols inputs - size self <> size self /\ ncols inputs - size self <> 1) \/
  (ncols inputs = 2 * size self /\
   ((ncols targets <> size self /\ ncols targets <> 1) \/
    (nrows targets <> nrows inputs /\ nrows targets <> 1 /\
     nrows inputs <> 1))) ->
  forward self inputs targets = Err RuntimeError.
Proof.
  intros Hwf Hs1 H.
  destruct (wf_loss_shapes self Hwf) as (HMr & HMc & _ & _).
  destruct H as [[H1 H2] | [Hc H]].
  - unfold forward, capped_logvar, cap_above, sub, bcast.
    cbn [cols_from tab nrows ncols]. rewrite HMr, HMc, bdim_one_l.
    cbn [rbind]. unfold bdim.
    destruct (Nat.eqb_spec (size self) (ncols inputs - size self)); [lia|].
    destruct (Nat.eqb_spec (size self) 1); [lia|].
    destruct (Nat.eqb_spec (ncols inputs - size self) 1); [lia|].
    reflexivity.
  - unfold forward. rewrite (capped_logvar_eq _ _ Hwf Hc). cbn [rbind].
    unfold sub, bcast, cols_to. cbn [tab nrows ncols]. rewrite Hc.
    replace (Nat.min (size self) (2 * size self)) with (size self) by lia.
    destruct H as [[H1 H2] | (H1 & H2 & H3)].
    + destruct (bdim (nrows inputs) (nrows targets)) as [r|e] eqn:Hb;
        [| now rewrite (bdim_error _ _ _ Hb)].
      cbn [rbind]. unfold bdim.
      destruct (Nat.eqb_spec (size self) (ncols targets)); [lia|].
      destruct (Nat.eqb_spec (size self) 1); [lia|].
      destruct (Nat.eqb_spec (ncols targets) 1); [lia|].
      reflexivity.
    + unfold bdim at 1.
      destruct (Nat.eqb_spec (nrows inputs) (nrows targets)); [lia|].
      destruct (Nat.eqb_spec (nrows inputs) 1); [lia|].
      destruct (Nat.eqb_spec (nrows targets) 1); [lia|].
      reflexivity.
Qed.

Lemma probloss_forward_shape_error_witness :
  forward (init 3) (tab 4 5 (fun _ _ => 0%R)) (tab 4 3 (fun _ _ => 0%R))
  = Err RuntimeError.
Proof.
  apply (probloss_forward_shape_error (init 3)).
  - apply wf_loss_init.
  - simpl. lia.
  - left. simpl. lia.
Defined.

(** [X10].  [softplus_raw] keeps the shape of its input, and none of
    its entries is negative or smaller than the entry it was computed
    from. *)
Theorem softplus_raw_nonnegative (input : tensor) :
  shape (softplus_raw input) = shape input /\
  forall i j, i < nrows input -> j < ncols input ->
    (0 <= get (softplus_raw input) i j)%R /\
    (get input i j <= get (softplus_raw input) i j)%R.
Proof.
  split; [reflexivity|]. intros i j Hi Hj.
  unfold softplus_raw, tmap. rewrite get_tab by assumption.
  rewrite softplus_raw_elem. split.
  - apply softplus_nonneg.
  - apply softplus_ge.
Qed.

End ProbLossValue.
(** ** Reasoning about outcomes *)

Section Outcomes.

Lemma rpost_weaken {A} (r : result A) (Q Q' : A -> Prop) (P P' : error -> Prop) :
  rpost r Q P -> (forall a, Q a -> Q' a) -> (forall e, P e -> P' e) ->
  rpost r Q' P'.
Proof. destruct r; simpl; auto. Qed.

Lemma rpost_rbind {A B} (m : result A) (k : A -> result B)
      (Q : B -> Prop) (P : error -> Prop) :
  rpost m (fun a => rpost (k a) Q P) P -> rpost (rbind m k) Q P.
Proof. destruct m; simpl; auto. Qed.

Lemma rpost_runtime_bind {A B} (m : result A) (k : A -> result B) :
  rpost m (fun _ => True) is_runtime ->
  (forall a, rpost (k a) (fun _ => True) is_runtime) ->
  rpost (rbind m k) (fun _ => True) is_runtime.
Proof. destruct m; simpl; auto. Qed.

Lemma post_weaken {S A} (r : result (A * S)) (Q Q' : A -> S -> Prop)
      (P P' : error -> Prop) :
  post r Q P -> (forall a s, Q a s -> Q' a s) -> (forall e, P e -> P' e) ->
  post r Q' P'.
Proof. destruct r as [[a s]|e]; simpl; auto. Qed.

Lemma post_bind {S A B} (m : M S A) (k : A -> M S B) (s : S)
      (Q : B -> S -> Prop) (P : error -> Prop) :
  post (m s) (fun a s1 => post (k a s1) Q P) P -> post (bind m k s) Q P.
Proof. unfold post, bind. destruct (m s) as [[a s1]|e]; auto. Qed.

Lemma post_bind_get_state {S B} (k : S -> M S B) (s : S)
      (Q : B -> S -> Prop) (P : error -> Prop) :
  post (k s s) Q P -> post (bind get_state k s) Q P.
Proof. intros H. exact H. Qed.

Lemma post_bind_lift {S A B} (r : result A) (k : A -> M S B) (s : S)
      (Q : B -> S -> Prop) (P : error -> Prop) :
  rpost r (fun a => post (k a s) Q P) P -> post (bind (lift r) k s) Q P.
Proof. unfold bind, lift. destruct r; simpl; auto. Qed.

Lemma post_lift {S A} (r : result A) (s : S)
      (Q : A -> S -> Prop) (P : error -> Prop) :
  rpost r (fun a => Q a s) P -> post (lift r s) Q P.
Proof. unfold lift. destruct r; simpl; auto. Qed.

(** A loop keeps an invariant that its body keeps; the invariant may
    count the iterations. *)
Lemma post_for_each {T A B} (body : A -> B -> M T B)
      (I : nat -> B -> T -> Prop) (P : error -> Prop) :
  (forall a n b s, I n b s -> post (body a b s) (I (1 + n)) P) ->
  forall l n b s, I n b s ->
    post (for_each l body b s) (I (length l + n)) P.
Proof.
  intros Hbody. induction l as [|a l IH]; intros n b s HI;
    cbn [for_each length].
  - exact HI.
  - apply post_bind.
    apply (post_weaken _ _ _ _ _ (Hbody a n b s HI)); [|auto].
    intros b1 s1 H1. replace (S (length l) + n) with (length l + (1 + n)) by lia.
    now apply IH.
Qed.

End Outcomes.

(** ** Shape errors are the only errors of the tensor code *)

Section RuntimeErrors.

Lemma bdim_runtime (a b : nat) : rpost (bdim a b) (fun _ => True) is_runtime.
Proof.
  unfold bdim. destruct (a =? b); [exact I|].
  destruct (a =? 1); [exact I|]. destruct (b =? 1); [exact I | reflexivity].
Qed.

Lemma bcast_runtime (op : R -> R -> R) (A B : tensor) :
  rpost (bcast op A B) (fun _ => True) is_runtime.
Proof.
  unfold bcast. apply rpost_runtime_bind; [apply bdim_runtime|].
  intros r. apply rpost_runtime_bind; [apply bdim_runtime|].
  intros c. exact I.
Qed.

Lemma mm_runtime (A B : tensor) : rpost (mm A B) (fun _ => True) is_runtime.
Proof. unfold mm. destruct (ncols A =? nrows B); [exact I | reflexivity]. Qed.

Ltac runtime :=
  cbv zeta;
  lazymatch goal with
  | |- rpost (rbind _ _) _ _ =>
      apply rpost_runtime_bind; [runtime | intros ?; runtime]
  | |- rpost (bcast _ _ _) _ _ => apply bcast_runtime
  | |- rpost (mm _ _) _ _ => apply mm_runtime
  | |- rpost (Ok _) _ _ => exact I
  end.

Lemma apply_layer_runtime (l : Net.layer) (x : tensor) :
  rpost (Net.apply_layer l x) (fun _ => True) is_runtime.
Proof.
  destruct l as [weight bias|]; simpl; [|exact I].
  apply rpost_runtime_bind; [apply mm_runtime|].
  intros y. apply bcast_runtime.
Qed.

Lemma apply_Sequential_runtime (f : Net.Sequential) (x : tensor) :
  rpost (Net.apply_Sequential f x) (fun _ => True) is_runtime.
Proof.
  revert x. induction f as [|[name l] f IH]; intros x; simpl; [exact I|].
  apply rpost_runtime_bind; [apply apply_layer_runtime | exact IH].
Qed.

Lemma probloss_forward_runtime (pl : ProbLoss.t) (inputs targets : tensor) :
  rpost (ProbLoss.forward pl inputs targets) (fun _ => True) is_runtime.
Proof.
  unfold ProbLoss.forward, ProbLoss.capped_logvar, ProbLoss.cap_above,
    ProbLoss.cap_below, sub, add, div.
  runtime.
Qed.

Lemma apply_loss_runtime (l : Net.loss) (outputs targets : tensor) :
  rpost (Net.apply_loss l outputs targets) (fun _ => True) is_runtime.
Proof.
  destruct l as [|pl]; simpl.
  - unfold Net.mse_loss, sub.
    apply rpost_runtime_bind; [apply bcast_runtime | intros d; exact I].
  - apply probloss_forward_runtime.
Qed.

Lemma stack_runtime (rows : list (list R)) :
  rpost (DataLoader.stack rows) (fun _ => True) is_runtime.
Proof.
  unfold DataLoader.stack. cbv zeta.
  destruct (forallb _ rows); [exact I | reflexivity].
Qed.

Lemma collate_all_runtime (bs : list (list DataLoader.sample)) :
  rpost (DataLoader.collate_all bs) (fun _ => True) is_runtime.
Proof.
  induction bs as [|b bs IH]; simpl; [exact I|].
  apply rpost_runtime_bind.
  - unfold DataLoader.collate.
    apply rpost_runtime_bind; [apply stack_runtime | intros i].
    apply rpost_runtime_bind; [apply stack_runtime | intros t; exact I].
  - intros x. apply rpost_runtime_bind; [exact IH | intros xs; exact I].
Qed.

End RuntimeErrors.
(** ** Net.optimize: what a call can end in *)

Section OptimizeOutcomes.

Variable OptState : Type.
Variable Adam : Net.Sequential -> R -> OptState.
Variable step : OptState -> Net.loss -> Net.Sequential -> tensor -> tensor ->
                OptState * Net.Sequential.
Variable shuffle : nat -> list DataLoader.sample -> list DataLoader.sample * nat.

Lemma forward_post (x : tensor) (s : Net.state) :
  post (Net.forward x s) (fun _ s' => s' = s) is_runtime.
Proof.
  unfold Net.forward. apply post_bind_get_state. apply post_lift.
  apply (rpost_weaken _ _ _ _ _ (apply_Sequential_runtime _ x)); auto.
Qed.

Lemma enumerate_post (l : DataLoader.t) (s : Net.state) :
  post (Net.enumerate shuffle l s)
       (fun _ s' => Net.self s' = Net.self s) is_runtime.
Proof.
  unfold Net.enumerate. apply post_bind_get_state.
  destruct (shuffle (Net.rng s) (DataLoader.dataset l)) as [order g].
  unfold bind, put_state. apply post_lift.
  apply (rpost_weaken _ _ _ _ _ (collate_all_runtime _)); auto.
Qed.

Lemma py_div_ok (x : R) (d : Z) :
  d <> 0%Z -> py_div x d = Ok (x / IZR d)%R.
Proof.
  intros Hd. unfold py_div.
  destruct (Z.eqb_spec d 0); [contradiction | reflexivity].
Qed.

(** A training step replaces [features] and nothing else. *)
Lemma train_batch_post (trainLoader : DataLoader.t) (bs : Z)
      (b : tensor * tensor) (acc : OptState * R) (s : Net.state) :
  (Z.of_nat (DataLoader.len trainLoader) * bs <> 0)%Z ->
  post (Net.train_batch OptState step trainLoader bs b acc s)
       (fun _ s' => signature (Net.self s') = signature (Net.self s))
       is_runtime.
Proof.
  intros Hd. destruct b as [inputs targets], acc as [optimizer train_error].
  unfold Net.train_batch. apply post_bind.
  apply (post_weaken _ _ _ _ _ (forward_post inputs s)); [|auto].
  intros outputs s1 ->. apply post_bind_get_state. apply post_bind_lift.
  apply (rpost_weaken _ _ _ _ _ (apply_loss_runtime _ outputs targets));
    [|auto].
  intros loss _. rewrite (py_div_ok _ _ Hd).
  unfold bind at 1, lift at 1.
  destruct (step optimizer _ _ inputs targets) as [optimizer' f'].
  reflexivity.
Qed.

Lemma test_batch_post (testLoader : DataLoader.t) (bs : Z)
      (b : tensor * tensor) (test_error : R) (s : Net.state) :
  (Z.of_nat (DataLoader.len testLoader) * bs <> 0)%Z ->
  post (Net.test_batch testLoader bs b test_error s)
       (fun _ s' => s' = s) is_runtime.
Proof.
  intros Hd. destruct b as [inputs targets].
  unfold Net.test_batch. apply post_bind.
  apply (post_weaken _ _ _ _ _ (forward_post inputs s)); [|auto].
  intros outputs s1 ->. apply post_bind_get_state. apply post_bind_lift.
  apply (rpost_weaken _ _ _ _ _ (apply_loss_runtime _ outputs targets));
    [|auto].
  intros loss _. rewrite (py_div_ok _ _ Hd). reflexivity.
Qed.

(** One epoch appends one entry to each error sequence. *)
Lemma epoch_body_post (trainLoader testLoader : DataLoader.t) (bs : Z)
      (epoch : nat) (acc : OptState * list R * list R) (s : Net.state) :
  (Z.of_nat (DataLoader.len trainLoader) * bs <> 0)%Z ->
  (Z.of_nat (DataLoader.len testLoader) * bs <> 0)%Z ->
  post (Net.epoch_body OptState step shuffle trainLoader testLoader bs
          epoch acc s)
       (fun acc' s' =>
          length (snd (fst acc')) = 1 + length (snd (fst acc)) /\
          length (snd acc') = 1 + length (snd acc) /\
          signature (Net.self s') = signature (Net.self s))
       is_runtime.
Proof.
  intros Htr Hte. destruct acc as [[optimizer train_errors] test_errors].
  unfold Net.epoch_body. apply post_bind.
  apply (post_weaken _ _ _ _ _ (enumerate_post trainLoader s)); [|auto].
  intros bt s1 H1. apply post_bind.
  pose proof (post_for_each
                (Net.train_batch OptState step trainLoader bs)
                (fun _ _ s' => signature (Net.self s') = signature (Net.self s))
                is_runtime) as Hloop.
  apply (post_weaken _ _ _ _ _
           (Hloop (fun a n b s0 H0 =>
                     post_weaken _ _ _ _ _
                       (train_batch_post trainLoader bs a b s0 Htr)
                       (fun _ s' H' => eq_trans H' H0) (fun e H => H))
                  bt 0 (optimizer, 0%R) s1 (f_equal signature H1)));
    [|auto].
  intros [optimizer' train_error] s2 H2. apply post_bind.
  apply (post_weaken _ _ _ _ _ (enumerate_post testLoader s2)); [|auto].
  intros be s3 H3. apply post_bind.
  pose proof (post_for_each
                (Net.test_batch testLoader bs)
                (fun _ _ s' => s' = s3) is_runtime) as Hloop'.
  apply (post_weaken _ _ _ _ _
           (Hloop' (fun a n b s0 H0 =>
                      post_weaken _ _ _ _ _
                        (test_batch_post testLoader bs a b s0 Hte)
                        (fun _ s' H' => eq_trans H' H0) (fun e H => H))
                   be 0 0%R s3 eq_refl));
    [|auto].
  intros test_error s4 ->. cbn [post ret fst snd].
  rewrite !length_app. cbn [length].
  split; [lia|]. split; [lia|]. rewrite H3. exact H2.
Qed.

Lemma DataLoader_new_ok (ds : list DataLoader.sample) (bs : Z) :
  ds <> [] -> (0 < bs)%Z ->
  DataLoader.new ds bs = Ok (DataLoader.Build ds (Z.to_nat bs)).
Proof.
  intros Hds Hbs. unfold DataLoader.new.
  destruct ds as [|a ds]; [contradiction|]. cbn [length Nat.eqb].
  destruct (Z.leb_spec bs 0); [lia | reflexivity].
Qed.

Lemma DataLoader_new_fails (ds : list DataLoader.sample) (bs : Z) :
  ds = [] \/ (bs <= 0)%Z -> DataLoader.new ds bs = Err ValueError.
Proof.
  intros H. unfold DataLoader.new.
  destruct ds as [|a ds]; [reflexivity|]. cbn [length Nat.eqb].
  destruct H as [H | H]; [discriminate|].
  destruct (Z.leb_spec bs 0); [reflexivity | lia].
Qed.

(** A loader that was built has at least one batch: the divisor
    [len(loader) * bs] is not zero. *)
Lemma DataLoader_divisor (ds : list DataLoader.sample) (bs : Z) :
  ds <> [] -> (0 < bs)%Z ->
  (Z.of_nat (DataLoader.len (DataLoader.Build ds (Z.to_nat bs))) * bs <> 0)%Z.
Proof.
  intros Hds Hbs. unfold DataLoader.len.
  cbn [DataLoader.dataset DataLoader.batch_size].
  assert (Hn : 0 < length ds) by (destruct ds; [contradiction | simpl; lia]).
  assert (Hb : 0 < Z.to_nat bs) by lia.
  assert (Hq : 0 < (length ds + Z.to_nat bs - 1) / Z.to_nat bs)
    by (apply Nat.div_str_pos; lia).
  lia.
Qed.

(** The two ways a call of [optimize] can go: either a loader cannot be
    built and the call raises [ValueError]; or both are built, and then
    the call either raises a shape error or returns one train and one test
    error per epoch, having replaced nothing but [features]. *)
Lemma optimize_cases (dataset : tensor * tensor) (cfg : Config)
      (s : Net.state) :
  let ds := combine (Net.rows (fst dataset)) (Net.rows (snd dataset)) in
  let k := py_int (split cfg * inject_Z (Z.of_nat (length ds))) in
  (((batch cfg <= 0)%Z \/ slice_to ds k = [] \/ slice_from ds k = []) /\
   Net.optimize OptState Adam step shuffle dataset cfg s = Err ValueError)
  \/
  (((0 < batch cfg)%Z /\ slice_to ds k <> [] /\ slice_from ds k <> []) /\
   post (Net.optimize OptState Adam step shuffle dataset cfg s)
        (fun r s' =>
           length (fst r) = Z.to_nat (epochs cfg) /\
           length (snd r) = Z.to_nat (epochs cfg) /\
           signature (Net.self s') = signature (Net.self s))
        is_runtime).
Proof.
  intros ds k.
  unfold Net.optimize. cbv zeta. fold ds. fold k.
  unfold bind at 1, get_state at 1.
  destruct (Z.leb_spec (batch cfg) 0) as [Hb | Hb].
  { left. split; [now left|].
    rewrite (DataLoader_new_fails (slice_to ds k)) by now right.
    reflexivity. }
  destruct (slice_to ds k) as [|a tr] eqn:Htr.
  { left. split; [right; now left | reflexivity]. }
  destruct (slice_from ds k) as [|a' te] eqn:Hte.
  { left. split; [right; now right|].
    rewrite DataLoader_new_ok by (discriminate || assumption).
    reflexivity. }
  right. split; [repeat split; (assumption || discriminate)|].
  rewrite !DataLoader_new_ok by (discriminate || assumption).
  apply post_bind_lift. cbn [rpost].
  apply post_bind_lift. cbn [rpost].
  apply post_bind.
  pose proof (post_for_each
    (Net.epoch_body OptState step shuffle
       (DataLoader.Build (a :: tr) (Z.to_nat (batch cfg)))
       (DataLoader.Build (a' :: te) (Z.to_nat (batch cfg))) (batch cfg))
    (fun n acc s' =>
       length (snd (fst acc)) = n /\ length (snd acc) = n /\
       signature (Net.self s') = signature (Net.self s))
    is_runtime) as Hloop.
  refine (post_weaken _ _ _ _ _ (Hloop _ (range (epochs cfg)) 0 _ s _) _ _).
  - intros epoch n acc s0 (H1 & H2 & H3).
    refine (post_weaken _ _ _ _ _
              (epoch_body_post _ _ (batch cfg) epoch acc s0 _ _) _ _).
    + apply DataLoader_divisor; [discriminate | assumption].
    + apply DataLoader_divisor; [discriminate | assumption].
    + intros acc' s' (H1' & H2' & H3'). repeat split; congruence.
    + auto.
  - repeat split.
  - intros [[optimizer train_errors] test_errors] s' (H1 & H2 & H3).
    cbn [post ret fst snd] in *.
    unfold range in H1, H2. rewrite length_seq, Nat.add_0_r in H1, H2.
    auto.
  - auto.
Qed.

(** [X11].  A call of [optimize] that returns has produced one train
    error and one test error per epoch ([epochs] of each, none for
    [epochs <= 0]), and has replaced nothing of the net but the
    parameters in [features]: [n_in], [n_out], [hidden_w] and the loss
    function (with its variance bounds) are as before. *)
Theorem optimize_epoch_count (dataset : tensor * tensor) (cfg : Config)
        (s s' : Net.state) (train_errors test_errors : list R) :
  Net.optimize OptState Adam step shuffle dataset cfg s
    = Ok ((train_errors, test_errors), s') ->
  length train_errors = Z.to_nat (epochs cfg) /\
  length test_errors = Z.to_nat (epochs cfg) /\
  Net.n_in (Net.self s') = Net.n_in (Net.self s) /\
  Net.n_out (Net.self s') = Net.n_out (Net.self s) /\
  Net.hidden_w (Net.self s') = Net.hidden_w (Net.self s) /\
  Net.loss_fn (Net.self s') = Net.loss_fn (Net.self s).
Proof.
  intros H.
  destruct (optimize_cases dataset cfg s) as [[_ He] | [_ Hp]].
  - rewrite H in He. discriminate.
  - rewrite H in Hp. cbn [post fst snd] in Hp.
    destruct Hp as (H1 & H2 & H3). unfold signature in H3.
    injection H3 as Ha Hb Hc Hd. auto 10.
Qed.




End OptimizeOutcomes.

Section OptimizeOutcomesExamples.

Lemma optimize_epoch_count_witness :
  exists train_errors test_errors s',
    Net.optimize unit adam0 step0 shuffle0 data5 cfg_onestep (Net.St net0 0)
      = Ok ((train_errors, test_errors), s') /\
    length train_errors = 1 /\ length test_errors = 1.
Proof.
  destruct (Net.optimize unit adam0 step0 shuffle0 data5 cfg_onestep
              (Net.St net0 0)) as [[[tr te] s']|e] eqn:H.
  - exists tr, te, s'. split; [reflexivity|].
    destruct (optimize_epoch_count unit adam0 step0 shuffle0 data5 cfg_onestep
                (Net.St net0 0) s' tr te H) as (H1 & H2 & _).
    split; assumption.
  - exfalso. vm_compute in H. discriminate.
Defined.


End OptimizeOutcomesExamples.
(** ** DynamicsModel.train *)

Section TrainOutcomes.

Variable OptState : Type.
Variable Adam : Net.Sequential -> R -> OptState.
Variable step : OptState -> Net.loss -> Net.Sequential -> tensor -> tensor ->
                OptState * Net.Sequential.
Variable shuffle : nat -> list DataLoader.sample -> list DataLoader.sample * nat.

Lemma same_frame_refl (m : DynamicsModel.t) : same_frame m m.
Proof.
  unfold same_frame. repeat split.
  induction (DynamicsModel.nets m); constructor; auto.
Qed.

Lemma Forall2_signature_trans (l1 l2 l3 : list Net.t) :
  Forall2 (fun n n' => signature n' = signature n) l1 l2 ->
  Forall2 (fun n n' => signature n' = signature n) l2 l3 ->
  Forall2 (fun n n' => signature n' = signature n) l1 l3.
Proof.
  intros H12. revert l3. induction H12 as [|a b l1 l2 Hab _ IH];
    intros l3 H23; inversion H23; subst; constructor.
  - congruence.
  - now apply IH.
Qed.

Lemma same_frame_trans (m1 m2 m3 : DynamicsModel.t) :
  same_frame m1 m2 -> same_frame m2 m3 -> same_frame m1 m3.
Proof.
  unfold same_frame.
  intros (A1 & A2 & A3 & A4 & A5 & A6 & A7 & A8)
         (B1 & B2 & B3 & B4 & B5 & B6 & B7 & B8).
  repeat split; try congruence.
  eapply Forall2_signature_trans; eassumption.
Qed.

Lemma set_nth_signature (l : list Net.t) (i : nat) (n n' : Net.t) :
  nth_error l i = Some n -> signature n' = signature n ->
  Forall2 (fun a b => signature b = signature a) l (set_nth i n' l).
Proof.
  revert i. induction l as [|a l IH]; intros [|i] Hn Hs; simpl in *;
    try discriminate.
  - injection Hn as ->. constructor; [exact Hs|].
    clear. induction l; constructor; auto.
  - constructor; [reflexivity | now apply IH].
Qed.

Lemma set_net_frame (m : DynamicsModel.t) (i : nat) (n n' : Net.t) :
  nth_error (DynamicsModel.nets m) i = Some n ->
  signature n' = signature n ->
  same_frame m (DynamicsModel.set_net i n' m).
Proof.
  intros Hn Hs. unfold same_frame, DynamicsModel.set_net.
  cbn [DynamicsModel.ens DynamicsModel.traj DynamicsModel.prob DynamicsModel.E
       DynamicsModel.n_in DynamicsModel.n_out DynamicsModel.loss_fn
       DynamicsModel.nets].
  repeat split. now apply set_nth_signature with (n := n).
Qed.

(** A member trained in place: the model changes in that member's
    [features] only. *)
Lemma on_net_optimize_post (i : nat) (dataset : tensor * tensor)
      (cfg : Config) (s : DynamicsModel.state) :
  post (DynamicsModel.on_net i
          (DynamicsModel.optimize OptState Adam step shuffle dataset cfg) s)
       (fun r s' =>
          length (fst r) = Z.to_nat (epochs cfg) /\
          length (snd r) = Z.to_nat (epochs cfg) /\
          same_frame (DynamicsModel.self s) (DynamicsModel.self s'))
       (fun _ => True).
Proof.
  unfold DynamicsModel.on_net, DynamicsModel.optimize.
  destruct (nth_error (DynamicsModel.nets (DynamicsModel.self s)) i)
    as [n|] eqn:Hn; [|exact I].
  destruct (optimize_cases OptState Adam step shuffle dataset cfg
              (Net.St n (DynamicsModel.rng s))) as [[_ He] | [_ Hp]].
  - rewrite He. exact I.
  - destruct (Net.optimize _ _ _ _ _ _ _) as [[r ns]|e]; [|exact I].
    cbn [post Net.self] in *. destruct Hp as (H1 & H2 & H3).
    split; [exact H1|]. split; [exact H2|].
    now apply set_net_frame with (n := n).
Qed.

Lemma train_member_post (dataset : tensor * tensor) (cfg : Config)
      (it : nat * (list nat * list nat))
      (acc : list (list R) * list (list R)) (s : DynamicsModel.state) :
  post (DynamicsModel.train_member OptState Adam step shuffle dataset cfg
          it acc s)
       (fun acc' s' =>
          (exists tr te,
             acc' = (fst acc ++ [tr], snd acc ++ [te]) /\
             length tr = Z.to_nat (epochs cfg) /\
             length te = Z.to_nat (epochs cfg)) /\
          same_frame (DynamicsModel.self s) (DynamicsModel.self s'))
       (fun _ => True).
Proof.
  destruct it as [i [train_idx test_idx]], acc as [acctrain_l acctest_l].
  unfold DynamicsModel.train_member.
  apply post_bind_lift.
  destruct (take_rows (fst dataset) train_idx) as [X|e]; [|exact I].
  cbn [rpost]. apply post_bind_lift.
  destruct (take_rows (snd dataset) train_idx) as [Y|e]; [|exact I].
  cbn [rpost]. apply post_bind.
  apply (post_weaken _ _ _ _ _ (on_net_optimize_post i (X, Y) cfg s)); [|auto].
  intros [train_e test_e] s' (H1 & H2 & H3). cbn [post ret fst snd] in *.
  split; [|exact H3]. exists train_e, test_e. auto.
Qed.

Lemma train_loop_post (dataset : tensor * tensor) (cfg : Config)
      (its : list (nat * (list nat * list nat))) (s : DynamicsModel.state) :
  post (for_each its
          (DynamicsModel.train_member OptState Adam step shuffle dataset cfg)
          ([], []) s)
       (fun acc s' =>
          length (fst acc) = length its /\ length (snd acc) = length its /\
          Forall (fun l => length l = Z.to_nat (epochs cfg)) (fst acc) /\
          Forall (fun l => length l = Z.to_nat (epochs cfg)) (snd acc) /\
          same_frame (DynamicsModel.self s) (DynamicsModel.self s'))
       (fun _ => True).
Proof.
  pose proof (post_for_each
    (DynamicsModel.train_member OptState Adam step shuffle dataset cfg)
    (fun n acc s' =>
       length (fst acc) = n /\ length (snd acc) = n /\
       Forall (fun l => length l = Z.to_nat (epochs cfg)) (fst acc) /\
       Forall (fun l => length l = Z.to_nat (epochs cfg)) (snd acc) /\
       same_frame (DynamicsModel.self s) (DynamicsModel.self s'))
    (fun _ => True)) as Hloop.
  refine (post_weaken _ _ _ _ _ (Hloop _ its 0 ([], []) s _) _ _).
  - intros it n acc s0 (H1 & H2 & H3 & H4 & H5).
    apply (post_weaken _ _ _ _ _ (train_member_post dataset cfg it acc s0));
      [|auto].
    intros acc' s' [(tr & te & -> & Htr & Hte) Hf]. cbn [fst snd].
    rewrite !length_app. cbn [length].
    split; [lia|]. split; [lia|].
    split; [apply Forall_app; split; [exact H3 | now constructor]|].
    split; [apply Forall_app; split; [exact H4 | now constructor]|].
    now apply same_frame_trans with (m2 := DynamicsModel.self s0).
  - cbn [fst snd length].
    split; [reflexivity|]. split; [reflexivity|].
    split; [constructor|]. split; [constructor|]. apply same_frame_refl.
  - intros acc s' (H1 & H2 & H3). rewrite Nat.add_0_r in H1, H2. auto.
  - auto.
Qed.

Lemma folds_length (m : DynamicsModel.t) (dataset : tensor * tensor)
      (fs : list (list nat * list nat)) :
  DynamicsModel.folds m dataset = Ok fs ->
  length (combine (seq 0 (length (DynamicsModel.nets m))) fs)
  = Nat.min (length (DynamicsModel.nets m)) (DynamicsModel.E m).
Proof.
  unfold DynamicsModel.folds, KFold.new.
  destruct (DynamicsModel.E m <=? 1); [discriminate|]. cbn [rbind].
  destruct (DynamicsModel.nets m) as [|n ns].
  - intros H. injection H as <-. reflexivity.
  - unfold KFold.split. cbn [KFold.n_splits].
    destruct (nrows (fst dataset) <? DynamicsModel.E m); [discriminate|].
    intros H. injection H as <-.
    now rewrite length_combine, length_seq, folds_from_length,
      fold_sizes_length.
Qed.

(** [X14].  A call of [train] that returns has recorded what it returns
    in [self.acctrain] and [self.acctest]: one error sequence per trained
    member (one without ensembling, [min(len(nets), E)] with it), each
    with one entry per epoch.  The flags, sizes and loss function of the
    model and the number of members are as before, and every member has
    kept its [n_in], [n_out], [hidden_w] and loss function. *)
Theorem train_records (dataset : tensor * tensor) (cfg : Config)
        (s s' : DynamicsModel.state) (acctrain_l acctest_l : list (list R)) :
  DynamicsModel.train OptState Adam step shuffle dataset cfg s
    = Ok ((acctrain_l, acctest_l), s') ->
  let m := DynamicsModel.self s in
  let m' := DynamicsModel.self s' in
  DynamicsModel.acctrain m' = Some acctrain_l /\
  DynamicsModel.acctest m' = Some acctest_l /\
  length acctrain_l =
    (if DynamicsModel.ens m
     then Nat.min (length (DynamicsModel.nets m)) (DynamicsModel.E m)
     else 1) /\
  length acctest_l = length acctrain_l /\
  Forall (fun l => length l = Z.to_nat (epochs cfg)) acctrain_l /\
  Forall (fun l => length l = Z.to_nat (epochs cfg)) acctest_l /\
  DynamicsModel.ens m' = DynamicsModel.ens m /\
  DynamicsModel.traj m' = DynamicsModel.traj m /\
  DynamicsModel.prob m' = DynamicsModel.prob m /\
  DynamicsModel.E m' = DynamicsModel.E m /\
  DynamicsModel.n_in m' = DynamicsModel.n_in m /\
  DynamicsModel.n_out m' = DynamicsModel.n_out m /\
  DynamicsModel.loss_fn m' = DynamicsModel.loss_fn m /\
  Forall2 (fun n n' => Net.n_in n' = Net.n_in n /\
                       Net.n_out n' = Net.n_out n /\
                       Net.hidden_w n' = Net.hidden_w n /\
                       Net.loss_fn n' = Net.loss_fn n)
          (DynamicsModel.nets m) (DynamicsModel.nets m').
Proof.
  intros H. cbv zeta.
  assert (Hp : post (DynamicsModel.train OptState Adam step shuffle dataset
                       cfg s)
                 (fun r s' =>
                    DynamicsModel.acctrain (DynamicsModel.self s')
                      = Some (fst r) /\
                    DynamicsModel.acctest (DynamicsModel.self s')
                      = Some (snd r) /\
                    length (fst r) =
                      (if DynamicsModel.ens (DynamicsModel.self s)
                       then Nat.min
                              (length (DynamicsModel.nets
                                         (DynamicsModel.self s)))
                              (DynamicsModel.E (DynamicsModel.self s))
                       else 1) /\
                    length (snd r) = length (fst r) /\
                    Forall (fun l => length l = Z.to_nat (epochs cfg)) (fst r) /\
                    Forall (fun l => length l = Z.to_nat (epochs cfg)) (snd r) /\
                    same_frame (DynamicsModel.self s) (DynamicsModel.self s'))
                 (fun _ => True)).
  { clear H. unfold DynamicsModel.train. apply post_bind_get_state.
    apply post_bind.
    destruct (DynamicsModel.ens (DynamicsModel.self s)) eqn:Hens.
    - apply post_bind_lift.
      destruct (DynamicsModel.folds (DynamicsModel.self s) dataset)
        as [fs|e] eqn:Hfs; [|exact I].
      cbn [rpost].
      apply (post_weaken _ _ _ _ _ (train_loop_post dataset cfg _ s)); [|auto].
      intros [tr te] s1 (H1 & H2 & H3 & H4 & H5). cbn [fst snd] in *.
      rewrite (folds_length _ _ _ Hfs) in H1, H2.
      unfold DynamicsModel.set_acc, bind, get_state, put_state, ret.
      cbn [post fst snd DynamicsModel.self DynamicsModel.acctrain
           DynamicsModel.acctest].
      repeat (split; [first [reflexivity | assumption | congruence]|]).
      destruct H5 as (A1 & A2 & A3 & A4 & A5 & A6 & A7 & A8).
      unfold same_frame. cbn. auto 10.
    - apply post_bind.
      apply (post_weaken _ _ _ _ _ (on_net_optimize_post 0 dataset cfg s));
        [|auto].
      intros [tr te] s1 (H1 & H2 & H5). cbn [fst snd] in *.
      unfold DynamicsModel.set_acc, bind, get_state, put_state, ret.
      cbn [post fst snd DynamicsModel.self DynamicsModel.acctrain
           DynamicsModel.acctest length].
      repeat (split; [first [reflexivity | now repeat constructor]|]).
      destruct H5 as (A1 & A2 & A3 & A4 & A5 & A6 & A7 & A8).
      unfold same_frame. cbn. auto 10. }
  rewrite H in Hp. cbn [post fst snd] in Hp.
  destruct Hp as (H1 & H2 & H3 & H4 & H5 & H6 & H7).
  destruct H7 as (A1 & A2 & A3 & A4 & A5 & A6 & A7 & A8).
  repeat (split; [assumption|]).
  clear - A8. induction A8 as [|n n' l l' Hs _ IH]; constructor; [|exact IH].
  unfold signature in Hs. injection Hs as Ha Hb Hc Hd. auto.
Qed.

(** [X15].  With ensembling, [train] raises [ValueError] before any
    member is trained when [E <= 1] (the fold constructor wants at least
    two folds), and when the model has members and the dataset has fewer
    than [E] samples. *)
Theorem train_kfold_raises (dataset : tensor * tensor) (cfg : Config)
        (m : DynamicsModel.t) (g : nat) :
  DynamicsModel.ens m = true ->
  DynamicsModel.E m <= 1 \/
  (DynamicsModel.nets m <> [] /\ nrows (fst dataset) < DynamicsModel.E m) ->
  DynamicsModel.train OptState Adam step shuffle dataset cfg
    (DynamicsModel.St m g) = Err ValueError.
Proof.
  intros Hens H.
  unfold DynamicsModel.train, bind at 1, get_state at 1.
  cbn [DynamicsModel.self]. rewrite Hens.
  assert (Hf : DynamicsModel.folds m dataset = Err ValueError).
  { unfold DynamicsModel.folds, KFold.new.
    destruct (Nat.leb_spec (DynamicsModel.E m) 1) as [H1 | H1];
      [reflexivity|].
    destruct H as [H | [Hn HN]]; [lia|]. cbn [rbind].
    destruct (DynamicsModel.nets m); [contradiction|].
    unfold KFold.split. cbn [KFold.n_splits].
    destruct (Nat.ltb_spec (nrows (fst dataset)) (DynamicsModel.E m));
      [reflexivity | lia]. }
  unfold bind, lift. now rewrite Hf.
Qed.

Lemma take_rows_ok (A : tensor) (idx : list nat) :
  (forall i, In i idx -> i < nrows A) ->
  take_rows A idx = Ok (T (length idx) (ncols A) (map (row A) idx)).
Proof.
  intros H. unfold take_rows.
  replace (forallb (fun i => i <? nrows A) idx) with true; [reflexivity|].
  symmetry. apply forallb_forall. intros i Hi. apply Nat.ltb_lt. now apply H.
Qed.

Lemma take_rows_out_of_range (A : tensor) (idx : list nat) (i : nat) :
  In i idx -> nrows A <= i -> take_rows A idx = Err IndexError.
Proof.
  intros Hi Hr. unfold take_rows.
  destruct (forallb (fun i => i <? nrows A) idx) eqn:Hf; [|reflexivity].
  rewrite forallb_forall in Hf. apply Hf, Nat.ltb_lt in Hi. lia.
Qed.

(** [X16].  With ensembling and [2 <= E <= N] for [N] input rows, a
    dataset with fewer target rows than input rows makes [train] raise
    [IndexError] at the first member: its training indices reach the last
    input row, which the targets do not have. *)
Theorem train_short_targets_raises (dataset : tensor * tensor) (cfg : Config)
        (m : DynamicsModel.t) (g : nat) :
  DynamicsModel.ens m = true ->
  length (DynamicsModel.nets m) = DynamicsModel.E m ->
  2 <= DynamicsModel.E m <= nrows (fst dataset) ->
  nrows (snd dataset) < nrows (fst dataset) ->
  DynamicsModel.train OptState Adam step shuffle dataset cfg
    (DynamicsModel.St m g) = Err IndexError.
Proof.
  intros Hens HL [HE HN] HY.
  unfold DynamicsModel.train, bind at 1, get_state at 1.
  cbn [DynamicsModel.self]. rewrite Hens.
  rewrite (folds_eq m dataset HL HE HN).
  pose proof (fold_sizes_small _ _ HE HN) as Hsmall.
  rewrite HL.
  destruct (DynamicsModel.E m) as [|[|e]]; [lia | lia |].
  unfold KFold.fold_sizes in *. cbn [seq map] in *.
  set (s0 := nrows (fst dataset) / S (S e)
             + (if 0 <? nrows (fst dataset) mod S (S e) then 1 else 0)) in *.
  assert (Hs0 : s0 < nrows (fst dataset)) by (now inversion Hsmall).
  clear Hsmall. cbn [KFold.folds_from].
  change (filter (fun i => negb (existsb (Nat.eqb i) (seq 0 s0)))
                 (seq 0 (nrows (fst dataset))))
    with (filter (fun i => negb (mem i (seq 0 s0)))
                 (seq 0 (nrows (fst dataset)))).
  rewrite train_index_blocks by lia. cbn [seq app Nat.add].
  unfold bind at 1. unfold bind at 1, lift at 1.
  cbn [combine for_each].
  unfold bind at 1. unfold DynamicsModel.train_member at 1.
  rewrite take_rows_ok by (intros i Hi; apply in_seq in Hi; lia).
  unfold bind at 1, lift at 1.
  rewrite (take_rows_out_of_range _ _ (nrows (fst dataset) - 1))
    by (try apply in_seq; lia).
  reflexivity.
Qed.

End TrainOutcomes.

Section TrainOutcomesExamples.

Lemma train_short_targets_raises_witness :
  DynamicsModel.train unit adam0 step0 shuffle0 data5_short
    cfg_ensemble_of_three
    (DynamicsModel.St
       (DynamicsModel.init cfg_ensemble_of_three (fun _ => zero_params)) 0)
  = Err IndexError.
Proof.
  apply (train_short_targets_raises unit adam0 step0 shuffle0 data5_short
           cfg_ensemble_of_three).
  - reflexivity.
  - reflexivity.
  - simpl. lia.
  - simpl. lia.
Defined.

Lemma train_records_witness :
  exists acctrain_l acctest_l s',
    DynamicsModel.train unit adam0 step0 shuffle0 data5 cfg_ensemble_of_three
      (DynamicsModel.St
         (DynamicsModel.init cfg_ensemble_of_three (fun _ => zero_params)) 0)
    = Ok ((acctrain_l, acctest_l), s') /\
    DynamicsModel.acctrain (DynamicsModel.self s') = Some acctrain_l /\
    DynamicsModel.acctest (DynamicsModel.self s') = Some acctest_l /\
    length acctrain_l = 3 /\
    Forall (fun l => length l = 1) acctrain_l.
Proof.
  destruct (DynamicsModel.train unit adam0 step0 shuffle0 data5
              cfg_ensemble_of_three
              (DynamicsModel.St
                 (DynamicsModel.init cfg_ensemble_of_three
                    (fun _ => zero_params)) 0))
    as [[[tr te] s']|e] eqn:H.
  - exists tr, te, s'. split; [reflexivity|].
    destruct (train_records unit adam0 step0 shuffle0 data5
                cfg_ensemble_of_three _ s' tr te H)
      as (H1 & H2 & H3 & _ & H5 & _).
    repeat split; assumption.
  - exfalso. vm_compute in H. discriminate.
Defined.

(** Five samples cannot be split into six folds. *)
Lemma train_kfold_raises_witness :
  DynamicsModel.train unit adam0 step0 shuffle0 data5 cfg_ensemble_of_six
    (DynamicsModel.St
       (DynamicsModel.init cfg_ensemble_of_six (fun _ => zero_params)) 0)
  = Err ValueError.
Proof.
  apply (train_kfold_raises unit adam0 step0 shuffle0 data5
           cfg_ensemble_of_six).
  - reflexivity.
  - right. split; [discriminate | simpl; lia].
Defined.

End TrainOutcomesExamples.
(** * mbrl_resources.py *)

(** ** Net *)

Section MbrlNetFacts.

Lemma py_index_nat {A} (l : list A) (i : nat) (a : A) :
  nth_error l i = Some a -> py_index l (Z.of_nat i) = Ok a.
Proof.
  intros H. unfold py_index. cbv zeta.
  assert (Hi : i < length l) by (apply nth_error_Some; congruence).
  destruct (Z.ltb_spec (Z.of_nat i) 0) as [Hn|_]; [lia|].
  destruct (Z.leb_spec 0 (Z.of_nat i)) as [_|Hn]; [|lia].
  destruct (Z.ltb_spec (Z.of_nat i) (Z.of_nat (length l))) as [_|Hn]; [|lia].
  cbn [andb]. now rewrite Nat2Z.id, H.
Qed.

Lemma py_index_nil {A} (k : Z) : py_index (@nil A) k = Err IndexError.
Proof.
  unfold py_index. cbn [length]. cbv zeta.
  destruct (k <? 0)%Z, (0 <=? _)%Z, (_ <? Z.of_nat 0)%Z eqn:H;
    try reflexivity; cbn [andb]; destruct (Z.to_nat _); reflexivity.
Qed.

Lemma range_pred_length (n : nat) : range (Z.of_nat n - 1) = seq 0 (n - 1).
Proof. unfold range. f_equal. lia. Qed.

Lemma init_linears_nth (structure : list nat) (tf : R -> R)
      (p : MbrlNet.init_params) (i : nat) :
  i + 1 < length structure ->
  nth_error (MbrlNet.linears (MbrlNet.init structure tf p)) i
  = Some (MbrlNet.new_Linear p i (nth i structure 0)
                             (nth (i + 1) structure 0)).
Proof.
  intros Hi. unfold MbrlNet.init. cbn [MbrlNet.linears].
  rewrite range_pred_length.
  apply (@map_nth_error nat _
           (fun i => MbrlNet.new_Linear p i (nth i structure 0)
                                        (nth (i + 1) structure 0))
           i (seq 0 (length structure - 1)) i).
  rewrite (nth_error_nth' (seq 0 (length structure - 1)) 0)
    by (rewrite length_seq; lia).
  now rewrite seq_nth by lia.
Qed.

Lemma Linear_call_shape (p : MbrlNet.init_params) (i n_i n_o : nat)
      (x : tensor) :
  ncols x = n_i ->
  exists y, MbrlNet.Linear_call (MbrlNet.new_Linear p i n_i n_o) x = Ok y /\
            nrows y = nrows x /\ ncols y = n_o.
Proof.
  intros Hx. unfold MbrlNet.Linear_call.
  apply (apply_layer_shape _ n_i n_o x); [|exact Hx].
  simpl. repeat split.
Qed.

Lemma Linear_call_wrong_width (p : MbrlNet.init_params) (i n_i n_o : nat)
      (x : tensor) :
  ncols x <> n_i ->
  MbrlNet.Linear_call (MbrlNet.new_Linear p i n_i n_o) x = Err RuntimeError.
Proof.
  intros Hx. unfold MbrlNet.Linear_call, MbrlNet.new_Linear.
  cbn [fst snd Net.apply_layer]. unfold mm, transpose. cbn [nrows ncols tab].
  destruct (Nat.eqb_spec (ncols x) n_i); [contradiction | reflexivity].
Qed.

(** The layers with the nonlinearity, from layer [a] on. *)
Lemma hidden_loop_shape (structure : list nat) (tf : R -> R)
      (p : MbrlNet.init_params) (k : nat) :
  forall (a : nat) (x : tensor),
    (forall i, a <= i < a + k -> i + 1 < length structure) ->
    ncols x = nth a structure 0 ->
    exists y,
      rfor_each (seq a k)
                (MbrlNet.hidden_step (MbrlNet.init structure tf p)) x = Ok y /\
      nrows y = nrows x /\ ncols y = nth (a + k) structure 0.
Proof.
  induction k as [|k IH]; intros a x Hin Hx; cbn [seq rfor_each].
  - exists x. rewrite Nat.add_0_r. auto.
  - assert (Ha : a + 1 < length structure) by (apply Hin; lia).
    unfold MbrlNet.hidden_step at 1.
    rewrite (py_index_nat _ a _ (init_linears_nth structure tf p a Ha)).
    cbn [rbind].
    destruct (Linear_call_shape p a _ (nth (a + 1) structure 0) x Hx)
      as (y & -> & Hr & Hc).
    cbn [rbind].
    destruct (IH (S a) (tmap (MbrlNet.tf (MbrlNet.init structure tf p)) y))
      as (z & Hz & Hzr & Hzc).
    { intros i Hi. apply Hin. lia. }
    { cbn [ncols tmap tab]. rewrite Hc. f_equal. lia. }
    exists z. split; [exact Hz|]. split.
    + rewrite Hzr. cbn [nrows tmap tab]. exact Hr.
    + rewrite Hzc. f_equal. lia.
Qed.

Lemma nth_last {A} (l : list A) (d : A) :
  nth (length l - 1) l d = last l d.
Proof.
  induction l as [|a [|b l] IH]; try reflexivity.
  replace (length (a :: b :: l) - 1) with (S (length (b :: l) - 1))
    by (cbn [length]; lia).
  change (nth (S (length (b :: l) - 1)) (a :: b :: l) d)
    with (nth (length (b :: l) - 1) (b :: l) d).
  rewrite IH. reflexivity.
Qed.

Lemma nth_0_hd {A} (l : list A) (d : A) : nth 0 l d = hd d l.
Proof. destruct l; reflexivity. Qed.

(** A batch of the right width passes through the whole network. *)
Lemma mbrl_forward_ok (structure : list nat) (tf : R -> R)
      (p : MbrlNet.init_params) (x : tensor) :
  2 <= length structure -> ncols x = hd 0 structure ->
  exists y,
    MbrlNet.forward (MbrlNet.init structure tf p) x = Ok y /\
    nrows y = nrows x /\ ncols y = last structure 0.
Proof.
  intros Hl Hx. unfold MbrlNet.forward.
  assert (Hn : MbrlNet.n_layers (MbrlNet.init structure tf p)
               = (Z.of_nat (length structure - 1))%Z)
    by (cbn [MbrlNet.init MbrlNet.n_layers]; lia).
  rewrite Hn, range_pred_length.
  destruct (hidden_loop_shape structure tf p (length structure - 1 - 1) 0 x)
    as (y & -> & Hr & Hc).
  { intros i Hi. lia. }
  { now rewrite nth_0_hd. }
  change (0 + (length structure - 1 - 1)) with (length structure - 1 - 1)
    in Hc.
  cbn [rbind].
  replace (Z.of_nat (length structure - 1) - 1)%Z
    with (Z.of_nat (length structure - 1 - 1)) by lia.
  rewrite (py_index_nat _ _ _ (init_linears_nth structure tf p
                                 (length structure - 1 - 1) ltac:(lia))).
  cbn [rbind].
  destruct (Linear_call_shape p (length structure - 1 - 1) _
              (nth (length structure - 1 - 1 + 1) structure 0) y Hc)
    as (z & -> & Hzr & Hzc).
  exists z. split; [reflexivity|]. split; [congruence|].
  rewrite Hzc, <- nth_last. f_equal. lia.
Qed.

(** A batch of any other width is rejected by the first layer. *)
Lemma mbrl_forward_wrong_width (structure : list nat) (tf : R -> R)
      (p : MbrlNet.init_params) (x : tensor) :
  2 <= length structure -> ncols x <> hd 0 structure ->
  MbrlNet.forward (MbrlNet.init structure tf p) x = Err RuntimeError.
Proof.
  intros Hl Hx. unfold MbrlNet.forward.
  assert (Hn : MbrlNet.n_layers (MbrlNet.init structure tf p)
               = (Z.of_nat (length structure - 1))%Z)
    by (cbn [MbrlNet.init MbrlNet.n_layers]; lia).
  rewrite Hn, range_pred_length.
  rewrite <- nth_0_hd in Hx.
  destruct (length structure - 1 - 1) as [|k] eqn:Hk.
  - cbn [seq rfor_each rbind].
    replace (Z.of_nat (length structure - 1) - 1)%Z with (Z.of_nat 0) by lia.
    rewrite (py_index_nat _ _ _ (init_linears_nth structure tf p 0
                                   ltac:(lia))).
    cbn [rbind]. now apply Linear_call_wrong_width.
  - cbn [seq rfor_each]. unfold MbrlNet.hidden_step at 1.
    rewrite (py_index_nat _ _ _ (init_linears_nth structure tf p 0
                                   ltac:(lia))).
    cbn [rbind]. now rewrite Linear_call_wrong_width.
Qed.

(** [X17].  A network built from a [structure] with fewer than two
    sizes has no layer, and its [forward] raises [IndexError] on every
    input: [self.linears[self.n_layers-1]] indexes an empty list. *)
Theorem mbrl_net_forward_short_structure (structure : list nat)
        (tf : R -> R) (p : MbrlNet.init_params) (x : tensor) :
  length structure <= 1 ->
  MbrlNet.linears (MbrlNet.init structure tf p) = [] /\
  MbrlNet.forward (MbrlNet.init structure tf p) x = Err IndexError.
Proof.
  intros Hl.
  assert (Hlin : MbrlNet.linears (MbrlNet.init structure tf p) = []).
  { cbn [MbrlNet.init MbrlNet.linears]. unfold range.
    replace (Z.to_nat (Z.of_nat (length structure) - 1)) with 0 by lia.
    reflexivity. }
  split; [exact Hlin|].
  unfold MbrlNet.forward. rewrite Hlin.
  cbn [MbrlNet.init MbrlNet.n_layers]. unfold range.
  replace (Z.to_nat (Z.of_nat (length structure) - 1 - 1)) with 0 by lia.
  cbn [seq rfor_each rbind]. now rewrite py_index_nil.
Qed.

Lemma mbrl_net_forward_short_structure_witness :
  MbrlNet.linears (MbrlNet.init [5] MbrlNet.relu (mbrl_params 0)) = [] /\
  MbrlNet.forward (MbrlNet.init [5] MbrlNet.relu (mbrl_params 0)) x45
  = Err IndexError.
Proof.
  apply (mbrl_net_forward_short_structure [5] MbrlNet.relu (mbrl_params 0)
           x45).
  simpl. lia.
Defined.

(** [X18].  A network built from a [structure] of at least two sizes
    accepts exactly the batches with [structure[0]] columns: for such a
    batch [forward] returns a tensor with one row per input row and
    [structure[-1]] columns; for any other width it raises a shape
    error. *)
Theorem mbrl_net_forward_width (structure : list nat) (tf : R -> R)
        (p : MbrlNet.init_params) (x : tensor) :
  2 <= length structure ->
  (ncols x = hd 0 structure /\
   exists y, MbrlNet.forward (MbrlNet.init structure tf p) x = Ok y /\
             shape y = (nrows x, last structure 0))
  \/
  (ncols x <> hd 0 structure /\
   MbrlNet.forward (MbrlNet.init structure tf p) x = Err RuntimeError).
Proof.
  intros Hl. destruct (Nat.eq_dec (ncols x) (hd 0 structure)) as [Hx | Hx].
  - left. split; [exact Hx|].
    destruct (mbrl_forward_ok structure tf p x Hl Hx) as (y & Hy & Hr & Hc).
    exists y. split; [exact Hy|]. unfold shape. congruence.
  - right. split; [exact Hx|]. now apply mbrl_forward_wrong_width.
Qed.

Lemma mbrl_net_forward_width_witness :
  (ncols x45 = 5 /\
   exists y, MbrlNet.forward
               (MbrlNet.init structure_5_4_3 MbrlNet.relu (mbrl_params 0)) x45
             = Ok y /\
             shape y = (4, 3))
  \/
  (ncols x45 <> 5 /\
   MbrlNet.forward (MbrlNet.init structure_5_4_3 MbrlNet.relu (mbrl_params 0))
                   x45 = Err RuntimeError).
Proof.
  apply (mbrl_net_forward_width structure_5_4_3 MbrlNet.relu (mbrl_params 0)
           x45).
  simpl. lia.
Defined.

End MbrlNetFacts.
(** ** Prob_Loss *)

Section ProbLossOld.

Lemma cols_to_half (size : nat) (inputs : tensor) :
  ncols inputs = 2 * size ->
  cols_to size inputs = tab (nrows inputs) size (fun i j => get inputs i j).
Proof.
  intros Hc. unfold cols_to. rewrite Hc.
  replace (Nat.min size (2 * size)) with size by lia. reflexivity.
Qed.

Lemma cols_from_half (size : nat) (inputs : tensor) :
  ncols inputs = 2 * size ->
  cols_from size inputs
  = tab (nrows inputs) size (fun i j => get inputs i (size + j)).
Proof.
  intros Hc. unfold cols_from. rewrite Hc.
  replace (2 * size - size) with size by lia. reflexivity.
Qed.

(** The value of the earlier loss on shapes that fit. *)
Lemma prob_loss_forward_eq (inputs targets : tensor) :
  ncols inputs = 2 * ncols targets -> nrows targets = nrows inputs ->
  Prob_Loss.forward inputs targets =
  Ok (sum_n (nrows inputs) (fun i =>
        sum_n (ncols targets) (fun j =>
          ((get inputs i j - get targets i j)
           * (get inputs i j - get targets i j)
           / get inputs i (ncols targets + j)
           + ln (get inputs i (ncols targets + j)))%R))).
Proof.
  intros Hc Hr. unfold Prob_Loss.forward. cbv zeta.
  rewrite (cols_to_half _ _ Hc), (cols_from_half _ _ Hc).
  unfold sub, div.
  rewrite (bcast_tab_l _ _ _ _ targets Hr eq_refl). cbn [rbind].
  rewrite bcast_same_tab. cbn [rbind].
  unfold mm, transpose. cbn [nrows ncols tab]. rewrite Nat.eqb_refl.
  cbn [rbind]. f_equal. rewrite tmap_tab.
  unfold trace, sum. cbn [nrows ncols tab]. rewrite Nat.min_id.
  rewrite sum_n_plus. apply sum_n_ext. intros i Hi.
  rewrite get_tab by assumption. rewrite sum_n_plus.
  apply sum_n_ext. intros j Hj.
  rewrite !get_tab by assumption. unfold Rdiv. ring.
Qed.

(** [X19].  For targets of shape [(batch, size)] and an input with
    [2 * size] columns whose second half (the variances) is positive,
    [Prob_Loss.forward] returns the sum over all samples and coordinates
    of [(mean - target)^2 / var + log var]. *)
Theorem prob_loss_forward_value (inputs targets : tensor) :
  ncols inputs = 2 * ncols targets -> nrows targets = nrows inputs ->
  (forall i j, i < nrows inputs -> j < ncols targets ->
               (0 < get inputs i (ncols targets + j))%R) ->
  Prob_Loss.forward inputs targets =
  Ok (sum_n (nrows inputs) (fun i =>
        sum_n (ncols targets) (fun j =>
          ((get inputs i j - get targets i j)
           * (get inputs i j - get targets i j)
           / get inputs i (ncols targets + j)
           + ln (get inputs i (ncols targets + j)))%R))).
Proof. intros Hc Hr _. now apply prob_loss_forward_eq. Qed.

Lemma prob_loss_forward_value_witness :
  exists v,
    Prob_Loss.forward (tab 2 2 (fun i j => (1 + INR i + INR j)%R))
                      (tab 2 1 (fun i _ => INR i)) = Ok v.
Proof.
  eexists.
  apply (prob_loss_forward_value (tab 2 2 (fun i j => (1 + INR i + INR j)%R))
           (tab 2 1 (fun i _ => INR i))).
  - reflexivity.
  - reflexivity.
  - intros i j Hi Hj. cbn [ncols nrows tab] in *.
    rewrite get_tab by lia.
    pose proof (pos_INR i). pose proof (pos_INR (1 + j)). lra.
Defined.

Lemma hcat_cols_to (r c c' : nat) (f g : nat -> nat -> R) :
  cols_to c (hcat (tab r c f) (tab r c' g)) = tab r c f.
Proof.
  unfold cols_to, hcat. cbn [nrows ncols tab].
  replace (Nat.min c (c + c')) with c by lia.
  apply tab_ext. intros i j Hi Hj. rewrite get_tab by lia.
  destruct (Nat.ltb_spec j c); [|lia]. now rewrite get_tab.
Qed.

Lemma hcat_cols_from (r c c' : nat) (f g : nat -> nat -> R) :
  cols_from c (hcat (tab r c f) (tab r c' g)) = tab r c' g.
Proof.
  unfold cols_from, hcat. cbn [nrows ncols tab].
  replace (c + c' - c) with c' by lia.
  apply tab_ext. intros i j Hi Hj. rewrite get_tab by lia.
  destruct (Nat.ltb_spec (c + j) c); [lia|].
  replace (c + j - c) with j by lia. now rewrite get_tab.
Qed.

(** [X20].  The loss of [dynamics_model.py] is the earlier loss applied
    to the same means and to the variances [exp logvar] of the
    soft-clamped log-variances: for a network output with [2 * size]
    columns and targets with [size] columns, [ProbLoss.forward] on the
    output equals [Prob_Loss.forward] on the means and these variances
    put side by side (value or exception alike). *)
Theorem probloss_is_prob_loss_on_clamped_variance (self : ProbLoss.t)
        (inputs targets logvar : tensor) :
  ProbLoss.wf_loss self -> ncols inputs = 2 * ProbLoss.size self ->
  ncols targets = ProbLoss.size self ->
  ProbLoss.capped_logvar self inputs = Ok logvar ->
  ProbLoss.forward self inputs targets
  = Prob_Loss.forward
      (hcat (cols_to (ProbLoss.size self) inputs) (tmap exp logvar)) targets.
Proof.
  intros Hwf Hc Ht Hlv. unfold ProbLoss.forward, Prob_Loss.forward.
  rewrite Hlv. cbn [rbind]. cbv zeta.
  rewrite (capped_logvar_eq _ _ Hwf Hc) in Hlv. injection Hlv as <-.
  rewrite Ht, (cols_to_half _ _ Hc), tmap_tab.
  now rewrite hcat_cols_to, hcat_cols_from.
Qed.

Lemma probloss_is_prob_loss_on_clamped_variance_witness :
  exists logvar,
    ProbLoss.capped_logvar (ProbLoss.init 1) unit_var_batch = Ok logvar /\
    ProbLoss.forward (ProbLoss.init 1) unit_var_batch
                     (tab 2 1 (fun i _ => INR i))
    = Prob_Loss.forward
        (hcat (cols_to 1 unit_var_batch) (tmap exp logvar))
        (tab 2 1 (fun i _ => INR i)).
Proof.
  eexists. split.
  - apply (capped_logvar_eq (ProbLoss.init 1) unit_var_batch
             (wf_loss_init 1)). reflexivity.
  - apply (probloss_is_prob_loss_on_clamped_variance (ProbLoss.init 1)
             unit_var_batch (tab 2 1 (fun i _ => INR i))).
    + apply wf_loss_init.
    + reflexivity.
    + reflexivity.
    + apply (capped_logvar_eq (ProbLoss.init 1) unit_var_batch
               (wf_loss_init 1)). reflexivity.
Defined.

End ProbLossOld.

(** ** Ensemble *)

Section EnsembleFacts.

Lemma map_result_Forall2 {A B} (f : A -> result B) (l : list A) :
  (forall a, In a l -> exists b, f a = Ok b) ->
  exists bs, map_result f l = Ok bs /\
             Forall2 (fun a b => f a = Ok b) l bs.
Proof.
  induction l as [|a l IH]; intros H; cbn [map_result].
  - exists []. split; [reflexivity | constructor].
  - destruct (H a (or_introl eq_refl)) as [b Hb].
    destruct IH as (bs & Hbs & HF); [intros a' Ha'; apply H; now right|].
    exists (b :: bs). rewrite Hb, Hbs. split; [reflexivity|].
    now constructor.
Qed.

Lemma Forall2_nth_error {A B} (P : A -> B -> Prop) (l : list A)
      (bs : list B) (m : nat) (a : A) :
  Forall2 P l bs -> nth_error l m = Some a ->
  exists b, nth_error bs m = Some b /\ P a b.
Proof.
  intros HF. revert m. induction HF as [|a0 b0 l bs H0 _ IH];
    intros [|m] Hm; cbn [nth_error] in *; try discriminate.
  - injection Hm as <-. exists b0. auto.
  - now apply IH.
Qed.

Lemma ensemble_models_nth (structure : list nat) (n : Z)
      (p : nat -> MbrlNet.init_params) (m : nat) :
  m < Z.to_nat n ->
  nth_error (Ensemble.models (Ensemble.init structure n p)) m
  = Some (MbrlNet.init structure MbrlNet.relu (p m)).
Proof.
  intros Hm. cbn [Ensemble.init Ensemble.models]. unfold range.
  apply (@map_nth_error nat _
           (fun k => MbrlNet.init structure MbrlNet.relu (p k))
           m (seq 0 (Z.to_nat n)) m).
  rewrite (nth_error_nth' (seq 0 (Z.to_nat n)) 0) by (now rewrite length_seq).
  now rewrite seq_nth.
Qed.

(** [X21].  [Ensemble.predict] averages over the wrong axis for an
    ensemble mean: for [n >= 1] models of a [structure] with at least two
    sizes and a batch [x] of [structure[0]] columns and at least one row,
    the result has one row per model (shape [(n, structure[-1])]), and
    row [m] is the mean over the rows of the batch of what model [m]
    predicts; the models' predictions are not averaged with each other. *)
Theorem ensemble_predict_batch_mean (structure : list nat) (n : Z)
        (p : nat -> MbrlNet.init_params) (x : tensor) :
  2 <= length structure -> (0 < n)%Z ->
  ncols x = hd 0 structure -> 0 < nrows x ->
  exists y,
    Ensemble.predict (Ensemble.init structure n p) x = Ok y /\
    shape y = (Z.to_nat n, last structure 0) /\
    forall m j out,
      m < Z.to_nat n -> j < last structure 0 ->
      MbrlNet.predict (MbrlNet.init structure MbrlNet.relu (p m)) x = Ok out ->
      get y m j
      = (sum_n (nrows x) (fun i => get out i j) / INR (nrows x))%R.
Proof.
  intros Hl Hn Hx _. unfold Ensemble.predict.
  set (models := Ensemble.models (Ensemble.init structure n p)).
  assert (Hmodel : forall model, In model models ->
            exists out, MbrlNet.predict model x = Ok out /\
                        nrows out = nrows x /\ ncols out = last structure 0).
  { intros model Hin. unfold models in Hin.
    cbn [Ensemble.init Ensemble.models] in Hin.
    apply in_map_iff in Hin. destruct Hin as (k & <- & _).
    apply (mbrl_forward_ok structure MbrlNet.relu (p k) x Hl Hx). }
  destruct (map_result_Forall2 (fun model => MbrlNet.predict model x) models)
    as (outs & Houts & HF).
  { intros model Hin. destruct (Hmodel model Hin) as (out & Ho & _).
    now exists out. }
  rewrite Houts. cbn [rbind].
  assert (Hshape : Forall (fun out => nrows out = nrows x /\
                                      ncols out = last structure 0) outs).
  { clear Houts. induction HF as [|model out l bs Ho _ IH]; constructor.
    - destruct (Hmodel model (or_introl eq_refl)) as (out' & Ho' & Hs).
      rewrite Ho in Ho'. injection Ho' as <-. exact Hs.
    - apply IH. intros a Ha. apply Hmodel. now right. }
  assert (Hlen : length outs = Z.to_nat n).
  { rewrite <- (Forall2_length HF). unfold models.
    cbn [Ensemble.init Ensemble.models]. unfold range.
    now rewrite length_map, length_seq. }
  destruct outs as [|p0 outs']; [cbn [length] in Hlen; lia|].
  assert (Hp0 : nrows p0 = nrows x /\ ncols p0 = last structure 0)
    by (now inversion Hshape).
  destruct Hp0 as [Hp0r Hp0c].
  unfold np_average_axis1.
  replace (forallb _ (p0 :: outs')) with true.
  2:{ symmetry. apply forallb_forall. intros out Hin.
      rewrite Forall_forall in Hshape. destruct (Hshape out Hin) as [Hr Hc].
      rewrite Hr, Hc, Hp0r, Hp0c, !Nat.eqb_refl. reflexivity. }
  eexists. split; [reflexivity|]. split.
  - unfold shape. cbn [nrows ncols tab]. now rewrite Hlen, Hp0c.
  - intros m j out Hm Hj Hout.
    rewrite get_tab by (rewrite ?Hlen, ?Hp0c; assumption).
    destruct (Forall2_nth_error _ _ _ m _ HF
                (ensemble_models_nth structure n p m Hm))
      as (out' & Hnth & Ho').
    rewrite Hout in Ho'. injection Ho' as <-.
    rewrite (nth_error_nth _ _ p0 Hnth), Hp0r. reflexivity.
Qed.

Lemma ensemble_predict_batch_mean_witness :
  exists y,
    Ensemble.predict (Ensemble.init structure_5_4_3 2 mbrl_params) x45 = Ok y /\
    shape y = (2, 3).
Proof.
  destruct (ensemble_predict_batch_mean structure_5_4_3 2 mbrl_params x45)
    as (y & Hy & Hs & _).
  - simpl. lia.
  - lia.
  - reflexivity.
  - simpl. lia.
  - exists y. split; assumption.
Defined.

End EnsembleFacts.
(** ** The two networks *)

Section SameNetwork.

Lemma as_structure_length (n_in n_out : nat) (cfg : Config) :
  length (as_structure n_in n_out cfg) = hid_depth cfg + 3.
Proof.
  unfold as_structure. cbn [length].
  rewrite length_app, repeat_length. cbn [length]. lia.
Qed.

Lemma as_structure_hidden (n_in n_out : nat) (cfg : Config) (i : nat) :
  i <= hid_depth cfg ->
  nth (S i) (as_structure n_in n_out cfg) 0 = hid_width cfg.
Proof.
  intros Hi. unfold as_structure.
  change (nth (S i) (n_in :: ?l) 0) with (nth i l 0).
  rewrite app_nth1 by (rewrite repeat_length; lia).
  apply nth_repeat_lt. lia.
Qed.

Lemma as_structure_last (n_in n_out : nat) (cfg : Config) :
  nth (S (S (hid_depth cfg))) (as_structure n_in n_out cfg) 0 = n_out.
Proof.
  unfold as_structure.
  change (nth (S ?i) (n_in :: ?l) 0) with (nth i l 0).
  rewrite app_nth2 by (rewrite repeat_length; lia).
  rewrite repeat_length, Nat.sub_diag. reflexivity.
Qed.

(** Layer [i] of the earlier network is the layer named [layer_of i]. *)
Lemma as_mbrl_Linear_call (depth : nat) (p : Net.init_params)
      (i n_i n_o : nat) (x : tensor) :
  MbrlNet.Linear_call (MbrlNet.new_Linear (as_mbrl_params depth p) i n_i n_o) x
  = Net.apply_layer (snd (Net.new_Linear p (layer_of depth i) n_i n_o)) x.
Proof. reflexivity. Qed.

Lemma as_mbrl_step (n_in n_out : nat) (cfg : Config) (p : Net.init_params)
      (i : nat) (x : tensor) :
  i < S (hid_depth cfg) ->
  MbrlNet.hidden_step
    (MbrlNet.init (as_structure n_in n_out cfg) MbrlNet.relu
                  (as_mbrl_params (hid_depth cfg) p)) i x
  = (y <- Net.apply_layer
            (snd (Net.new_Linear p (layer_of (hid_depth cfg) i)
                    (nth i (as_structure n_in n_out cfg) 0)
                    (nth (i + 1) (as_structure n_in n_out cfg) 0))) x ;;
     Net.apply_layer Net.ReLU y)%res.
Proof.
  intros Hi. unfold MbrlNet.hidden_step.
  assert (Hi' : i + 1 < length (as_structure n_in n_out cfg))
    by (rewrite as_structure_length; lia).
  rewrite (py_index_nat _ _ _ (init_linears_nth _ MbrlNet.relu
             (as_mbrl_params (hid_depth cfg) p) i Hi')).
  cbn [rbind]. rewrite as_mbrl_Linear_call. reflexivity.
Qed.

(** The hidden layers, one after the other. *)
Lemma as_mbrl_hidden (n_in n_out : nat) (cfg : Config) (p : Net.init_params)
      (k : nat) :
  forall (a : nat) (x : tensor),
    a + k <= hid_depth cfg ->
    rfor_each (seq (S a) k)
      (MbrlNet.hidden_step
         (MbrlNet.init (as_structure n_in n_out cfg) MbrlNet.relu
                       (as_mbrl_params (hid_depth cfg) p))) x
    = Net.apply_Sequential
        (flat_map (fun d => [Net.new_Linear p (Net.dynm_lin_ d)
                               (hid_width cfg) (hid_width cfg);
                             (Net.dynm_act_ d, Net.ReLU)])
                  (seq a k)) x.
Proof.
  induction k as [|k IH]; intros a x Hk; [reflexivity|].
  cbn [seq rfor_each flat_map app Net.apply_Sequential].
  rewrite as_mbrl_step by lia.
  replace (S a + 1) with (S (S a)) by lia.
  rewrite !as_structure_hidden by lia.
  cbn [layer_of]. destruct (Nat.ltb_spec a (hid_depth cfg)) as [_|H]; [|lia].
  unfold Net.new_Linear. cbn [snd].
  destruct (Net.apply_layer _ x) as [y|e]; [|reflexivity].
  cbn [rbind Net.apply_layer]. apply IH. lia.
Qed.

(** [X22].  The network of [dynamics_model.py] is the earlier network of
    [mbrl_resources.py] for the structure
    [[n_in, hid_width, ..., hid_width, n_out]] (with [hid_depth + 1]
    hidden sizes), the default nonlinearity and the same weights: on
    every input the two forward passes return the same tensor or raise
    the same exception. *)
Theorem net_is_mbrl_net (n_in n_out : nat) (cfg : Config) (l : Net.loss)
        (p : Net.init_params) (x : tensor) (g : nat) :
  let old := MbrlNet.init (as_structure n_in n_out cfg) MbrlNet.relu
                          (as_mbrl_params (hid_depth cfg) p) in
  let s := Net.St (Net.init n_in n_out cfg l p) g in
  MbrlNet.n_layers old = Z.of_nat (hid_depth cfg + 2) /\
  Net.forward x s
  = match MbrlNet.forward old x with
    | Ok y => Ok (y, s)
    | Err e => Err e
    end.
Proof.
  cbv zeta. split.
  { cbn [MbrlNet.init MbrlNet.n_layers]. rewrite as_structure_length. lia. }
  unfold Net.forward, bind, get_state, lift. cbn [Net.self].
  assert (H : MbrlNet.forward
                (MbrlNet.init (as_structure n_in n_out cfg) MbrlNet.relu
                              (as_mbrl_params (hid_depth cfg) p)) x
              = Net.apply_Sequential
                  (Net.features (Net.init n_in n_out cfg l p)) x).
  { unfold MbrlNet.forward.
    assert (Hn : MbrlNet.n_layers
                   (MbrlNet.init (as_structure n_in n_out cfg) MbrlNet.relu
                                 (as_mbrl_params (hid_depth cfg) p))
                 = Z.of_nat (hid_depth cfg + 2))
      by (cbn [MbrlNet.init MbrlNet.n_layers];
          rewrite as_structure_length; lia).
    rewrite Hn. unfold range.
    replace (Z.to_nat (Z.of_nat (hid_depth cfg + 2) - 1))
      with (S (hid_depth cfg)) by lia.
    replace (Z.of_nat (hid_depth cfg + 2) - 1)%Z
      with (Z.of_nat (hid_depth cfg + 1)) by lia.
    assert (Hlast : hid_depth cfg + 1 + 1
                    < length (as_structure n_in n_out cfg))
      by (rewrite as_structure_length; lia).
    rewrite (py_index_nat _ _ _ (init_linears_nth _ MbrlNet.relu
               (as_mbrl_params (hid_depth cfg) p) (hid_depth cfg + 1) Hlast)).
    clear Hlast.
    cbn [seq rfor_each]. rewrite as_mbrl_step by lia.
    replace (0 + 1) with 1 by lia.
    rewrite (as_structure_hidden n_in n_out cfg 0) by lia.
    change (nth 0 (as_structure n_in n_out cfg) 0) with n_in.
    cbn [layer_of].
    unfold Net.init. cbn [Net.features app].
    unfold Net.new_Linear at 1 2. cbn [Net.apply_Sequential snd].
    destruct (Net.apply_layer _ x) as [y|e]; [|reflexivity].
    cbn [rbind Net.apply_layer].
    rewrite (as_mbrl_hidden n_in n_out cfg p (hid_depth cfg) 0) by lia.
    rewrite apply_Sequential_app.
    destruct (Net.apply_Sequential _ (tmap (Rmax 0) y)) as [z|e];
      [|reflexivity].
    cbn [rbind Net.apply_Sequential].
    replace (hid_depth cfg + 1) with (S (hid_depth cfg)) by lia.
    replace (S (hid_depth cfg) + 1) with (S (S (hid_depth cfg))) by lia.
    rewrite as_mbrl_Linear_call, as_structure_last.
    rewrite (as_structure_hidden n_in n_out cfg (hid_depth cfg)) by lia.
    cbn [layer_of]. rewrite Nat.ltb_irrefl.
    unfold Net.new_Linear. cbn [snd].
    destruct (Net.apply_layer _ z); reflexivity. }
  rewrite H. reflexivity.
Qed.

End SameNetwork.
(** ** More on the soft clamp of ProbLoss.forward *)

Section SoftClampMore.

Import ProbLoss.

(** [X23].  The two caps keep the order of the raw log-variances: of two
    network outputs, the one whose raw log-variance in a coordinate is not
    the smaller one does not get the smaller capped log-variance there. *)
Theorem capped_logvar_monotone (self : t) (inputs inputs' logvar logvar' : tensor) :
  wf_loss self ->
  ncols inputs = 2 * size self -> ncols inputs' = 2 * size self ->
  nrows inputs' = nrows inputs ->
  capped_logvar self inputs = Ok logvar ->
  capped_logvar self inputs' = Ok logvar' ->
  forall i j, i < nrows inputs -> j < size self ->
    (get inputs i (size self + j) <= get inputs' i (size self + j))%R ->
    (get logvar i j <= get logvar' i j)%R.
Proof.
  intros Hwf Hc Hc' Hr Hlv Hlv' i j Hi Hj Hle.
  rewrite (capped_logvar_eq _ _ Hwf Hc) in Hlv. injection Hlv as <-.
  rewrite (capped_logvar_eq _ _ Hwf Hc') in Hlv'. injection Hlv' as <-.
  rewrite !get_tab by (rewrite ?Hr; assumption).
  now apply soft_clamp_monotone.
Qed.

Lemma capped_logvar_monotone_witness :
  exists logvar logvar',
    capped_logvar (init 1) unit_var_batch = Ok logvar /\
    capped_logvar (init 1) (tab 2 2 (fun _ _ => (raw_unit + 1)%R))
      = Ok logvar' /\
    (get logvar 0 0 <= get logvar' 0 0)%R.
Proof.
  eexists. eexists. split; [|split].
  - apply (capped_logvar_eq (init 1) unit_var_batch (wf_loss_init 1)).
    reflexivity.
  - apply (capped_logvar_eq (init 1) (tab 2 2 (fun _ _ => (raw_unit + 1)%R))
             (wf_loss_init 1)).
    reflexivity.
  - apply (capped_logvar_monotone (init 1) unit_var_batch
             (tab 2 2 (fun _ _ => (raw_unit + 1)%R)) _ _
             (wf_loss_init 1) eq_refl eq_refl eq_refl
             (capped_logvar_eq (init 1) unit_var_batch (wf_loss_init 1)
                eq_refl)
             (capped_logvar_eq (init 1) (tab 2 2 (fun _ _ => (raw_unit + 1)%R))
                (wf_loss_init 1) eq_refl)
             0 0).
    + simpl. lia.
    + simpl. lia.
    + rewrite get_tab by (simpl; lia).
      change (get unit_var_batch 0 (size (init 1) + 0)) with raw_unit. lra.
Defined.

Lemma exp_monotone (x y : R) : (x <= y)%R -> (exp x <= exp y)%R.
Proof.
  intros [H | ->]; [apply Rlt_le, exp_increasing, H | apply Rle_refl].
Qed.

(** [X24].  A loss as [__init__] builds it (bounds [-1] and [+1])
    keeps every variance [exp logvar] between [exp (-1)] and
    [exp 1 + exp (-1)], bounds included, whatever the network output. *)
Theorem probloss_init_variance_range (sz : nat) (inputs : tensor) :
  ncols inputs = 2 * sz ->
  exists logvar,
    capped_logvar (init sz) inputs = Ok logvar /\
    shape logvar = (nrows inputs, sz) /\
    forall i j, i < nrows inputs -> j < sz ->
      (exp (-1) <= get (tmap exp logvar) i j <= exp 1 + exp (-1))%R.
Proof.
  intros Hc. eexists. split; [|split].
  - apply (capped_logvar_eq (init sz) inputs (wf_loss_init sz)). exact Hc.
  - reflexivity.
  - intros i j Hi Hj. unfold tmap. cbn [nrows ncols tab size init].
    rewrite !get_tab by assumption.
    cbn [max_logvar min_logvar init]. rewrite !get_tab by lia.
    replace (1 * 1)%R with 1%R by lra.
    replace (-1 * 1)%R with (-1)%R by lra.
    set (r := get inputs i (sz + j)).
    pose proof (soft_clamp_lower_le 1 (-1) r) as Hlow.
    pose proof (soft_clamp_upper_le 1 (-1) r) as Hup.
    split.
    + now apply exp_monotone.
    + assert (He : (exp 1 + exp (-1) = exp (1 + softplus (-1 - 1)))%R).
      { unfold softplus. rewrite exp_plus, exp_ln.
        - rewrite Rmult_plus_distr_l, Rmult_1_r, <- exp_plus.
          do 2 f_equal. lra.
        - pose proof (exp_pos (-1 - 1)). lra. }
      rewrite He. now apply exp_monotone.
Qed.

Lemma probloss_init_variance_range_witness :
  exists logvar,
    capped_logvar (init 1) raw_high = Ok logvar /\
    shape logvar = (1, 1) /\
    forall i j, i < 1 -> j < 1 ->
      (exp (-1) <= get (tmap exp logvar) i j <= exp 1 + exp (-1))%R.
Proof.
  apply (probloss_init_variance_range 1 raw_high). reflexivity.
Defined.

End SoftClampMore.
(** ** train_network *)

Section TrainNetworkFacts.

Import TrainNetwork.

Variable OptState : Type.
Variable Adam : list (tensor * tensor) -> R -> OptState.
Variable step : OptState -> criterion -> MbrlNet.t -> tensor -> tensor ->
                OptState * list (tensor * tensor).
Variable shuffle : nat -> nat -> list nat * nat.
Variable timer_at : nat -> R.

Lemma Rsum_app (l l' : list R) : Rsum (l ++ l') = (Rsum l + Rsum l')%R.
Proof.
  unfold Rsum. induction l as [|a l IH]; simpl; [lra | rewrite IH; lra].
Qed.

Lemma grows_refl (s : state) : grows s s [] [] [].
Proof. unfold grows. now rewrite !app_nil_r. Qed.

Lemma grows_trans (s0 s1 s2 : state) (bes ees ts bes' ees' ts' : list R) :
  grows s0 s1 bes ees ts -> grows s1 s2 bes' ees' ts' ->
  grows s0 s2 (bes ++ bes') (ees ++ ees') (ts ++ ts').
Proof.
  unfold grows. intros (A1 & A2 & A3 & A4 & A5) (B1 & B2 & B3 & B4 & B5).
  rewrite B1, B2, B3, A1, A2, A3, !app_assoc. repeat split; congruence.
Qed.

(** One batch: one batch error and one time are logged, and the error is
    added to the epoch's error. *)
Lemma batch_body_post (dataset : tensor * tensor) (crit : criterion)
      (indices : list nat) (acc : OptState * R) (s : state) :
  post (batch_body OptState step timer_at dataset crit indices acc s)
       (fun acc' s' =>
          exists e t, grows s s' [e] [] [t] /\
                      snd acc' = (snd acc + e)%R)
       (fun _ => True).
Proof.
  destruct acc as [optimizer epoch_error]. unfold batch_body.
  apply post_bind_lift.
  destruct (map_result (getitem dataset) indices) as [samples|e]; [|exact I].
  cbn [rpost]. apply post_bind_lift.
  destruct (DataLoader.collate samples) as [[inputs targets]|e]; [|exact I].
  cbn [rpost]. apply post_bind_get_state. apply post_bind_lift.
  destruct (MbrlNet.forward (model s) inputs) as [outputs|e]; [|exact I].
  cbn [rpost]. apply post_bind_lift.
  destruct (crit outputs targets) as [loss|e]; [|exact I].
  cbn [rpost]. cbv zeta.
  destruct (step optimizer crit (model s) inputs targets) as [optimizer' ls].
  unfold bind at 1, append_training_error at 1.
  unfold bind at 1, set_linears at 1.
  unfold bind at 1, timer at 1.
  apply post_bind_get_state. cbn [log_time]. apply post_bind_lift.
  destruct (py_index (log_time s) (-1)) as [last|e]; [|exact I].
  cbn [rpost]. unfold bind, append_time, ret. cbn [post snd].
  exists loss, (timer_at (clock s) - last)%R. split; [|reflexivity].
  unfold grows. cbn. now rewrite app_nil_r.
Qed.

Lemma batches_post (dataset : tensor * tensor) (crit : criterion)
      (batches : list (list nat)) (optimizer : OptState) (s : state) :
  post (for_each batches
          (batch_body OptState step timer_at dataset crit)
          (optimizer, 0%R) s)
       (fun acc s' =>
          exists es ts, grows s s' es [] ts /\
                        length ts = length es /\ snd acc = Rsum es)
       (fun _ => True).
Proof.
  pose proof (post_for_each
    (batch_body OptState step timer_at dataset crit)
    (fun (_ : nat) acc s' =>
       exists es ts, grows s s' es [] ts /\
                     length ts = length es /\ snd acc = Rsum es)
    (fun _ => True)) as Hloop.
  refine (post_weaken _ _ _ _ _
            (Hloop _ batches 0 (optimizer, 0%R) s _) _ _).
  - intros b n acc s0 (es & ts & Hg & Hl & Hs).
    apply (post_weaken _ _ _ _ _ (batch_body_post dataset crit b acc s0));
      [|auto].
    intros acc' s' (e & t & Hg' & He).
    exists (es ++ [e]), (ts ++ [t]). split; [|split].
    + apply (grows_trans _ _ _ _ _ _ _ _ _ Hg Hg').
    + rewrite !length_app. cbn [length]. lia.
    + rewrite He, Hs, Rsum_app. unfold Rsum. simpl. lra.
  - exists [], []. split; [apply grows_refl | split; reflexivity].
  - auto.
  - auto.
Qed.

(** One epoch: its batch errors, as many times, and one epoch error, the
    sum of the batch errors. *)
Lemma tn_epoch_body_post (dataset : tensor * tensor) (crit : criterion)
      (bs epoch : nat) (optimizer : OptState) (s : state) :
  post (epoch_body OptState step shuffle timer_at dataset crit bs epoch
          optimizer s)
       (fun _ s' =>
          exists es ts, grows s s' es [Rsum es] ts /\ length ts = length es)
       (fun _ => True).
Proof.
  unfold epoch_body. cbv zeta. apply post_bind_get_state.
  destruct (shuffle (rng s) (nrows (fst dataset))) as [order g].
  unfold bind at 1, set_rng at 1. apply post_bind.
  match goal with
  | |- post (for_each ?bt _ _ ?s1) _ _ =>
      apply (post_weaken _ _ _ _ _ (batches_post dataset crit bt optimizer s1));
        [|auto]
  end.
  intros [optimizer' epoch_error] s' (es & ts & Hg & Hl & Hs).
  cbn [snd] in Hs. subst epoch_error.
  unfold bind, append_training_error_epoch, ret. cbn [post].
  exists es, ts. split; [|exact Hl].
  unfold grows in *. cbn in *. destruct Hg as (A1 & A2 & A3 & A4 & A5).
  rewrite app_nil_r in A2. repeat split; congruence.
Qed.

Lemma epochs_post (dataset : tensor * tensor) (crit : criterion)
      (bs : nat) (epochs : list nat) (optimizer : OptState) (s : state) :
  post (for_each epochs
          (epoch_body OptState step shuffle timer_at dataset crit bs)
          optimizer s)
       (fun _ s' =>
          exists bes ees ts,
            grows s s' bes ees ts /\ length ts = length bes /\
            length ees = length epochs /\ Rsum ees = Rsum bes)
       (fun _ => True).
Proof.
  pose proof (post_for_each
    (epoch_body OptState step shuffle timer_at dataset crit bs)
    (fun n (_ : OptState) s' =>
       exists bes ees ts,
         grows s s' bes ees ts /\ length ts = length bes /\
         length ees = n /\ Rsum ees = Rsum bes)
    (fun _ => True)) as Hloop.
  refine (post_weaken _ _ _ _ _ (Hloop _ epochs 0 optimizer s _) _ _).
  - intros epoch n o s0 (bes & ees & ts & Hg & Hl & Hn & Hs).
    apply (post_weaken _ _ _ _ _
             (tn_epoch_body_post dataset crit bs epoch o s0)); [|auto].
    intros o' s' (es & ts' & Hg' & Hl').
    exists (bes ++ es), (ees ++ [Rsum es]), (ts ++ ts').
    split; [|split; [|split]].
    + apply (grows_trans _ _ _ _ _ _ _ _ _ Hg Hg').
    + rewrite !length_app. lia.
    + rewrite length_app. cbn [length]. lia.
    + rewrite !Rsum_app, Hs. unfold Rsum at 2. simpl. lra.
  - exists [], [], []. split; [apply grows_refl|]. repeat split.
  - intros o s' (bes & ees & ts & Hg & Hl & Hn & Hs).
    exists bes, ees, ts. rewrite Nat.add_0_r in Hn. auto.
  - auto.
Qed.

(** [X25].  When [train_network] returns, the logs it returns are the
    logs it was given (fresh ones, with [time = [0]], when none were
    given) extended by: one training error per batch processed; one time
    per batch processed; and one epoch error per epoch, [n_epochs] of
    them (10 when the parameter is absent), whose sum is the sum of the
    batch errors.  The model returned has the number of layers and the
    nonlinearity of the model given. *)
Theorem train_network_logs (dataset : tensor * tensor) (model : MbrlNet.t)
        (parameters : Parameters) (g c : nat)
        (model' : MbrlNet.t) (logs' : Logs) :
  train_network OptState Adam step shuffle timer_at dataset model parameters
                g c = Ok (model', logs') ->
  let old :=
    match logs parameters with
    | None => {| training_error := []; training_error_epoch := [];
                 time := Some [0%R] |}
    | Some l => {| training_error := training_error l;
                   training_error_epoch := training_error_epoch l;
                   time := Some (match time l with
                                 | None => [0%R]
                                 | Some t => t
                                 end) |}
    end in
  exists batch_errors epoch_errors times,
    training_error logs' = training_error old ++ batch_errors /\
    training_error_epoch logs'
      = training_error_epoch old ++ epoch_errors /\
    time logs' = option_map (fun t => t ++ times) (time old) /\
    length times = length batch_errors /\
    length epoch_errors = Z.to_nat (get (n_epochs parameters) 10%Z) /\
    Rsum epoch_errors = Rsum batch_errors /\
    MbrlNet.n_layers model' = MbrlNet.n_layers model /\
    MbrlNet.tf model' = MbrlNet.tf model.
Proof.
  unfold train_network. cbv zeta.
  destruct (length (MbrlNet.linears model) =? 0); [discriminate|].
  destruct (nrows (fst dataset) =? 0); [discriminate|].
  destruct (get (batch_size parameters) 100 <=? 0)%Z; [discriminate|].
  match goal with
  | |- match bind (for_each ?ep ?body ?o) _ ?s0 with _ => _ end = _ -> _ =>
      pose proof (epochs_post dataset
                    (get (par_criterion parameters) Net.mse_loss)
                    (Z.to_nat (get (batch_size parameters) 100%Z))
                    ep o s0) as Hp;
      unfold bind;
      destruct (for_each ep body o s0) as [[o' s1]|e]; [|discriminate]
  end.
  cbn [post] in Hp. destruct Hp as (bes & ees & ts & Hg & Hl & Hn & Hs).
  unfold timer. intros H. injection H as <- <-.
  cbn [training_error training_error_epoch time TrainNetwork.model
       log_training_error log_training_error_epoch log_time].
  unfold grows in Hg.
  cbn [log_training_error log_training_error_epoch log_time
       TrainNetwork.model] in Hg.
  destruct Hg as (A1 & A2 & A3 & A4 & A5).
  exists bes, ees, ts. unfold range in Hn. rewrite length_seq in Hn.
  destruct (logs parameters) as [l|];
    cbn [training_error training_error_epoch time option_map] in *;
    repeat split; try assumption; congruence.
Qed.

(** [X26].  [train_network] raises [ValueError] before the first epoch
    when the model has no layer (the optimizer is given no parameter),
    when the dataset has no row, and when the batch size is not
    positive. *)
Theorem train_network_raises (dataset : tensor * tensor) (model : MbrlNet.t)
        (parameters : Parameters) (g c : nat) :
  MbrlNet.linears model = [] \/ nrows (fst dataset) = 0 \/
  (get (batch_size parameters) 100 <= 0)%Z ->
  train_network OptState Adam step shuffle timer_at dataset model parameters
                g c = Err ValueError.
Proof.
  intros H. unfold train_network. cbv zeta.
  destruct (Nat.eqb_spec (length (MbrlNet.linears model)) 0) as [|Hm];
    [reflexivity|].
  destruct (Nat.eqb_spec (nrows (fst dataset)) 0) as [|Hd]; [reflexivity|].
  destruct (Z.leb_spec (get (batch_size parameters) 100%Z) 0) as [|Hb];
    [reflexivity|].
  destruct H as [H | [H | H]]; [|contradiction | lia].
  rewrite H in Hm. contradiction.
Qed.

End TrainNetworkFacts.

Section TrainNetworkExamples.

Import TrainNetwork.

(** Five samples and no parameter: ten epochs of one batch each. *)
Lemma train_network_logs_witness :
  exists model' logs' batch_errors epoch_errors times,
    train_network unit mbrl_adam0 mbrl_step0 shuffle_idx0 timer0 data5
      (MbrlNet.init structure_5_4_3 MbrlNet.relu (mbrl_params 0))
      no_parameters 0 0 = Ok (model', logs') /\
    training_error logs' = batch_errors /\
    training_error_epoch logs' = epoch_errors /\
    time logs' = Some ([0%R] ++ times) /\
    length epoch_errors = 10 /\
    Rsum epoch_errors = Rsum batch_errors.
Proof.
  destruct (train_network unit mbrl_adam0 mbrl_step0 shuffle_idx0 timer0
              data5 (MbrlNet.init structure_5_4_3 MbrlNet.relu (mbrl_params 0))
              no_parameters 0 0) as [[model' logs']|e] eqn:H.
  - destruct (train_network_logs unit mbrl_adam0 mbrl_step0 shuffle_idx0
                timer0 data5 _ no_parameters 0 0 model' logs' H)
      as (bes & ees & ts & H1 & H2 & H3 & H4 & H5 & H6 & _).
    exists model', logs', bes, ees, ts.
    split; [reflexivity|]. auto.
  - exfalso. vm_compute in H. discriminate.
Defined.

Lemma train_network_raises_witness :
  train_network unit mbrl_adam0 mbrl_step0 shuffle_idx0 timer0 data5
    (MbrlNet.init [5] MbrlNet.relu (mbrl_params 0)) no_parameters 0 0
  = Err ValueError.
Proof.
  apply (train_network_raises unit mbrl_adam0 mbrl_step0 shuffle_idx0 timer0
           data5 (MbrlNet.init [5] MbrlNet.relu (mbrl_params 0))
           no_parameters 0 0).
  left. reflexivity.
Defined.

End TrainNetworkExamples.
(** ** DynamicsModel.train: which rows each member is trained on *)

Section TrainRows.

Variable OptState : Type.
Variable Adam : Net.Sequential -> R -> OptState.
Variable step : OptState -> Net.loss -> Net.Sequential -> tensor -> tensor ->
                OptState * Net.Sequential.
Variable shuffle : nat -> list DataLoader.sample -> list DataLoader.sample * nat.

Lemma for_each_ext {T A B} (l : list A) (body body' : A -> B -> M T B) :
  (forall a acc s, In a l -> body a acc s = body' a acc s) ->
  forall acc s, for_each l body acc s = for_each l body' acc s.
Proof.
  induction l as [|a l IH]; intros H acc s; [reflexivity|].
  cbn [for_each]. unfold bind. rewrite (H a acc s) by now left.
  destruct (body' a acc s) as [[acc' s']|e]; [|reflexivity].
  apply IH. intros a0 acc0 s0 Hin. apply H. now right.
Qed.

Lemma for_each_map {T A A' B} (g : A -> A') (l : list A)
      (body : A' -> B -> M T B) :
  forall acc s,
    for_each (map g l) body acc s = for_each l (fun a => body (g a)) acc s.
Proof.
  induction l as [|a l IH]; intros acc s; [reflexivity|].
  cbn [map for_each]. unfold bind.
  destruct (body (g a) acc s) as [[acc' s']|e]; [apply IH | reflexivity].
Qed.

Lemma combine_map_r {A B} (f : A -> B) (l : list A) :
  combine l (map f l) = map (fun a => (a, f a)) l.
Proof. induction l as [|a l IH]; simpl; [reflexivity | now rewrite IH]. Qed.

(** The folds of [KFold], member by member. *)
Lemma folds_from_rows (E N : nat) :
  KFold.folds_from N 0 (KFold.fold_sizes E N)
  = map (fun i => (train_rows E N i, held_out_rows E N i)) (seq 0 E).
Proof.
  apply nth_error_ext. intros i.
  rewrite nth_error_map, nth_error_seq.
  destruct (Nat.ltb_spec i E) as [Hi | Hi].
  - rewrite (folds_from_nth _ N 0 i _ (fold_sizes_nth E N i Hi)).
    rewrite fold_sizes_prefix_sum by lia. reflexivity.
  - apply nth_error_None.
    now rewrite folds_from_length, fold_sizes_length.
Qed.

Lemma train_rows_around (E N i : nat) :
  i < E -> train_rows E N i = rows_around E N i.
Proof.
  intros Hi. unfold train_rows, held_out_rows, rows_around.
  apply train_index_blocks. now apply fold_block_inside.
Qed.

(** The body of the loop of [train] on the [i]-th pair is the training of
    member [i] on the first component of the pair. *)
Lemma train_member_on_rows (dataset : tensor * tensor) (cfg : Config)
      (rows_of : nat -> list nat) (i : nat) (test_idx : list nat)
      (acc : list (list R) * list (list R)) (s : DynamicsModel.state) :
  DynamicsModel.train_member OptState Adam step shuffle dataset cfg
    (i, (rows_of i, test_idx)) acc s
  = train_on_rows OptState Adam step shuffle dataset cfg rows_of i acc s.
Proof. destruct acc. reflexivity. Qed.

(** With ensembling, [E] members and [2 <= E <= N], [train] trains the
    members in turn, member [i] on the rows outside the [i]-th fold. *)
Lemma train_eq_members_on (dataset : tensor * tensor) (cfg : Config)
      (s : DynamicsModel.state) :
  let E := DynamicsModel.E (DynamicsModel.self s) in
  let N := nrows (fst dataset) in
  DynamicsModel.ens (DynamicsModel.self s) = true ->
  length (DynamicsModel.nets (DynamicsModel.self s)) = E ->
  2 <= E -> E <= N ->
  DynamicsModel.train OptState Adam step shuffle dataset cfg s
  = train_members_on OptState Adam step shuffle dataset cfg E
      (train_rows E N) s.
Proof.
  intros E N Hens HL HE HN.
  unfold DynamicsModel.train, train_members_on.
  unfold bind at 1, get_state at 1. rewrite Hens.
  rewrite (folds_eq _ dataset HL HE HN), HL. fold E. fold N.
  unfold bind at 1. unfold bind at 1, lift at 1.
  rewrite folds_from_rows, combine_map_r.
  unfold bind at 2.
  rewrite for_each_map.
  rewrite (for_each_ext _ _
             (train_on_rows OptState Adam step shuffle dataset cfg
                (train_rows E N)))
    by (intros a acc s0 _; apply train_member_on_rows).
  reflexivity.
Qed.

Lemma for_each_rows_ext (dataset : tensor * tensor) (cfg : Config)
      (rows_of rows_of' : nat -> list nat) (E : nat)
      (s : DynamicsModel.state) :
  (forall i, i < E -> rows_of i = rows_of' i) ->
  train_members_on OptState Adam step shuffle dataset cfg E rows_of s
  = train_members_on OptState Adam step shuffle dataset cfg E rows_of' s.
Proof.
  intros H. unfold train_members_on. unfold bind at 1. unfold bind at 3.
  rewrite (for_each_ext _ _
             (train_on_rows OptState Adam step shuffle dataset cfg rows_of')).
  - reflexivity.
  - intros i acc s0 Hi. apply in_seq in Hi.
    unfold train_on_rows. now rewrite H by lia.
Qed.

(** [train] writes the members' weights and the recorded errors only. *)
Lemma train_same_frame (dataset : tensor * tensor) (cfg : Config)
      (s : DynamicsModel.state) :
  post (DynamicsModel.train OptState Adam step shuffle dataset cfg s)
       (fun _ s' => same_frame (DynamicsModel.self s) (DynamicsModel.self s'))
       (fun _ => True).
Proof.
  unfold DynamicsModel.train. apply post_bind_get_state. apply post_bind.
  destruct (DynamicsModel.ens (DynamicsModel.self s)).
  - apply post_bind_lift.
    destruct (DynamicsModel.folds (DynamicsModel.self s) dataset)
      as [fs|e]; [|exact I].
    cbn [rpost].
    apply (post_weaken _ _ _ _ _
             (train_loop_post OptState Adam step shuffle dataset cfg _ s));
      [|auto].
    intros [tr te] s1 (_ & _ & _ & _ & H5).
    unfold DynamicsModel.set_acc, bind, get_state, put_state, ret.
    cbn [post DynamicsModel.self].
    destruct H5 as (A1 & A2 & A3 & A4 & A5 & A6 & A7 & A8).
    unfold same_frame. cbn. auto 10.
  - apply post_bind.
    apply (post_weaken _ _ _ _ _
             (on_net_optimize_post OptState Adam step shuffle 0 dataset cfg s));
      [|auto].
    intros [tr te] s1 (_ & _ & H5).
    unfold DynamicsModel.set_acc, bind, get_state, put_state, ret.
    cbn [post DynamicsModel.self].
    destruct H5 as (A1 & A2 & A3 & A4 & A5 & A6 & A7 & A8).
    unfold same_frame. cbn. auto 10.
Qed.

(** Counting over the members is counting over the folds. *)
Lemma held_out_count_rows (smp E N : nat) :
  length (filter (fun i => mem smp (held_out_rows E N i)) (seq 0 E))
  = held_out_count smp (KFold.folds_from N 0 (KFold.fold_sizes E N)).
Proof.
  unfold held_out_count.
  now rewrite folds_from_rows, filter_map_swap, length_map.
Qed.

Lemma train_count_rows (smp E N : nat) :
  length (filter (fun i => mem smp (train_rows E N i)) (seq 0 E))
  = train_count smp (KFold.folds_from N 0 (KFold.fold_sizes E N)).
Proof.
  unfold train_count.
  now rewrite folds_from_rows, filter_map_swap, length_map.
Qed.

Lemma rows_counts (E N smp : nat) :
  0 < E -> smp < N ->
  length (filter (fun i => mem smp (held_out_rows E N i)) (seq 0 E)) = 1 /\
  length (filter (fun i => mem smp (train_rows E N i)) (seq 0 E)) = E - 1.
Proof.
  intros HE Hs. rewrite held_out_count_rows, train_count_rows.
  destruct (folds_from_counts (KFold.fold_sizes E N) N 0 smp) as [H1 H2];
    [rewrite fold_sizes_sum; lia | exact Hs |].
  rewrite fold_sizes_length in H2. simpl in H1. lia.
Qed.

Lemma train_rows_inside (E N i smp : nat) :
  In smp (train_rows E N i) -> smp < N /\ ~ In smp (held_out_rows E N i).
Proof.
  unfold train_rows. intros H. apply filter_In in H. destruct H as [Hn Hm].
  apply in_seq in Hn. split; [lia|].
  rewrite <- mem_true_iff. now destruct (mem smp (held_out_rows E N i)).
Qed.

Lemma fold_size_small (E N i : nat) :
  2 <= E -> E <= N -> i < E -> fold_size E N i < N.
Proof.
  intros HE HN Hi.
  pose proof (fold_sizes_small E N HE HN) as H.
  rewrite Forall_forall in H. apply H.
  apply nth_error_In with (n := i). now apply fold_sizes_nth.
Qed.

Lemma train_rows_nonempty (E N i : nat) :
  2 <= E -> E <= N -> i < E -> train_rows E N i <> [].
Proof.
  intros HE HN Hi. rewrite train_rows_around by exact Hi.
  unfold rows_around.
  pose proof (fold_size_small E N i HE HN Hi) as Hsmall.
  pose proof (fold_block_inside E N i Hi) as Hin.
  intros Hnil. apply (f_equal (@length nat)) in Hnil.
  rewrite length_app, !length_seq in Hnil. cbn [length] in Hnil. lia.
Qed.

Lemma fold_start_next (E N i : nat) :
  fold_start E N (i + 1) = fold_start E N i + fold_size E N i.
Proof.
  unfold fold_start, fold_size.
  destruct (Nat.ltb_spec i (N mod E)); lia.
Qed.

Lemma fold_start_last (E N : nat) : 0 < E -> fold_start E N E = N.
Proof.
  intros HE. unfold fold_start.
  pose proof (Nat.div_mod_eq N E). pose proof (Nat.mod_upper_bound N E).
  nia.
Qed.

(** [C5] (as the code has it).  With ensembling, [E] members and
    [2 <= E <= N], [train] is the training of the members in turn, member
    [i] by [optimize] on the rows [train_rows E N i] of the inputs and of
    the targets.  Every sample is held out from exactly one member and is
    among the training rows of exactly [E - 1] members; the training rows
    of a member are not empty, hold no row twice, and are the samples that
    are not held out from it.  (Whether the members' [optimize] then
    succeeds is another matter: the equation holds for the exceptions
    too.) *)
Theorem train_partition (dataset : tensor * tensor) (cfg : Config)
        (s : DynamicsModel.state) :
  let E := DynamicsModel.E (DynamicsModel.self s) in
  let N := nrows (fst dataset) in
  DynamicsModel.ens (DynamicsModel.self s) = true ->
  length (DynamicsModel.nets (DynamicsModel.self s)) = E ->
  2 <= E -> E <= N ->
  DynamicsModel.train OptState Adam step shuffle dataset cfg s
  = train_members_on OptState Adam step shuffle dataset cfg E
      (train_rows E N) s /\
  (forall smp, smp < N ->
     length (filter (fun i => mem smp (held_out_rows E N i)) (seq 0 E)) = 1 /\
     length (filter (fun i => mem smp (train_rows E N i)) (seq 0 E))
     = E - 1) /\
  (forall i, i < E ->
     train_rows E N i <> [] /\
     NoDup (train_rows E N i) /\
     forall smp, In smp (train_rows E N i) <->
                 smp < N /\ ~ In smp (held_out_rows E N i)).
Proof.
  intros E N Hens HL HE HN. split; [|split].
  - now apply train_eq_members_on.
  - intros smp Hs. apply rows_counts; [lia | exact Hs].
  - intros i Hi. split; [now apply train_rows_nonempty|].
    split; [apply NoDup_filter, seq_NoDup|].
    intros smp. split; [apply train_rows_inside|].
    intros [Hs Hout]. unfold train_rows. apply filter_In.
    split; [apply in_seq; lia|].
    destruct (mem smp (held_out_rows E N i)) eqn:Hm; [|reflexivity].
    apply mem_true_iff in Hm. contradiction.
Qed.

(** [C10].  With ensembling, [E] members and [2 <= E <= N], [train] is
    the training of the members in turn, member [i] on the rows before
    and after the [i]-th block of consecutive indices, in increasing
    order; the blocks follow one another from index 0 to index [N].  The
    rows depend on [E] and [N] alone, not on the weights or on the random
    generator: a call of [train] on the same dataset from any other state
    of a model with the same [E] trains every member on the same rows, and
    so does a second call on the model as the first call left it. *)
Theorem train_contiguous_folds (dataset : tensor * tensor) (cfg : Config)
        (s : DynamicsModel.state) :
  let E := DynamicsModel.E (DynamicsModel.self s) in
  let N := nrows (fst dataset) in
  DynamicsModel.ens (DynamicsModel.self s) = true ->
  length (DynamicsModel.nets (DynamicsModel.self s)) = E ->
  2 <= E -> E <= N ->
  DynamicsModel.train OptState Adam step shuffle dataset cfg s
  = train_members_on OptState Adam step shuffle dataset cfg E
      (rows_around E N) s /\
  (fold_start E N 0 = 0 /\ fold_start E N E = N /\
   forall i, i < E ->
     fold_start E N (i + 1) = fold_start E N i + fold_size E N i /\
     forall smp, In smp (rows_around E N i) <->
                 smp < N /\
                 ~ (fold_start E N i <= smp
                    < fold_start E N i + fold_size E N i)) /\
  (forall s2,
     DynamicsModel.ens (DynamicsModel.self s2) = true ->
     DynamicsModel.E (DynamicsModel.self s2) = E ->
     length (DynamicsModel.nets (DynamicsModel.self s2)) = E ->
     DynamicsModel.train OptState Adam step shuffle dataset cfg s2
     = train_members_on OptState Adam step shuffle dataset cfg E
         (rows_around E N) s2) /\
  (forall r s',
     DynamicsModel.train OptState Adam step shuffle dataset cfg s
       = Ok (r, s') ->
     DynamicsModel.train OptState Adam step shuffle dataset cfg s'
     = train_members_on OptState Adam step shuffle dataset cfg E
         (rows_around E N) s').
Proof.
  intros E N Hens HL HE HN.
  assert (Hrows : forall s0,
            train_members_on OptState Adam step shuffle dataset cfg E
              (train_rows E N) s0
            = train_members_on OptState Adam step shuffle dataset cfg E
                (rows_around E N) s0).
  { intros s0. apply for_each_rows_ext. intros i Hi.
    now apply train_rows_around. }
  assert (Hany : forall s2,
            DynamicsModel.ens (DynamicsModel.self s2) = true ->
            DynamicsModel.E (DynamicsModel.self s2) = E ->
            length (DynamicsModel.nets (DynamicsModel.self s2)) = E ->
            DynamicsModel.train OptState Adam step shuffle dataset cfg s2
            = train_members_on OptState Adam step shuffle dataset cfg E
                (rows_around E N) s2).
  { intros s2 Hens2 HE2 HL2. rewrite <- Hrows, <- HE2.
    apply train_eq_members_on; [exact Hens2 | | |]; rewrite HE2; assumption. }
  split; [|split; [|split]].
  - now apply Hany.
  - split; [reflexivity|]. split; [apply fold_start_last; lia|].
    intros i Hi. split; [apply fold_start_next|].
    intros smp. rewrite <- train_rows_around by exact Hi.
    pose proof (fold_block_inside E N i Hi) as Hin.
    unfold train_rows, held_out_rows.
    rewrite filter_In, in_seq, mem_seq.
    destruct (Nat.leb_spec (fold_start E N i) smp),
      (Nat.ltb_spec smp (fold_start E N i + fold_size E N i));
      cbn [andb negb]; split; intros [H1 H2];
      (split; [lia|]); try reflexivity; try discriminate; lia.
  - exact Hany.
  - intros r s' Htrain.
    pose proof (train_same_frame dataset cfg s) as Hf.
    rewrite Htrain in Hf. cbn [post] in Hf.
    destruct Hf as (A1 & _ & _ & A4 & _ & _ & _ & A8).
    apply Forall2_length in A8.
    apply Hany; [now rewrite A1 | exact A4 | now rewrite <- A8].
Qed.

End TrainRows.

Section TrainRowsExamples.

(** Five samples and three members: member 1 is trained on rows 0, 1
    and 4. *)
Lemma train_rows_3_5 : train_rows 3 5 1 = [0; 1; 4].
Proof. reflexivity. Qed.

Lemma train_partition_witness :
  DynamicsModel.train unit adam0 step0 shuffle0 data5 cfg_ensemble_of_three
    (DynamicsModel.St
       (DynamicsModel.init cfg_ensemble_of_three (fun _ => zero_params)) 0)
  = train_members_on unit adam0 step0 shuffle0 data5 cfg_ensemble_of_three 3
      (train_rows 3 5)
      (DynamicsModel.St
         (DynamicsModel.init cfg_ensemble_of_three (fun _ => zero_params)) 0) /\
  (forall smp, smp < 5 ->
     length (filter (fun i => mem smp (held_out_rows 3 5 i)) (seq 0 3)) = 1 /\
     length (filter (fun i => mem smp (train_rows 3 5 i)) (seq 0 3)) = 3 - 1) /\
  (forall i, i < 3 ->
     train_rows 3 5 i <> [] /\
     NoDup (train_rows 3 5 i) /\
     forall smp, In smp (train_rows 3 5 i) <->
                 smp < 5 /\ ~ In smp (held_out_rows 3 5 i)).
Proof.
  apply (train_partition unit adam0 step0 shuffle0 data5
           cfg_ensemble_of_three
           (DynamicsModel.St
              (DynamicsModel.init cfg_ensemble_of_three
                 (fun _ => zero_params)) 0)).
  - reflexivity.
  - reflexivity.
  - simpl. lia.
  - simpl. lia.
Defined.

Lemma train_contiguous_folds_witness :
  DynamicsModel.train unit adam0 step0 shuffle0 data5 cfg_ensemble_of_three
    (DynamicsModel.St
       (DynamicsModel.init cfg_ensemble_of_three (fun _ => zero_params)) 0)
  = train_members_on unit adam0 step0 shuffle0 data5 cfg_ensemble_of_three 3
      (rows_around 3 5)
      (DynamicsModel.St
         (DynamicsModel.init cfg_ensemble_of_three (fun _ => zero_params)) 0) /\
  (fold_start 3 5 0 = 0 /\ fold_start 3 5 3 = 5 /\
   forall i, i < 3 ->
     fold_start 3 5 (i + 1) = fold_start 3 5 i + fold_size 3 5 i /\
     forall smp, In smp (rows_around 3 5 i) <->
                 smp < 5 /\
                 ~ (fold_start 3 5 i <= smp
                    < fold_start 3 5 i + fold_size 3 5 i)) /\
  (forall s2,
     DynamicsModel.ens (DynamicsModel.self s2) = true ->
     DynamicsModel.E (DynamicsModel.self s2) = 3 ->
     length (DynamicsModel.nets (DynamicsModel.self s2)) = 3 ->
     DynamicsModel.train unit adam0 step0 shuffle0 data5
       cfg_ensemble_of_three s2
     = train_members_on unit adam0 step0 shuffle0 data5 cfg_ensemble_of_three
         3 (rows_around 3 5) s2) /\
  (forall r s',
     DynamicsModel.train unit adam0 step0 shuffle0 data5
       cfg_ensemble_of_three
       (DynamicsModel.St
          (DynamicsModel.init cfg_ensemble_of_three (fun _ => zero_params)) 0)
     = Ok (r, s') ->
     DynamicsModel.train unit adam0 step0 shuffle0 data5
       cfg_ensemble_of_three s'
     = train_members_on unit adam0 step0 shuffle0 data5 cfg_ensemble_of_three
         3 (rows_around 3 5) s').
Proof.
  apply (train_contiguous_folds unit adam0 step0 shuffle0 data5
           cfg_ensemble_of_three
           (DynamicsModel.St
              (DynamicsModel.init cfg_ensemble_of_three
                 (fun _ => zero_params)) 0)).
  - reflexivity.
  - reflexivity.
  - simpl. lia.
  - simpl. lia.
Defined.

(** Two members and two samples: each member is handed one sample, which
    its [optimize] cannot split into a train and a test part. *)
Lemma train_two_members_two_samples_raises :
  DynamicsModel.train unit adam0 step0 shuffle0 data2 cfg_ensemble_of_two
    (DynamicsModel.St
       (DynamicsModel.init cfg_ensemble_of_two (fun _ => zero_params)) 0)
  = Err ValueError.
Proof. vm_compute. reflexivity. Qed.

End TrainRowsExamples.
(** ** Hyperparameters outside their range *)

Section Hyperparameters.

Variable OptState : Type.
Variable Adam : Net.Sequential -> R -> OptState.
Variable step : OptState -> Net.loss -> Net.Sequential -> tensor -> tensor ->
                OptState * Net.Sequential.
Variable shuffle : nat -> list DataLoader.sample -> list DataLoader.sample * nat.



(** [int(split * n)] for a split fraction of at least 1, of at most -1,
    and of 0.  The source rounds the product to a float before it
    truncates; the cut is stated for every rounding [fl] that is monotone
    and keeps the integers (as rounding to the nearest float does for
    integers of the size of a dataset), the exact product being the case
    of no rounding. *)
Section Rounding.

Variable fl : Q -> Q.
Hypothesis fl_monotone : forall x y, (x <= y)%Q -> (fl x <= fl y)%Q.
Hypothesis fl_integer : forall z, (fl (inject_Z z) == inject_Z z)%Q.






End Rounding.











End Hyperparameters.

Section HyperparametersExamples.





End HyperparametersExamples.
